(* ===== verification/_CoqProject ===== *)
-Q . S2P
Prelude.v
Js.v
Task.v
Json.v
Wallet.v
Regex.v
Dotenv.v
Contract.v
Rpc.v
Ethers.v
Gateway.v
Chain.v
Service.v
Http.v
Concurrency.v
Scheduler.v
Config.v
Deploy.v
