(* ===== verification/Prelude.v ===== *)
(** * web3-lab: a verification development of the HTTP gateway and its deploy script

    The repository is a small web3 service.  [src/api/src/index.js] is an
    Express application over one deployed [SimpleStorage] contract: at
    start it reads [RPC_URL], [PRIVATE_KEY] and [SIMPLE_STORAGE_ADDRESS]
    from the environment (and exits with code 1 when one is missing),
    builds an ethers v6 provider, wallet and contract binding, and serves
    [GET /value] (read the stored integer, answer it as a decimal string)
    and [POST /value] (send [set(value)], wait for one confirmation,
    answer the transaction hash and block number); every failure of the
    blockchain client becomes a generic 500, a missing [value] a 400.
    [src/contracts/scripts/deploy-simple-storage.js] deploys the contract
    with Hardhat and prints its address.  The only shared state is the
    chain: handlers interact through the node, never through memory.

    ** Files, in dependency order

    - Prelude.v (this file): the [web3_scope] notation scope, the [web3]
      hint database, the tactics [invc] and [decompose_hyps], the
      equations of [String.append] (which stdpp hides from [simpl]).
    - Js.v: JavaScript values ([jsval]; numbers are binary64 [spec_float],
      BigInts are [Z]), property reads and destructuring ([js_get]),
      truthiness ([js_truthy], [js_or]), [BigInt.prototype.toString]
      ([bigint_to_string]) and [BigInt(string)] ([string_to_bigint]) with
      their round trip [string_to_bigint_to_string]; [obj_set], the
      assignment [obj[key] = value] on a plain object.
    - Task.v: an [async] function is a [task E A], a finite tree of
      awaited calls, console writes, a returned value or a thrown error;
      [bind] is sequencing after [await], [try_catch] (notation
      [TRY .. CATCH (err) ..]) is [try/catch].  [exec] gives a task its
      behaviours against any world that answers calls (a relation, so
      every call may fail); [run] is the executable interpreter for a
      deterministic world, and [run_exec] shows its runs are behaviours.
      Generic lemmas: [exec_bind], [exec_try_catch], [exec_await],
      [exec_catch_log_ret], [exec_simulation], [exec_invariant].
    - Json.v: [JSON.stringify] as [res.json] runs it ([json_stringify]:
      QuoteJSONString, SerializeJSONObject/Array, the BigInt TypeError;
      Number::toString of a non-integer is the parameter
      [fraction_to_string]) and [JSON.parse] as [express.json()] runs it
      ([json_parse]: a recursive-descent parser over the UTF-8 body,
      [parse_value]/[parse_items]/[parse_members], with [\u] escapes
      and surrogate pairs written out as UTF-8 and number literals
      rounded once to the nearest double).
    - Wallet.v: [new ethers.Wallet(PRIVATE_KEY, provider)] (index.js line
      21) on the key string ([wallet_key]: the [0x] ethers adds, [getBytes]
      and its byte pairs, the 32-byte length, the secp256k1 range [1 ..
      n-1] of [@noble/curves]); [wallet_key_spec] reads it as an optional
      [0x], 64 hex digits and a value in that range.
    - Regex.v: JavaScript's [RegExp] matcher on ASCII text ([mtch]: the
      matcher of the specification in continuation-passing style, with
      its backtracking order, greedy and lazy [*] through [star_loop],
      multiline [^] and [$], groups and backreferences), [exec] with the
      [g] flag ([exec_from]) and [String.prototype.replace] with a global
      pattern ([js_replace]); [mtch_consumes] bounds what a match takes.
    - Dotenv.v: dotenv's [parse] on the text of [.env] ([dotenv_lines]):
      the newline normalisation, the [LINE] loop ([dotenv_exec] over
      [dotenv_line], the source's regular expression as a [regex]), and
      each value trimmed, unquoted and escaped ([dotenv_value]).  The
      Section [RenderedLines] reads a file of lines entry by entry, for
      plain, quoted and commented assignments alike.
    - Contract.v: the ABI, byte by byte ([encode_word]/[decode_word]: a
      [uint256] as 32 big-endian bytes, through coqutil's little-endian
      lists), the [SimpleStorage] contract (modelled from the spec: its
      Solidity source and ABI file are not in the repository) with the
      dispatcher solc generates for it ([dispatch], [execute]), and
      ethers' side of the ABI ([set_calldata], [decode_get_result] with
      its [BAD_DATA] errors).
    - Rpc.v: the JSON-RPC calls the program makes ([rpc]: eth_call of
      [get()], pending nonce, raw transaction broadcast, receipt wait,
      balance), the API wallet's transactions (nonce and calldata bytes),
      receipts and responses.
    - Ethers.v: [EthersContract], the interface the handlers call
      ([contract.get], [contract.set], [tx.wait]), and [EthersV6], its
      model after ethers v6: [getBigInt] and the [uint256] coder
      ([encode_uint256]) before anything is sent, then nonce, broadcast
      and receipt; [get] decodes the bytes [eth_call] returns.
    - Gateway.v: the routes of index.js ([get_value_handler], lines
      38-46; [post_value_handler], lines 49-71, with [destructure_value]
      and [submit_and_confirm]; [app_route], Express routing) and their
      theorems, proved for every [EthersContract] and every world.
    - Chain.v: the node behind [RPC_URL]: blocks, the wallet's nonce and
      pending pool ([node]), the contract's storage updated by running
      each mined transaction's calldata through [SimpleStorage.execute];
      [node_reply] answers one call, [node_answer] adds mining before the
      answer and lost requests or replies; [node_wf] is its invariant.
      [devnet_respond] is an executable node that mines every pending
      transaction before it serves a call (Hardhat's automine) under a
      schedule of network faults; [devnet_run_exec] shows its runs are
      [node_answer] runs.
    - Service.v: the gateway with the ethers v6 binding on that node.
      [RegisterSpec] is the abstract specification (one stored integer,
      GET reads it, an accepted POST writes it) and [serve_refines] the
      refinement theorem for a sequence of requests served one at a time
      without faults; then the behaviours the spec does not state.
    - Http.v: the gateway on the wire.  [json_middleware] is
      [app.use(express.json())] (index.js line 7: media type, [utf-*]
      charset, the [100kb] limit, strict mode, [JSON.parse]; an unparsed
      body is [{}] under Express 4 and [undefined] under Express 5,
      [express_version]); [send_json] is [res.status(..).json(..)];
      [serve_http] composes them with [app_route], [serve1] on the node,
      Express's 404 and its error page for a refused body.
    - Concurrency.v: requests in flight together.  A configuration is
      the node, the handlers suspended on a call ([thread]) and the
      console; [step] answers one suspended call and runs its handler
      synchronously ([sync]) to the next [await], as Node's event loop
      does.  [concurrent_wf]: the node invariant holds under every
      interleaving; [conc_ok]: every suspended handler answers 200 only
      from what the node told it.
    - Scheduler.v: what a handler hands back to Express.
      [returns_within P d t] says [t] returns a value satisfying [P],
      without throwing, whatever the answers to its calls;
      [response_ok] is a status the code sets and a body [res.json]
      serializes.
    - Config.v: module evaluation of index.js ([startup]: the environment
      check, the background wallet report [wallet_report], [listen] on
      [PORT || 3001]), after [require("dotenv").config()] ([dotenv_load]
      on the file's text: Dotenv.v's assignments, then [dotenv_config]:
      dotenv's object [dotenv_parse] and its populate loop
      [dotenv_populate]), and the line the [listen] callback logs
      ([listen_line]).
    - Deploy.v: [deploy-simple-storage.js]: [main] (factory, [deploy()],
      [waitForDeployment()], [getAddress()], the log line) and [script]
      (the [.catch] that prints the error and sets [process.exitCode]),
      over the calls [hardhat]; [hh_reply] is a Hardhat network with
      automine (artifacts, the deployer's nonce and balance, the code at
      each address) and [hh_respond] adds the fault schedule of Chain.v.

    ** What the theorems show (claims C1-C32 of PROJECT.json)

    - Handlers (Gateway.v, any library, any node): the exact outcomes of
      GET (C1) and POST (C2); a missing [value] is a 400 with no call
      (C3), a [null]/[undefined] body a 500 (C10); a routed request never
      escapes with an exception and always answers 200, 400 or 500 (C4).
    - Response shape (Scheduler.v): in every run against any world a
      routed handler returns a response with status 200, 400 or 500 and
      a body [JSON.stringify] prints without throwing (C27).
    - End to end (Service.v): refinement of [RegisterSpec], one stored
      integer, by a sequence of requests served on the node (C5); a 200
      from POST is truthful: the transaction it names is mined and runs
      [set] with the posted value (C6); a GET writes nothing (C7); a 500
      may follow a completed write (C8); a value the ABI coder refuses
      is a client error answered 500 without a call (C9).
    - Encoding (Ethers.v, Contract.v): JSON numbers are accepted exactly
      when they are integers up to 2^53-1 (C11); GET's string posted
      back is read as the same integer (C12); [contract.get()] resolves
      with [z] exactly when the reply is whole ABI words, the first the
      [uint256] [z], and rejects with [BAD_DATA] on an empty reply (an
      address without code) or a length that is not whole words (C24).
    - Start-up (Config.v, Wallet.v, Dotenv.v): exit 1 exactly when a
      variable is missing or empty (C13); listening exactly with a
      complete configuration and, with ethers v6, a [PRIVATE_KEY] of 64
      hex digits, with or without [0x], of a value in [1 .. n-1], on
      [PORT] or 3001 (C14); dotenv reads a [.env] of plain [KEY=value]
      lines, through its regular expressions, as exactly those
      assignments in order (C23), a [.env] of quoted values with the
      quotes removed and everything between them kept, spaces and [#]
      included (C31), and a [.env] with inline comments as the
      assignments without them, an unquoted value ending at its first
      [#] (C32); loading [.env] is a left-biased union
      of the process environment with the last value of each key in
      [.env] (C25), so the process exits exactly when a variable is
      empty in the shell, or absent there and missing or empty in
      [.env] (C26).
    - Deployment (Deploy.v): every execution of the script against any
      world: the address is printed, exit status 0, exactly when the four
      calls resolved in order, and otherwise the first error is printed
      with exit code 1, never an unhandled rejection (C15); under any
      faults a printed address holds a fresh SimpleStorage (C16); the
      runs on a Hardhat node: success (C17), missing artifact (C18),
      unfunded deployer (C19), a lost reply after the deployment (exit 1
      although the contract exists, and a rerun deploys a second one,
      C20).
    - JSON (Json.v): [JSON.parse] reads back what [JSON.stringify]
      prints, for every value of the JSON domain and whatever digits
      Number::toString gives non-integers (C28).
    - On the wire (Http.v): a body [express.json()] refuses gets
      Express's error page (415, 413, 400; a top-level scalar is refused
      by strict mode) before any route and with the node untouched, and
      a non-JSON POST /value answers 400 under Express 4 but 500 under
      Express 5 (C29); posting [{"value":"<z>"}] stores [z], and the
      next GET answers exactly the posted text (C30).
    - Concurrency (Concurrency.v): two POSTs in flight together read the
      same pending nonce; the second broadcast is refused and a valid
      request is answered 500 on a healthy node (C21); yet under every
      interleaving, mining and fault schedule a 200 from POST names a
      transaction mined in the block it reports (C22).

    ** Bounds and fuel

    Tasks are finite trees and [exec]/[run] recurse on them;
    [mine_all] mines at most as many blocks as there are pending
    transactions, which is all of them.  Integers are [Z] with the
    [uint256] bound written out ([EthersV6.uint256_max], [2 ^ 256] in
    the ABI words) and JS numbers are binary64 values, so the 2^53 limit
    of JSON numbers is exact.  [json_parse] runs [parse_value] with fuel
    one more than the text's length: each call consumes a character or
    returns, and [json_parse_terminates] proves that fuel enough and
    that more fuel gives the same answer.  The [RegExp] matcher
    recurses on the pattern; its repetition takes fuel one more than the
    rest of the input, since an iteration that consumes nothing fails,
    and [star_loop_fuel] shows more fuel changes nothing.  dotenv's loop
    takes fuel one more than the text's length: every match consumes at
    least two characters ([dotenv_line_min_len], [exec_from_consumes]),
    and [dotenv_exec_fuel] shows any larger fuel gives the same list.

    ** Not modelled

    - Hardhat itself: compilation, the contract address (keccak of the
      deployer and nonce; here an injective printing of the nonce,
      [contract_address]) and the gas fee (a parameter [deploy_cost]).
    - In Concurrency.v a call is served when its caller resumes, so the
      node serves calls in the order the handlers resume; the reverse
      orders of two replies only reorder console lines.
    - On the wire: request charsets other than UTF-8 and compressed
      bodies (body-parser decodes them first), headers, and the text of
      Express's HTML error pages (only their status is kept).  In
      [JSON.parse], the ordering of integer-like keys of parsed objects
      (the program reads only [value]); in [JSON.stringify], the
      escaping of lone surrogates (the values printed come from ASCII
      digits and hashes) and Number::toString beyond integers below
      10^21 ([fraction_to_string]).
    - In [.env] and the [RegExp] matcher: characters are bytes, so the
      non-ASCII members of [\s] and of the line terminators are not
      modelled, nor is the encrypted [.env.vault] dotenv reads when
      [DOTENV_KEY] is set (it is not), nor the line dotenv 17 logs
      when it loads (the repository pins no version; 15 and 16 log
      nothing), which would come before the module's own console lines.
    - Inside ethers: gas estimation, fee, chain-id and block-number
      lookups (read-only calls that can only add failures); [tx.wait()]
      is one [WaitReceipt] call, where ethers polls for the receipt
      until it appears (Chain.v's [devnet_respond] answers that call
      with an error when no receipt exists); keccak hashing (a transaction
      hash is an injective printing of the signed fields, [tx_hash_inj];
      the function selectors are written out as their four bytes),
      and the address derivation from the key (secp256k1 multiplication
      and keccak; a parameter of [startup]).  Only the API wallet writes to the contract. *)

From stdpp Require Export base list gmap strings.
From Stdlib Require Export ZArith Lia.

Declare Scope web3_scope.
Delimit Scope web3_scope with web3.
Open Scope Z_scope.

Create HintDb web3.

(** Inversion that cleans up after itself. *)
Ltac invc H := inversion H; subst; clear H.

(** Break every existential, conjunction and disjunction among the
    hypotheses and clean up the resulting equations. *)
Ltac decompose_hyps :=
  repeat match goal with
  | H : exists _, _ |- _ => destruct H
  | H : _ /\ _ |- _ => destruct H
  | H : _ \/ _ |- _ => destruct H
  end; simplify_eq.

(** ** Strings *)

(** stdpp makes [String.append] opaque to [simpl]; these are its equations. *)
Lemma str_app_cons x (a b : string) : String x a +:+ b = String x (a +:+ b).
Proof. reflexivity. Qed.

Lemma str_app_nil_l (b : string) : EmptyString +:+ b = b.
Proof. reflexivity. Qed.

Lemma str_app_assoc (a b c : string) : (a +:+ b) +:+ c = a +:+ (b +:+ c).
Proof. induction a as [|x a IH]; [done|]. rewrite !str_app_cons. congruence. Qed.

Lemma str_app_nil_r (a : string) : a +:+ EmptyString = a.
Proof. induction a as [|x a IH]; [done|]. rewrite str_app_cons. congruence. Qed.

Lemma str_length_app (a b : string) : String.length (a +:+ b) = (String.length a + String.length b)%nat.
Proof. induction a as [|x a IH]; [done|]. rewrite str_app_cons. simpl. congruence. Qed.
Lemma str_app_inj_l (a b c : string) : a +:+ b = a +:+ c -> b = c.
Proof. induction a as [|x a IH]; [done|]. rewrite !str_app_cons. intros [= H]. auto. Qed.

(** Put concatenations in the form [String c (a +:+ (b +:+ ...))]. *)
Ltac str_simpl := repeat progress rewrite ?str_app_assoc, ?str_app_cons, ?str_app_nil_l.

(** ** Lists *)

Lemma Forall_exists_Forall2 {A B} (P : A -> B -> Prop) (xs : list A) :
  Forall (fun x => exists y, P x y) xs -> exists ys, Forall2 P xs ys.
Proof.
  induction 1 as [|x xs [y Hy] _ [ys Hys]]; [by exists []|]. exists (y :: ys). by constructor.
Qed.
