(* ===== verification/Js.v ===== *)
(** * Js: the JavaScript values the gateway reads, computes and returns

    [jsval] models the values that flow through [src/api/src/index.js]:
    the parsed request body [req.body], the [value] field destructured from
    it, the JSON objects passed to [res.json], the strings read from
    [process.env] and the arguments of [console.log]/[console.error].
    Numbers are IEEE-754 binary64 values ([spec_float] of the Standard
    Library, which has no primitive floats), BigInts are [Z].  The file
    also holds the two conversions the handlers rely on:
    [BigInt.prototype.toString] ([bigint_to_string]) and ECMAScript's
    StringToBigInt ([string_to_bigint]), with their round trip. *)

From S2P Require Import Prelude.
From Stdlib Require Import Ascii Floats.SpecFloat DecimalString DecimalZ.

(** ** Errors

    A thrown JS value in this program is always an [Error]; its class (or
    the ethers error [code]) and message are what handlers can observe. *)

Inductive error_kind :=
| TypeError                (** JS [TypeError] (destructuring undefined/null) *)
| SyntaxError              (** JS [SyntaxError] ([BigInt("abc")]) *)
| InvalidArgument          (** ethers [INVALID_ARGUMENT] (argument encoding) *)
| NetworkError             (** ethers [NETWORK_ERROR]/[SERVER_ERROR]/[TIMEOUT] *)
| CallException            (** ethers [CALL_EXCEPTION] (reverted transaction) *)
| TransactionReplaced      (** ethers [TRANSACTION_REPLACED] *)
| NonceExpired             (** ethers [NONCE_EXPIRED] (broadcast: nonce too low) *)
| ReplacementUnderpriced   (** ethers [REPLACEMENT_UNDERPRICED] (nonce taken) *)
| InsufficientFunds        (** ethers [INSUFFICIENT_FUNDS] (deployer cannot pay) *)
| HardhatError             (** Hardhat [HardhatError] ([HH700]: artifact not found) *)
| BadData                  (** ethers [BAD_DATA] (result bytes that do not decode) *)
| PlainError.              (** a JS [Error] ([@noble/curves]: private key out of range) *)

Record jserror := JsError { err_kind : error_kind; err_message : string }.

#[export] Instance error_kind_eq_dec : EqDecision error_kind.
Proof. solve_decision. Defined.
#[export] Instance jserror_eq_dec : EqDecision jserror.
Proof. solve_decision. Defined.

(** ** Values *)

#[local] Set Warnings "-register-all".

Inductive jsval :=
| JUndefined
| JNull
| JBool (b : bool)
| JNumber (x : spec_float)
| JString (s : string)
| JBigInt (z : Z)
| JArray (xs : list jsval)
| JObject (props : list (string * jsval))
| JErr (e : jserror).

(** An object literal's own properties, in source order.  A parsed JSON
    object has unique keys (JSON.parse keeps the last duplicate), so the
    first match is the property. *)
Fixpoint prop_lookup (k : string) (props : list (string * jsval)) : option jsval :=
  match props with
  | [] => None
  | (k', v) :: props' => if decide (k = k') then Some v else prop_lookup k props'
  end.

(** [obj[key] = value] (CreateDataProperty) on an object with string
    keys: an existing key keeps its place and takes the new value, a new
    key is added last. *)
Fixpoint obj_set {V} (o : list (string * V)) (k : string) (v : V) : list (string * V) :=
  match o with
  | [] => [(k, v)]
  | (k', v') :: o' => if decide (k' = k) then (k', v) :: o' else (k', v') :: obj_set o' k v
  end.

(** Property read [o.k]: [None] is the [TypeError] that reading a property
    of [undefined] or [null] throws; a missing property reads [undefined].
    Only own properties are modelled: the one key the code reads,
    ["value"], is not a property of any built-in prototype. *)
Definition js_get (o : jsval) (k : string) : option jsval :=
  match o with
  | JUndefined | JNull => None
  | JObject props => Some (default JUndefined (prop_lookup k props))
  | _ => Some JUndefined
  end.

(** The binary64 zero test used by truthiness. *)
Definition number_is_zero_or_nan (x : spec_float) : bool :=
  match x with
  | S754_zero _ | S754_nan => true
  | _ => false
  end.

(** ToBoolean: the test behind [!x] and [x || y]. *)
Definition js_truthy (v : jsval) : bool :=
  match v with
  | JUndefined | JNull => false
  | JBool b => b
  | JNumber x => negb (number_is_zero_or_nan x)
  | JString s => negb (bool_decide (s = ""))
  | JBigInt z => negb (Z.eqb z 0)
  | _ => true
  end.

(** [a || b] *)
Definition js_or (a b : jsval) : jsval := if js_truthy a then a else b.

(** [v === undefined] *)
Definition is_undefined (v : jsval) : bool :=
  match v with JUndefined => true | _ => false end.

(** ** Numbers

    A JS number is a binary64 value.  [number_of_Z] is the double nearest
    to an integer, ties to even: the value [JSON.parse] gives an integer
    literal and [Number(n)] gives a [bigint]. *)

Definition f64_prec : Z := 53.
Definition f64_emax : Z := 1024.

Definition number_of_Z (z : Z) : spec_float :=
  binary_normalize f64_prec f64_emax z 0 false.

(** [Number.isInteger(x) ? BigInt(x) : (none)]: the exact integer a
    finite integral double denotes. *)
Definition number_integer_value (x : spec_float) : option Z :=
  match x with
  | S754_zero _ => Some 0
  | S754_finite s m e =>
      if Z.leb 0 e then Some (cond_Zopp s (Z.pos m * 2 ^ e))
      else if Z.eqb (Z.pos m mod 2 ^ (- e)) 0
           then Some (cond_Zopp s (Z.pos m / 2 ^ (- e)))
           else None
  | _ => None
  end.

(** [Number.MAX_SAFE_INTEGER] *)
Definition max_safe_integer : Z := 2 ^ 53 - 1.

(** ** BigInt to string

    [BigInt.prototype.toString()] in radix 10: the decimal digits without
    leading zeros, with a ["-"] in front of a negative value. *)
Definition bigint_to_string (z : Z) : string :=
  NilEmpty.string_of_int (Z.to_int z).

(** ** String to BigInt (ECMAScript StringToBigInt, [BigInt(s)])

    Surrounding white space is removed (the ASCII white space and line
    terminators; the Unicode space separators are not modelled); the empty
    string is [0n]; a literal is a signed decimal integer or a [0x]/[0o]/
    [0b] integer with no sign; anything else is a [SyntaxError], here
    [None]. *)

Definition is_js_space (c : ascii) : bool :=
  let n := Ascii.nat_of_ascii c in
  (((9 <=? n) && (n <=? 13)) || (n =? 32))%nat.

Fixpoint trim_start (s : string) : string :=
  match s with
  | EmptyString => EmptyString
  | String c r => if is_js_space c then trim_start r else s
  end.

(** Trailing white space removed. *)
Fixpoint trim_end (s : string) : string :=
  match s with
  | EmptyString => EmptyString
  | String c r =>
      let r' := trim_end r in
      match r' with
      | EmptyString => if is_js_space c then EmptyString else String c EmptyString
      | _ => String c r'
      end
  end.

Definition js_trim (s : string) : string := trim_end (trim_start s).

(** The value of a digit character in radices up to 36. *)
Definition digit_value (c : ascii) : option Z :=
  let n := Z.of_nat (Ascii.nat_of_ascii c) in
  if (48 <=? n) && (n <=? 57) then Some (n - 48)
  else if (97 <=? n) && (n <=? 122) then Some (n - 87)
  else if (65 <=? n) && (n <=? 90) then Some (n - 55)
  else None.

Fixpoint digits_value (radix : Z) (s : string) (acc : Z) : option Z :=
  match s with
  | EmptyString => Some acc
  | String c r =>
      match digit_value c with
      | Some d => if d <? radix then digits_value radix r (acc * radix + d) else None
      | None => None
      end
  end.

(** A nonempty run of digits of the radix. *)
Definition radix_literal (radix : Z) (s : string) : option Z :=
  match s with
  | EmptyString => None
  | _ => digits_value radix s 0
  end.

Definition string_to_bigint (s : string) : option Z :=
  match js_trim s with
  | EmptyString => Some 0
  | String "0" (String c rest) =>
      if decide (c = "x" \/ c = "X") then radix_literal 16 rest
      else if decide (c = "o" \/ c = "O") then radix_literal 8 rest
      else if decide (c = "b" \/ c = "B") then radix_literal 2 rest
      else radix_literal 10 (String "0" (String c rest))
  | String "+" rest => radix_literal 10 rest
  | String "-" rest => Z.opp <$> radix_literal 10 rest
  | t => radix_literal 10 t
  end%char.

(** ** Lemmas on the conversions *)

Fixpoint all_chars (p : ascii -> bool) (s : string) : bool :=
  match s with
  | EmptyString => true
  | String c r => p c && all_chars p r
  end.

Definition is_decimal_char (c : ascii) : bool :=
  let n := Ascii.nat_of_ascii c in ((48 <=? n) && (n <=? 57))%nat.

Lemma all_chars_impl (p q : ascii -> bool) s :
  (forall c, p c = true -> q c = true) -> all_chars p s = true -> all_chars q s = true.
Proof.
  intros Hpq. induction s as [|c r IH]; simpl; [done|].
  intros [Hc Hr]%andb_prop. by rewrite Hpq, IH.
Qed.

Lemma all_chars_app p a b : all_chars p (a +:+ b) = all_chars p a && all_chars p b.
Proof. induction a as [|c a IH]; [done|]. rewrite str_app_cons. simpl. rewrite IH. by destruct (p c). Qed.

Lemma decimal_char_not_space c : is_decimal_char c = true -> negb (is_js_space c) = true.
Proof.
  unfold is_decimal_char, is_js_space. intros [H1 H2]%andb_prop.
  apply Nat.leb_le in H1, H2. apply negb_true_iff.
  apply orb_false_iff; split.
  - apply andb_false_iff; right. apply Nat.leb_gt. lia.
  - apply Nat.eqb_neq. lia.
Qed.

Lemma trim_start_id s : all_chars (fun c => negb (is_js_space c)) s = true -> trim_start s = s.
Proof.
  destruct s as [|c r]; simpl; [done|]. intros [Hc _]%andb_prop.
  apply negb_true_iff in Hc. by rewrite Hc.
Qed.

Lemma trim_end_id s : all_chars (fun c => negb (is_js_space c)) s = true -> trim_end s = s.
Proof.
  induction s as [|c r IH]; simpl; [done|]. intros [Hc Hr]%andb_prop.
  rewrite IH by done. apply negb_true_iff in Hc. destruct r; [by rewrite Hc|done].
Qed.

Lemma js_trim_id s : all_chars (fun c => negb (is_js_space c)) s = true -> js_trim s = s.
Proof. intros H. unfold js_trim. rewrite trim_start_id by done. by apply trim_end_id. Qed.

Lemma uint_string_decimal d : all_chars is_decimal_char (NilEmpty.string_of_uint d) = true.
Proof. induction d; simpl; auto. Qed.

Lemma js_trim_uint d : js_trim (NilEmpty.string_of_uint d) = NilEmpty.string_of_uint d.
Proof.
  apply js_trim_id. eapply all_chars_impl; [apply decimal_char_not_space|].
  apply uint_string_decimal.
Qed.


(** Evaluate the code points of the literal characters in the goal. *)
Ltac eval_char_codes :=
  repeat match goal with
  | |- context [Z.of_nat (Ascii.nat_of_ascii (Ascii.Ascii ?b0 ?b1 ?b2 ?b3 ?b4 ?b5 ?b6 ?b7))] =>
      let c := constr:(Ascii.Ascii b0 b1 b2 b3 b4 b5 b6 b7) in
      let v := eval vm_compute in (Z.of_nat (Ascii.nat_of_ascii c)) in
      change (Z.of_nat (Ascii.nat_of_ascii c)) with v
  end.

Lemma digits_value_uint_acc d (a : positive) :
  digits_value 10 (NilEmpty.string_of_uint d) (Z.pos a) = Some (Z.pos (Pos.of_uint_acc d a)).
Proof.
  revert a. induction d; intros a; simpl; [done| ..];
    rewrite <- IHd; f_equal; eval_char_codes; lia.
Qed.

Lemma digits_value_uint d :
  digits_value 10 (NilEmpty.string_of_uint d) 0 = Some (Z.of_uint d).
Proof.
  induction d; simpl; [done|done| ..]; apply digits_value_uint_acc.
Qed.

Lemma uint_string_nonempty u : u <> Decimal.Nil -> NilEmpty.string_of_uint u <> EmptyString.
Proof. destruct u; simpl; congruence. Qed.

Lemma radix_literal_uint u :
  u <> Decimal.Nil -> radix_literal 10 (NilEmpty.string_of_uint u) = Some (Z.of_uint u).
Proof.
  intros Hu. unfold radix_literal.
  destruct (NilEmpty.string_of_uint u) eqn:E; [by apply uint_string_nonempty in Hu|].
  rewrite <- E. apply digits_value_uint.
Qed.

(** A nonempty decimal digit string is read by [BigInt] as its value:
    none of the special prefixes ([0x], [+], [-]) can start it. *)
Lemma string_to_bigint_uint u :
  u <> Decimal.Nil -> string_to_bigint (NilEmpty.string_of_uint u) = Some (Z.of_uint u).
Proof.
  intros Hu. rewrite <- (radix_literal_uint u Hu). unfold string_to_bigint.
  rewrite js_trim_uint. destruct u as [|u|u|u|u|u|u|u|u|u|u]; [done|destruct u| ..]; reflexivity.
Qed.

Lemma of_uint_to_uint p : Z.of_uint (Pos.to_uint p) = Z.pos p.
Proof. exact (DecimalZ.of_to (Z.pos p)). Qed.

Lemma pos_to_uint_nonnil p : Pos.to_uint p <> Decimal.Nil.
Proof. intros E. pose proof (of_uint_to_uint p) as H. rewrite E in H. discriminate. Qed.

(** reading back the decimal string [BigInt.prototype.toString]
    prints gives the same integer. *)
Lemma string_to_bigint_to_string z : string_to_bigint (bigint_to_string z) = Some z.
Proof.
  destruct z as [|p|p]; [done| |].
  - unfold bigint_to_string. simpl. rewrite string_to_bigint_uint by apply pos_to_uint_nonnil.
    by rewrite of_uint_to_uint.
  - unfold bigint_to_string, string_to_bigint. simpl NilEmpty.string_of_int.
    rewrite js_trim_id.
    + simpl. rewrite radix_literal_uint by apply pos_to_uint_nonnil.
      simpl. by rewrite of_uint_to_uint.
    + simpl. eapply all_chars_impl; [apply decimal_char_not_space|apply uint_string_decimal].
Qed.

(** ** Objects *)

Lemma obj_set_keys {V} (o : list (string * V)) k v x : x ∈ (obj_set o k v).*1 <-> x ∈ o.*1 \/ x = k.
Proof.
  induction o as [|[k' v'] o IH]; simpl; [set_solver|]. case_decide; simpl; set_solver.
Qed.

Lemma obj_set_nodup {V} (o : list (string * V)) k v : NoDup o.*1 -> NoDup (obj_set o k v).*1.
Proof.
  induction o as [|[k' v'] o IH]; simpl; intros Hnd; [apply NoDup_singleton|].
  apply NoDup_cons in Hnd as [Hk Hnd]. case_decide; simpl; apply NoDup_cons; [subst; by split|].
  split; [rewrite obj_set_keys; naive_solver|auto].
Qed.

Lemma obj_set_new {V} (o : list (string * V)) k v : k ∉ o.*1 -> obj_set o k v = o ++ [(k, v)].
Proof.
  induction o as [|[k' v'] o IH]; simpl; [done|]. rewrite not_elem_of_cons. intros [Hk Ho].
  rewrite decide_False by congruence. by rewrite IH.
Qed.
