(* ===== verification/Task.v ===== *)
(** * Task: asynchronous code as finite trees of awaited calls

    An [async] function of the program is modelled as a [task E A]: a
    finite tree whose inner nodes are the awaited calls to the outside
    world (events [E X] answered with a [result X]) and the console
    writes, and whose leaves are a returned value or a thrown error.
    [bind] is sequencing after [await], [try_catch] is
    [try { ... } catch (err) { ... }].

    Tasks are given meaning by an answer relation of the world
    ([exec], in Section [Exec]): the nondeterministic semantics, in which
    every call may also fail.  A deterministic answer function gives an
    executable interpreter ([run]) and [run_exec] shows it is one of the
    behaviours [exec] allows. *)

From S2P Require Import Prelude Js.

(** ** The tree *)

Inductive result (X : Type) :=
| Ok (x : X)
| Err (e : jserror).
Arguments Ok {X} x.
Arguments Err {X} e.

(** [console.log(...)] and [console.error(...)] with their arguments. *)
Inductive console_line :=
| ConsoleLog (args : list jsval)
| ConsoleError (args : list jsval).

Inductive task (E : Type -> Type) (A : Type) : Type :=
| Ret (a : A)
| Throw (e : jserror)
| Await {X : Type} (ev : E X) (k : result X -> task E A)
| Log (l : console_line) (t : task E A).
Arguments Ret {E A} a.
Arguments Throw {E A} e.
Arguments Await {E A X} ev k.
Arguments Log {E A} l t.

Section Combinators.
Context {E : Type -> Type}.

Fixpoint bind {A B} (t : task E A) (f : A -> task E B) : task E B :=
  match t with
  | Ret a => f a
  | Throw e => Throw e
  | Await ev k => Await ev (fun r => bind (k r) f)
  | Log l t' => Log l (bind t' f)
  end.

(** [try { t } catch (err) { h(err) }] *)
Fixpoint try_catch {A} (t : task E A) (h : jserror -> task E A) : task E A :=
  match t with
  | Ret a => Ret a
  | Throw e => h e
  | Await ev k => Await ev (fun r => try_catch (k r) h)
  | Log l t' => Log l (try_catch t' h)
  end.

(** [await ev]: a rejected call throws its error. *)
Definition await {X} (ev : E X) : task E X :=
  Await ev (fun r => match r with Ok x => Ret x | Err e => Throw e end).
End Combinators.

(** [try { t } catch (err) { h }], as the source writes it. *)
Notation "'TRY' t 'CATCH' ( err ) h" := (try_catch t (fun err => h))
  (at level 10, err name, t at level 200, h at level 200) : web3_scope.
Open Scope web3_scope.

#[export] Instance task_ret {E} : MRet (task E) := fun A a => Ret a.
#[export] Instance task_bind {E} : MBind (task E) := fun A B f t => bind t f.

(** ** Meaning: executions against a world *)

Inductive outcome (A : Type) :=
| Returned (a : A)
| Threw (e : jserror).
Arguments Returned {A} a.
Arguments Threw {A} e.

Section Exec.
Context {E : Type -> Type} {W : Type}.

(** [answer w ev w' r]: the world in state [w] may answer the call [ev]
    with [r] and move to [w']. *)
Variable answer : W -> forall X, E X -> W -> result X -> Prop.

(** [exec w t w' o tr]: started in [w], task [t] may end in [w'] with
    outcome [o], having written the console lines [tr]. *)
Fixpoint exec {A} (w : W) (t : task E A) (w' : W) (o : outcome A)
    (tr : list console_line) : Prop :=
  match t with
  | Ret a => w' = w /\ o = Returned a /\ tr = []
  | Throw e => w' = w /\ o = Threw e /\ tr = []
  | Await ev k => exists w1 r, answer w _ ev w1 r /\ exec w1 (k r) w' o tr
  | Log l t' => exists tr', tr = l :: tr' /\ exec w t' w' o tr'
  end.

Lemma exec_bind {A B} (t : task E A) (f : A -> task E B) w w'' o tr :
  exec w (bind t f) w'' o tr <->
  (exists a w' tr1 tr2, exec w t w' (Returned a) tr1 /\ exec w' (f a) w'' o tr2 /\ tr = tr1 ++ tr2)
  \/ (exists e, exec w t w'' (Threw e) tr /\ o = Threw e).
Proof.
  revert w tr. induction t as [a|e|X ev k IH|l t IH]; intros w tr; simpl.
  - split; [intros H; left; by exists a, w, [], tr|].
    intros [(a' & w' & tr1 & tr2 & (-> & [=->] & ->) & Hf & ->)|(e & (_ & [=] & _) & _)]; done.
  - split; [intros (-> & -> & ->); right; by exists e|].
    intros [(a & w' & tr1 & tr2 & (_ & [=] & _) & _)|(e' & (-> & [=->] & ->) & ->)]; done.
  - split.
    + intros (w1 & r & Hans & Hk). apply IH in Hk as [(a & w' & tr1 & tr2 & H1 & H2 & ->)|(e & H1 & ->)].
      * left. exists a, w', tr1, tr2. eauto 10.
      * right. exists e. eauto 10.
    + intros [(a & w' & tr1 & tr2 & (w1 & r & Hans & H1) & H2 & ->)|(e & (w1 & r & Hans & H1) & ->)];
        exists w1, r; split; try done; apply IH; [left|right]; eauto 10.
  - split.
    + intros (tr' & -> & Ht). apply IH in Ht as [(a & w' & tr1 & tr2 & H1 & H2 & ->)|(e & H1 & ->)].
      * left. exists a, w', (l :: tr1), tr2. eauto 10.
      * right. exists e. eauto 10.
    + intros [(a & w' & tr1 & tr2 & (tr1' & -> & H1) & H2 & ->)|(e & (tr' & -> & H1) & ->)];
        [exists (tr1' ++ tr2)|exists tr']; split; try done; apply IH; [left|right]; eauto 10.
Qed.
End Exec.

Section ExecLemmas.
Context {E : Type -> Type} {W : Type}.
Variable answer : W -> forall X, E X -> W -> result X -> Prop.

Definition outcome_of {X} (r : result X) : outcome X :=
  match r with Ok x => Returned x | Err e => Threw e end.

Lemma exec_await {X} (ev : E X) w w' o tr :
  exec answer w (await ev) w' o tr <-> exists r, answer w X ev w' r /\ o = outcome_of r /\ tr = [].
Proof.
  simpl. split.
  - intros (w1 & [x|e] & Hans & -> & -> & ->); by eexists.
  - intros ([x|e] & Hans & -> & ->); eexists _, _; by split.
Qed.

(** [x ← await ev; k x]: the call either resolves and the task goes on,
    or rejects and its error is thrown at once. *)
Lemma exec_await_bind {X B} (ev : E X) (k : X -> task E B) w w' o tr :
  exec answer w (x ← await ev; k x) w' o tr <->
  (exists w1 x, answer w X ev w1 (Ok x) /\ exec answer w1 (k x) w' o tr)
  \/ (exists e, answer w X ev w' (Err e) /\ o = Threw e /\ tr = []).
Proof.
  simpl. split.
  - intros (w1 & [x|e] & Hans & H); simpl in H; [left; eauto|].
    destruct H as (-> & -> & ->). right. eauto.
  - intros [(w1 & x & Hans & H)|(e & Hans & -> & ->)]; eexists _, _; split; eauto.
    simpl. done.
Qed.

Lemma exec_try_catch {A} (t : task E A) (h : jserror -> task E A) w w'' o tr :
  exec answer w (try_catch t h) w'' o tr <->
  (exists a, exec answer w t w'' (Returned a) tr /\ o = Returned a)
  \/ (exists e w' tr1 tr2, exec answer w t w' (Threw e) tr1 /\ exec answer w' (h e) w'' o tr2
                         /\ tr = tr1 ++ tr2).
Proof.
  revert w tr. induction t as [a|e|X ev k IH|l t IH]; intros w tr; simpl.
  - split; [intros (-> & -> & ->); left; by exists a|].
    intros [(a' & (-> & [=->] & ->) & ->)|(e & w' & tr1 & tr2 & (_ & [=] & _) & _)]; done.
  - split; [intros H; right; by exists e, w, [], tr|].
    intros [(a & (_ & [=] & _) & _)|(e' & w' & tr1 & tr2 & (-> & [=->] & ->) & Hh & ->)]; done.
  - split.
    + intros (w1 & r & Hans & Hk). apply IH in Hk as [(a & H1 & ->)|(e & w' & tr1 & tr2 & H1 & H2 & ->)].
      * left. exists a. eauto 10.
      * right. exists e, w', tr1, tr2. eauto 10.
    + intros [(a & (w1 & r & Hans & H1) & ->)|(e & w' & tr1 & tr2 & (w1 & r & Hans & H1) & H2 & ->)];
        exists w1, r; split; try done; apply IH; [left|right]; eauto 10.
  - split.
    + intros (tr' & -> & Ht). apply IH in Ht as [(a & H1 & ->)|(e & w' & tr1 & tr2 & H1 & H2 & ->)].
      * left. exists a. eauto 10.
      * right. exists e, w', (l :: tr1), tr2. eauto 10.
    + intros [(a & (tr' & -> & H1) & ->)|(e & w' & tr1 & tr2 & (tr1' & -> & H1) & H2 & ->)];
        [exists tr'|exists (tr1' ++ tr2)]; split; try done; apply IH; [left|right]; eauto 10.
Qed.

(** The shape of every handler of the program: run [t], and on an
    exception log one line and answer a fixed value. *)
Lemma exec_catch_log_ret {A} (t : task E A) (line : jserror -> console_line) (fallback : A)
    w w' o tr :
  exec answer w (try_catch t (fun e => Log (line e) (Ret fallback))) w' o tr <->
  (exists a, exec answer w t w' (Returned a) tr /\ o = Returned a)
  \/ (exists e tr1, exec answer w t w' (Threw e) tr1 /\ tr = tr1 ++ [line e] /\ o = Returned fallback).
Proof.
  rewrite exec_try_catch. simpl. split.
  - intros; decompose_hyps; eauto 10.
  - intros [?|(e & tr1 & H1 & -> & ->)]; [by left|right].
    exists e, w', tr1, [line e]. eauto 10.
Qed.
End ExecLemmas.

(** ** Changing the world: a simulation of answer relations *)

Section Simulation.
Context {E : Type -> Type} {W1 W2 : Type}.
Variable answer1 : W1 -> forall X, E X -> W1 -> result X -> Prop.
Variable answer2 : W2 -> forall X, E X -> W2 -> result X -> Prop.
Variable f : W1 -> W2.
Hypothesis answer_sim :
  forall w X (ev : E X) w' r, answer1 w X ev w' r -> answer2 (f w) X ev (f w') r.

(** Every execution against [answer1] is one against [answer2], seen
    through [f]. *)
Lemma exec_simulation {A} (t : task E A) w w' o tr :
  exec answer1 w t w' o tr -> exec answer2 (f w) t (f w') o tr.
Proof.
  revert w tr. induction t as [a|e|X ev k IH|l t IH]; intros w tr; simpl.
  - by intros (-> & -> & ->).
  - by intros (-> & -> & ->).
  - intros (w1 & r & Ha & Hk). exists (f w1), r. eauto.
  - intros (tr' & -> & Ht). eauto.
Qed.
End Simulation.

(** ** Invariants of the world *)

Section Invariant.
Context {E : Type -> Type} {W : Type}.
Variable answer : W -> forall X, E X -> W -> result X -> Prop.
Variable I : W -> Prop.
Hypothesis answer_inv : forall w X (ev : E X) w' r, I w -> answer w X ev w' r -> I w'.

(** An invariant of every answer is an invariant of every task. *)
Lemma exec_invariant {A} (t : task E A) w w' o tr : I w -> exec answer w t w' o tr -> I w'.
Proof.
  revert w tr. induction t as [a|e|X ev k IH|l t IH]; intros w tr Hw; simpl.
  - by intros (-> & _).
  - by intros (-> & _).
  - intros (w1 & r & Ha & Hk). eauto.
  - intros (tr' & -> & Ht). eauto.
Qed.
End Invariant.

(** ** An executable interpreter *)

Section Run.
Context {E : Type -> Type} {W : Type}.

(** A deterministic world: each call gets exactly one answer. *)
Variable respond : W -> forall X, E X -> W * result X.

Fixpoint run {A} (w : W) (t : task E A) : W * outcome A * list console_line :=
  match t with
  | Ret a => (w, Returned a, [])
  | Throw e => (w, Threw e, [])
  | Await ev k => let '(w1, r) := respond w _ ev in run w1 (k r)
  | Log l t' => let '(w', o, tr) := run w t' in (w', o, l :: tr)
  end.

Lemma run_try_catch {A} (t : task E A) (h : jserror -> task E A) w :
  run w (try_catch t h) =
  match run w t with
  | (w', Returned a, tr) => (w', Returned a, tr)
  | (w', Threw e, tr) => let '(w'', o, tr') := run w' (h e) in (w'', o, tr ++ tr')
  end.
Proof.
  revert w. induction t as [a|e|X ev k IH|l t IH]; intros w; simpl.
  - done.
  - by destruct (run w (h e)) as [[? ?] ?].
  - destruct (respond w X ev) as [w1 r]. apply IH.
  - rewrite IH. destruct (run w t) as [[w' [a|e]] tr]; [done|].
    by destruct (run w' (h e)) as [[? ?] ?].
Qed.

Variable answer : W -> forall X, E X -> W -> result X -> Prop.
Hypothesis respond_answer : forall w X (ev : E X), answer w X ev (respond w X ev).1 (respond w X ev).2.

(** The interpreter's run is one of the executions the world allows. *)
Lemma run_exec {A} (t : task E A) w :
  exec answer w t (run w t).1.1 (run w t).1.2 (run w t).2.
Proof.
  revert w. induction t as [a|e|X ev k IH|l t IH]; intros w; simpl; try done.
  - pose proof (respond_answer w X ev) as Hr. destruct (respond w X ev) as [w1 r].
    exists w1, r. split; [done|apply IH].
  - specialize (IH w). destruct (run w t) as [[w' o] tr]. by exists tr.
Qed.
End Run.
