(* ===== verification/Json.v ===== *)
(** * Json: [JSON.stringify] and [JSON.parse] on the values of Js.v

    The gateway meets JSON twice: [express.json()] (line 7) runs
    [JSON.parse] on the request body before the handlers see [req.body],
    and [res.json(...)] (lines 41, 44, 54, 63-66) sends
    [JSON.stringify] of the object it is given.

    Strings are byte strings: the UTF-8 encoding of the JS string (the
    request body is UTF-8 text).  A [\uXXXX] escape is decoded to the
    UTF-8 bytes of its code point, a surrogate pair to the bytes of the
    pair's code point, and a lone surrogate to its three-byte
    generalised UTF-8 form.  [JSON.stringify] escapes the quote, the
    backslash and the control characters and copies every other byte;
    the escaping of lone surrogates (ES2019) is not modelled, as no
    string of the program holds one.

    - [json_stringify]: SerializeJSONProperty.  A BigInt throws a
      [TypeError]; [undefined] gives no text ([None]) at the top, is
      skipped as a property and is [null] in an array.  A number is
      printed by Number::toString: an integral value below [10^21] as its
      digits, [NaN] and the infinities as [null]; the other numbers'
      shortest round-trip digits are a Section variable
      ([fraction_to_string]), so every theorem holds for any printing of
      them.  An [Error] has no enumerable own property and prints [{}].
    - [json_parse]: the JSON grammar of ECMA-404 as [JSON.parse] reads
      it, by recursive descent with fuel ([parse_value], [parse_items],
      [parse_members], [parse_chars]).  A number denotes the decimal
      [M * 10^E] and is rounded once to the nearest double (ties to
      even), to an infinity above the range.  A repeated key keeps its
      first place and its last value ([obj_set]).  The key order of a
      parsed object is its text order: JS would list integer-like keys
      first, which only the order of [JSON.stringify]'s output could
      show, and the program never prints a parsed object. *)

From S2P Require Import Prelude Js Task.
From Stdlib Require Import Ascii Floats.SpecFloat DecimalString.
From Stdlib Require DecimalPos DecimalFacts.

Definition dq : ascii := "034"%char.
Definition backslash : ascii := "092"%char.

Definition str1 (c : ascii) : string := String c EmptyString.

(** ** [JSON.stringify] *)

Definition hex_lower (n : nat) : ascii := ascii_of_nat (if (n <? 10)%nat then 48 + n else 87 + n).

(** QuoteJSONString, one character. *)
Definition json_quote_char (c : ascii) : string :=
  let n := nat_of_ascii c in
  if (n =? 34)%nat then String backslash (str1 dq)
  else if (n =? 92)%nat then String backslash (str1 backslash)
  else if (n =? 8)%nat then String backslash "b"
  else if (n =? 12)%nat then String backslash "f"
  else if (n =? 10)%nat then String backslash "n"
  else if (n =? 13)%nat then String backslash "r"
  else if (n =? 9)%nat then String backslash "t"
  else if (n <? 32)%nat then String backslash ("u00" +:+ String (hex_lower (n / 16)) (str1 (hex_lower (n mod 16))))
  else str1 c.

Fixpoint json_quote_chars (s : string) : string :=
  match s with
  | EmptyString => EmptyString
  | String c r => json_quote_char c +:+ json_quote_chars r
  end.

Definition json_quote (s : string) : string := String dq (json_quote_chars s +:+ str1 dq).

Definition bigint_serialize_error : jserror := JsError TypeError "Do not know how to serialize a BigInt".

Section Stringify.
(** Number::toString of a finite double that is not an integer below
    [10^21]: the shortest digits that read back as it. *)
Variable fraction_to_string : spec_float -> string.

Definition number_to_string (x : spec_float) : string :=
  match x with
  | S754_nan => "NaN"
  | S754_infinity b => if b then "-Infinity" else "Infinity"
  | _ =>
      match number_integer_value x with
      | Some z => if Z.abs z <? 10 ^ 21 then bigint_to_string z else fraction_to_string x
      | None => fraction_to_string x
      end
  end.

Definition json_number (x : spec_float) : string :=
  match x with
  | S754_nan | S754_infinity _ => "null"
  | _ => number_to_string x
  end.

Definition json_array (parts : list string) : string := "[" +:+ String.concat "," parts +:+ "]".
Definition json_object (parts : list string) : string := "{" +:+ String.concat "," parts +:+ "}".
Definition json_member (k v : string) : string := json_quote k +:+ ":" +:+ v.

(** SerializeJSONProperty: [Ok None] is [undefined] (nothing to print). *)
Fixpoint json_stringify (v : jsval) : result (option string) :=
  match v with
  | JUndefined => Ok None
  | JNull => Ok (Some "null")
  | JBool b => Ok (Some (if b then "true" else "false"))
  | JNumber x => Ok (Some (json_number x))
  | JString s => Ok (Some (json_quote s))
  | JBigInt _ => Err bigint_serialize_error
  | JErr _ => Ok (Some "{}")
  | JArray xs =>
      match (fix go (xs : list jsval) : result (list string) :=
               match xs with
               | [] => Ok []
               | x :: xs' =>
                   match json_stringify x with
                   | Err e => Err e
                   | Ok o => match go xs' with Err e => Err e | Ok l => Ok (default "null" o :: l) end
                   end
               end) xs with
      | Ok parts => Ok (Some (json_array parts))
      | Err e => Err e
      end
  | JObject ps =>
      match (fix go (ps : list (string * jsval)) : result (list string) :=
               match ps with
               | [] => Ok []
               | (k, x) :: ps' =>
                   match json_stringify x with
                   | Err e => Err e
                   | Ok o =>
                       match go ps' with
                       | Err e => Err e
                       | Ok l => Ok (match o with Some t => json_member k t :: l | None => l end)
                       end
                   end
               end) ps with
      | Ok parts => Ok (Some (json_object parts))
      | Err e => Err e
      end
  end.
End Stringify.

(** ** [JSON.parse] *)

(** What a step of the parser gives: a value and the rest of the text,
    a syntax error, or no answer within the fuel. *)
Inductive parse_res (A : Type) := Parsed (a : A) (rest : string) | Rejected | OutOfFuel.
Arguments Parsed {A} a rest.
Arguments Rejected {A}.
Arguments OutOfFuel {A}.

Definition is_json_ws (c : ascii) : bool :=
  let n := nat_of_ascii c in ((n =? 32) || (n =? 9) || (n =? 10) || (n =? 13))%nat.

Fixpoint skip_ws (s : string) : string :=
  match s with
  | String c r => if is_json_ws c then skip_ws r else s
  | EmptyString => EmptyString
  end.

Definition is_digit (c : ascii) : bool := let n := nat_of_ascii c in ((48 <=? n) && (n <=? 57))%nat.

Fixpoint span_digits (s : string) : string * string :=
  match s with
  | String c r => if is_digit c then let '(d, r') := span_digits r in (String c d, r') else (EmptyString, s)
  | EmptyString => (EmptyString, EmptyString)
  end.

Definition hex_value (c : ascii) : option N :=
  let n := N_of_ascii c in
  if ((48 <=? n) && (n <=? 57))%N then Some (n - 48)%N
  else if ((97 <=? n) && (n <=? 102))%N then Some (n - 87)%N
  else if ((65 <=? n) && (n <=? 70))%N then Some (n - 55)%N
  else None.

(** Four hex digits: a UTF-16 code unit. *)
Definition hex4 (s : string) : option (N * string) :=
  match s with
  | String a (String b (String c (String d r))) =>
      match hex_value a, hex_value b, hex_value c, hex_value d with
      | Some a, Some b, Some c, Some d => Some (((a * 16 + b) * 16 + c) * 16 + d, r)%N
      | _, _, _, _ => None
      end
  | _ => None
  end.

Definition bytes (ns : list N) : string := fold_right (fun n s => String (ascii_of_N n) s) EmptyString ns.

(** The UTF-8 bytes of a code point (of a lone surrogate, its
    three-byte form). *)
Definition utf8_of_code (n : N) : string :=
  if (n <? 128)%N then bytes [n]
  else if (n <? 2048)%N then bytes [192 + n / 64; 128 + n mod 64]%N
  else if (n <? 65536)%N then bytes [224 + n / 4096; 128 + (n / 64) mod 64; 128 + n mod 64]%N
  else bytes [240 + n / 262144; 128 + (n / 4096) mod 64; 128 + (n / 64) mod 64; 128 + n mod 64]%N.

Definition is_high_surrogate (u : N) : bool := ((55296 <=? u) && (u <=? 56319))%N.
Definition is_low_surrogate (u : N) : bool := ((56320 <=? u) && (u <=? 57343))%N.

Definition escape_char (e : ascii) : option ascii :=
  let n := nat_of_ascii e in
  if (n =? 34)%nat then Some dq
  else if (n =? 92)%nat then Some backslash
  else if (n =? 47)%nat then Some "/"%char
  else if (n =? 98)%nat then Some "008"%char
  else if (n =? 102)%nat then Some "012"%char
  else if (n =? 110)%nat then Some "010"%char
  else if (n =? 114)%nat then Some "013"%char
  else if (n =? 116)%nat then Some "009"%char
  else None.

Definition prepend (p : string) (r : parse_res string) : parse_res string :=
  match r with Parsed s rest => Parsed (p +:+ s) rest | Rejected => Rejected | OutOfFuel => OutOfFuel end.

(** The characters of a string literal after its opening quote, up to
    and including the closing quote. *)
Fixpoint parse_chars (fuel : nat) (s : string) : parse_res string :=
  match fuel with
  | O => OutOfFuel
  | S f =>
      match s with
      | EmptyString => Rejected
      | String c r =>
          let n := nat_of_ascii c in
          if (n =? 34)%nat then Parsed EmptyString r
          else if (n <? 32)%nat then Rejected
          else if (n =? 92)%nat then
            match r with
            | EmptyString => Rejected
            | String e r' =>
                match escape_char e with
                | Some c' => prepend (str1 c') (parse_chars f r')
                | None =>
                    if decide (e = "u"%char) then
                      match hex4 r' with
                      | None => Rejected
                      | Some (u, r'') =>
                          let lone := prepend (utf8_of_code u) (parse_chars f r'') in
                          if is_high_surrogate u then
                            match r'' with
                            | String b (String v r3) =>
                                if decide (b = backslash /\ v = "u"%char) then
                                  match hex4 r3 with
                                  | Some (u2, r4) =>
                                      if is_low_surrogate u2
                                      then prepend (utf8_of_code (65536 + (u - 55296) * 1024 + (u2 - 56320))%N)
                                             (parse_chars f r4)
                                      else lone
                                  | None => lone
                                  end
                                else lone
                            | _ => lone
                            end
                          else lone
                      end
                    else Rejected
                end
            end
          else prepend (str1 c) (parse_chars f r)
      end
  end.

(** The double a JSON number literal denotes: [(-1)^neg * M * 10^E],
    rounded once to nearest, ties to even. *)
Definition number_of_decimal (neg : bool) (M E : Z) : spec_float :=
  if M =? 0 then S754_zero neg
  else if 0 <=? E then binary_normalize f64_prec f64_emax (cond_Zopp neg (M * 10 ^ E)) 0 neg
  else SFdiv f64_prec f64_emax (S754_finite neg (Z.to_pos M) 0) (S754_finite false (Z.to_pos (10 ^ (- E))) 0).

Definition decimal_value (s : string) : Z := default 0 (digits_value 10 s 0).

(** The pieces of a number literal
    [-? (0 | [1-9][0-9]* ) (. [0-9]+)? ([eE] [+-]? [0-9]+)?]. *)
Definition take_sign (s : string) : bool * string :=
  match s with
  | String c r => if decide (c = "-"%char) then (true, r) else (false, s)
  | EmptyString => (false, s)
  end.

(** A leading zero is the whole integer part. *)
Definition take_int (s : string) : string * string :=
  match s with
  | String c r => if decide (c = "0"%char) then (str1 c, r) else span_digits s
  | EmptyString => (EmptyString, s)
  end.

Definition take_frac (s : string) : option (string * string) :=
  match s with
  | String c r =>
      if decide (c = "."%char) then
        let '(fp, r') := span_digits r in if decide (fp = EmptyString) then None else Some (fp, r')
      else Some (EmptyString, s)
  | EmptyString => Some (EmptyString, s)
  end.

Definition take_exp_sign (s : string) : bool * string :=
  match s with
  | String d r =>
      if decide (d = "-"%char) then (true, r) else if decide (d = "+"%char) then (false, r) else (false, s)
  | EmptyString => (false, s)
  end.

Definition take_exp (s : string) : option (Z * string) :=
  match s with
  | String c r =>
      if decide (c = "e"%char \/ c = "E"%char) then
        let '(eneg, r1) := take_exp_sign r in
        let '(ed, r2) := span_digits r1 in
        if decide (ed = EmptyString) then None
        else Some (if eneg then - decimal_value ed else decimal_value ed, r2)
      else Some (0, s)
  | EmptyString => Some (0, s)
  end.

Definition parse_number (s : string) : parse_res jsval :=
  let '(neg, s1) := take_sign s in
  let '(ip, s2) := take_int s1 in
  if decide (ip = EmptyString) then Rejected else
  match take_frac s2 with
  | None => Rejected
  | Some (fp, s3) =>
      match take_exp s3 with
      | None => Rejected
      | Some (e, s4) =>
          Parsed (JNumber (number_of_decimal neg (decimal_value (ip +:+ fp)) (e - Z.of_nat (String.length fp)))) s4
      end
  end.

Fixpoint strip_prefix (p s : string) : option string :=
  match p, s with
  | EmptyString, _ => Some s
  | String a p', String b s' => if decide (a = b) then strip_prefix p' s' else None
  | _, _ => None
  end.

Definition parse_literal (word : string) (v : jsval) (s : string) : parse_res jsval :=
  match strip_prefix word s with Some r => Parsed v r | None => Rejected end.

(** The token [c] after optional white space, and the text after it. *)
Definition after (c : ascii) (s : string) : option string :=
  match skip_ws s with
  | String d r => if decide (d = c) then Some r else None
  | EmptyString => None
  end.

(** A value, after optional white space; the elements of an array after
    its first element; the members of an object from a key on. *)
Fixpoint parse_value (fuel : nat) (s : string) : parse_res jsval :=
  match fuel with
  | O => OutOfFuel
  | S f =>
      match skip_ws s with
      | EmptyString => Rejected
      | String c r =>
          if decide (c = "{"%char) then
            match after "}"%char r with
            | Some r' => Parsed (JObject []) r'
            | None => parse_members f r []
            end
          else if decide (c = "["%char) then
            match after "]"%char r with
            | Some r' => Parsed (JArray []) r'
            | None => match parse_value f r with
                      | Parsed v r' => parse_items f r' [v]
                      | Rejected => Rejected
                      | OutOfFuel => OutOfFuel
                      end
            end
          else if decide (c = dq) then
            match parse_chars f r with
            | Parsed str r' => Parsed (JString str) r'
            | Rejected => Rejected
            | OutOfFuel => OutOfFuel
            end
          else if decide (c = "t"%char) then parse_literal "rue" (JBool true) r
          else if decide (c = "f"%char) then parse_literal "alse" (JBool false) r
          else if decide (c = "n"%char) then parse_literal "ull" JNull r
          else if bool_decide (c = "-"%char) || is_digit c then parse_number (String c r)
          else Rejected
      end
  end
with parse_items (fuel : nat) (s : string) (acc : list jsval) : parse_res jsval :=
  match fuel with
  | O => OutOfFuel
  | S f =>
      match after ","%char s with
      | Some r =>
          match parse_value f r with
          | Parsed v r' => parse_items f r' (acc ++ [v])
          | Rejected => Rejected
          | OutOfFuel => OutOfFuel
          end
      | None => match after "]"%char s with Some r => Parsed (JArray acc) r | None => Rejected end
      end
  end
with parse_members (fuel : nat) (s : string) (acc : list (string * jsval)) : parse_res jsval :=
  match fuel with
  | O => OutOfFuel
  | S f =>
      match after dq s with
      | None => Rejected
      | Some r =>
          match parse_chars f r with
          | Parsed k r1 =>
              match after ":"%char r1 with
              | None => Rejected
              | Some r2 =>
                  match parse_value f r2 with
                  | Parsed v r3 =>
                      match after ","%char r3 with
                      | Some r4 => parse_members f r4 (obj_set acc k v)
                      | None =>
                          match after "}"%char r3 with
                          | Some r4 => Parsed (JObject (obj_set acc k v)) r4
                          | None => Rejected
                          end
                      end
                  | Rejected => Rejected
                  | OutOfFuel => OutOfFuel
                  end
              end
          | Rejected => Rejected
          | OutOfFuel => OutOfFuel
          end
      end
  end.

(** [JSON.parse(text)]: one value, white space around it, nothing else;
    [None] is the [SyntaxError] it throws. *)
Definition json_parse (text : string) : option jsval :=
  match parse_value (S (String.length text)) text with
  | Parsed v rest => if decide (skip_ws rest = EmptyString) then Some v else None
  | _ => None
  end.

(** ** The parser consumes its input and terminates *)

(** A result that is an answer, whose rest is shorter than [s]. *)
Definition ok_res {A} (s : string) (res : parse_res A) : Prop :=
  match res with Parsed _ r => String.length r < String.length s | Rejected => True | OutOfFuel => False end%nat.

Lemma ok_res_weaken {A} (res : parse_res A) r s :
  ok_res r res -> (String.length r <= String.length s)%nat -> ok_res s res.
Proof. destruct res; simpl; lia. Qed.

Lemma ok_res_prepend p res r s :
  ok_res r res -> (String.length r <= String.length s)%nat -> ok_res s (prepend p res).
Proof. destruct res; simpl; lia. Qed.

Lemma skip_ws_length s : (String.length (skip_ws s) <= String.length s)%nat.
Proof. induction s as [|c r IH]; simpl; [lia|]. destruct (is_json_ws c); simpl; lia. Qed.

Lemma span_digits_length s : (String.length (span_digits s).2 <= String.length s)%nat.
Proof.
  induction s as [|c r IH]; simpl; [lia|]. destruct (is_digit c); [|simpl; lia].
  destruct (span_digits r) as [d r']. simpl in *. lia.
Qed.

Lemma span_digits_nonempty s :
  (span_digits s).1 <> EmptyString -> (String.length (span_digits s).2 < String.length s)%nat.
Proof.
  destruct s as [|c r]; simpl; [done|]. destruct (is_digit c); [|done].
  pose proof (span_digits_length r). destruct (span_digits r) as [d r']. simpl in *. lia.
Qed.

Lemma strip_prefix_length p s r :
  strip_prefix p s = Some r -> (String.length r + String.length p = String.length s)%nat.
Proof.
  revert s. induction p as [|a p IH]; intros s; simpl.
  - intros. simplify_eq. simpl. lia.
  - destruct s as [|b s]; [done|]. case_decide; [|done]. intros Hr%IH. simpl. lia.
Qed.

Lemma hex4_length s u r : hex4 s = Some (u, r) -> (String.length r + 4 = String.length s)%nat.
Proof.
  destruct s as [|a [|b [|c [|d r']]]]; simpl; try done.
  destruct (hex_value a), (hex_value b), (hex_value c), (hex_value d); intros; simplify_eq; simpl; lia.
Qed.

Lemma take_sign_length s : (String.length (take_sign s).2 <= String.length s)%nat.
Proof. destruct s as [|c r]; simpl; [lia|]. case_decide; simpl; lia. Qed.

Lemma take_int_length s :
  (take_int s).1 <> EmptyString -> (String.length (take_int s).2 < String.length s)%nat.
Proof. destruct s as [|c r]; simpl; [done|]. case_decide; [simpl; lia|]. apply (span_digits_nonempty (String c r)). Qed.

Lemma take_frac_length s fp r : take_frac s = Some (fp, r) -> (String.length r <= String.length s)%nat.
Proof.
  destruct s as [|c s]; simpl; [by intros [= _ <-]|]. case_decide; [|by intros [= _ <-]].
  pose proof (span_digits_length s). destruct (span_digits s). case_decide; [done|]. intros [= _ <-]. simpl in *. lia.
Qed.

Lemma take_exp_sign_length s : (String.length (take_exp_sign s).2 <= String.length s)%nat.
Proof. destruct s as [|d r]; simpl; [lia|]. repeat case_decide; simpl; lia. Qed.

Lemma take_exp_length s e r : take_exp s = Some (e, r) -> (String.length r <= String.length s)%nat.
Proof.
  destruct s as [|c s]; simpl; [by intros [= _ <-]|]. case_decide; [|by intros [= _ <-]].
  pose proof (take_exp_sign_length s). destruct (take_exp_sign s) as [b r1].
  pose proof (span_digits_length r1). destruct (span_digits r1). case_decide; [done|].
  intros [= _ <-]. simpl in *. lia.
Qed.

Lemma parse_number_ok s : ok_res s (parse_number s).
Proof.
  unfold parse_number. pose proof (take_sign_length s). destruct (take_sign s) as [neg s1].
  pose proof (take_int_length s1). destruct (take_int s1) as [ip s2]. simpl in *.
  case_decide as Hip; [done|].
  destruct (take_frac s2) as [[fp s3]|] eqn:E3; [|done]. apply take_frac_length in E3.
  destruct (take_exp s3) as [[e s4]|] eqn:E4; [|done]. apply take_exp_length in E4.
  simpl. specialize (H0 Hip). lia.
Qed.

Lemma parse_chars_ok n s : (String.length s < n)%nat -> ok_res s (parse_chars n s).
Proof.
  revert s. induction n as [|f IH]; intros s Hs; [simpl in Hs; lia|].
  destruct s as [|c r]; [done|]. simpl in Hs |- *.
  repeat (case_decide || case_match); simplify_eq/=; try done; try lia;
    repeat match goal with H : hex4 _ = Some (_, _) |- _ => apply hex4_length in H end;
    (eapply ok_res_prepend; [apply IH|]); simpl in *; lia.
Qed.

Lemma after_length c s r : after c s = Some r -> (String.length r < String.length s)%nat.
Proof.
  unfold after. pose proof (skip_ws_length s). destruct (skip_ws s) as [|d r']; [done|].
  case_decide; [|done]. intros [= <-]. simpl in *. lia.
Qed.

Lemma parse_literal_ok w v s s' :
  (String.length s < String.length s')%nat -> ok_res s' (parse_literal w v s).
Proof.
  unfold parse_literal. destruct (strip_prefix w s) eqn:E; [|done].
  apply strip_prefix_length in E. simpl. lia.
Qed.

(** A continuation run on the rest of an answer, with fuel to spare,
    answers with a rest shorter than the input. *)
Lemma ok_res_bind {A B} (res : parse_res A) (k : A -> string -> parse_res B) r s :
  ok_res r res -> (String.length r <= String.length s)%nat ->
  (forall a r', (String.length r' < String.length r)%nat -> ok_res r (k a r')) ->
  ok_res s (match res with Parsed a r' => k a r' | Rejected => Rejected | OutOfFuel => OutOfFuel end).
Proof. destruct res as [a r'| |]; simpl; [|done|done]. intros Hr Hle Hk. eapply ok_res_weaken; [apply Hk|]; lia. Qed.

(** Given more fuel than characters, each function answers, with a rest
    shorter than its input. *)
Lemma parse_ok n :
  (forall s, (String.length s < n)%nat -> ok_res s (parse_value n s)) /\
  (forall s acc, (String.length s < n)%nat -> ok_res s (parse_items n s acc)) /\
  (forall s acc, (String.length s < n)%nat -> ok_res s (parse_members n s acc)).
Proof.
  induction n as [|f (IHv & IHi & IHm)]; [split_and!; intros; simpl in *; lia|].
  split_and!.
  - intros s Hs. simpl. pose proof (skip_ws_length s) as Lw.
    destruct (skip_ws s) as [|c r] eqn:Ews; [done|]. simpl in Lw.
    case_decide; [|case_decide; [|case_decide]].
    + destruct (after "}"%char r) as [r'|] eqn:Ea; [apply after_length in Ea; simpl; lia|].
      eapply ok_res_weaken; [apply IHm; lia|lia].
    + destruct (after "]"%char r) eqn:Ea; [apply after_length in Ea; simpl; lia|].
      eapply ok_res_bind; [apply IHv; lia|lia|]. intros v r' Hr'. eapply ok_res_weaken; [apply IHi|]; lia.
    + eapply ok_res_bind; [apply parse_chars_ok; lia|lia|]. simpl. lia.
    + repeat (case_decide; [apply parse_literal_ok; simpl; lia|]).
      destruct (_ || _); [|done]. eapply ok_res_weaken; [apply parse_number_ok|simpl; lia].
  - intros s acc Hs. simpl. destruct (after ","%char s) as [r|] eqn:Ea.
    + apply after_length in Ea. eapply ok_res_bind; [apply IHv; lia|lia|]. intros v r' Hr'.
      eapply ok_res_weaken; [apply IHi|]; lia.
    + destruct (after "]"%char s) eqn:Eb; [apply after_length in Eb; simpl; lia|done].
  - intros s acc Hs. simpl. destruct (after dq s) as [r|] eqn:Ea; [|done]. apply after_length in Ea.
    eapply ok_res_bind; [apply parse_chars_ok; lia|lia|]. intros k r1 Hr1.
    destruct (after ":"%char r1) as [r2|] eqn:Eb; [|done]. apply after_length in Eb.
    eapply ok_res_weaken; [|apply Nat.lt_le_incl, Hr1].
    eapply ok_res_bind; [apply IHv; lia|lia|]. intros v r3 Hr3.
    destruct (after ","%char r3) as [r4|] eqn:Ec.
    + apply after_length in Ec. eapply ok_res_weaken; [apply IHm|]; lia.
    + destruct (after "}"%char r3) eqn:Ed; [apply after_length in Ed; simpl; lia|done].
Qed.

(** ** More fuel gives the same answer *)

(** [r1] is [r2], or ran out of fuel. *)
Definition approx {A} (r1 r2 : parse_res A) : Prop := r1 = OutOfFuel \/ r1 = r2.

Lemma approx_refl {A} (r : parse_res A) : approx r r.
Proof. by right. Qed.

Lemma approx_prepend p r1 r2 : approx r1 r2 -> approx (prepend p r1) (prepend p r2).
Proof. by intros [->| ->]; [left|right]. Qed.

Lemma approx_bind {A B} (r1 r2 : parse_res A) (k1 k2 : A -> string -> parse_res B) :
  approx r1 r2 -> (forall a r, approx (k1 a r) (k2 a r)) ->
  approx (match r1 with Parsed a r => k1 a r | Rejected => Rejected | OutOfFuel => OutOfFuel end)
         (match r2 with Parsed a r => k2 a r | Rejected => Rejected | OutOfFuel => OutOfFuel end).
Proof. intros [->| ->] Hk; [by left|]. destruct r2; [apply Hk|by right|by left]. Qed.

Lemma parse_chars_mono n m s : (n <= m)%nat -> approx (parse_chars n s) (parse_chars m s).
Proof.
  revert m s. induction n as [|f IH]; intros m s Hle; [by left|]. destruct m as [|m]; [lia|].
  destruct s as [|c r]; [by right|]. cbn -[prepend utf8_of_code].
  repeat (case_decide || case_match); try apply approx_refl; apply approx_prepend, IH; lia.
Qed.

Lemma parse_mono n :
  (forall m s, (n <= m)%nat -> approx (parse_value n s) (parse_value m s)) /\
  (forall m s acc, (n <= m)%nat -> approx (parse_items n s acc) (parse_items m s acc)) /\
  (forall m s acc, (n <= m)%nat -> approx (parse_members n s acc) (parse_members m s acc)).
Proof.
  induction n as [|f (IHv & IHi & IHm)]; [split_and!; intros; by left|].
  split_and!; intros [|m] s; try (intros; lia); [|intros acc|intros acc]; intros Hle; simpl.
  - destruct (skip_ws s) as [|c r]; [by right|].
    repeat case_decide; try destruct (after _ r); try destruct (_ || _); try apply approx_refl;
      try (apply IHm; lia).
    + apply approx_bind; [apply IHv; lia|]. intros. apply IHi. lia.
    + apply approx_bind; [apply parse_chars_mono; lia|]. intros. apply approx_refl.
  - destruct (after ","%char s); [|apply approx_refl].
    apply approx_bind; [apply IHv; lia|]. intros. apply IHi. lia.
  - destruct (after dq s); [|apply approx_refl].
    apply approx_bind; [apply parse_chars_mono; lia|]. intros k r1.
    destruct (after ":"%char r1); [|apply approx_refl].
    apply approx_bind; [apply IHv; lia|]. intros v r3.
    destruct (after ","%char r3); [apply IHm; lia|apply approx_refl].
Qed.

(** A parse that answers keeps its answer with more fuel. *)
Lemma parse_value_more n m s v r : parse_value n s = Parsed v r -> (n <= m)%nat -> parse_value m s = Parsed v r.
Proof. intros Hn Hle. destruct (proj1 (parse_mono n) m s Hle) as [H|H]; congruence. Qed.

Lemma parse_items_more n m s acc v r :
  parse_items n s acc = Parsed v r -> (n <= m)%nat -> parse_items m s acc = Parsed v r.
Proof. intros Hn Hle. destruct (proj1 (proj2 (parse_mono n)) m s acc Hle) as [H|H]; congruence. Qed.

Lemma parse_members_more n m s acc v r :
  parse_members n s acc = Parsed v r -> (n <= m)%nat -> parse_members m s acc = Parsed v r.
Proof. intros Hn Hle. destruct (proj2 (proj2 (parse_mono n)) m s acc Hle) as [H|H]; congruence. Qed.

(** ** [JSON.parse] reads back what [JSON.stringify] prints *)

Lemma parse_chars_quote_char c f s :
  parse_chars (S f) (json_quote_char c +:+ s) = prepend (str1 c) (parse_chars f s).
Proof. destruct c as [[] [] [] [] [] [] [] []]; reflexivity. Qed.

Lemma parse_chars_quote s f rest :
  (String.length s < f)%nat -> parse_chars f (json_quote_chars s +:+ String dq rest) = Parsed s rest.
Proof.
  revert f. induction s as [|c s IH]; intros [|f] Hf; simpl in Hf; try lia; [done|].
  change (json_quote_chars (String c s)) with (json_quote_char c +:+ json_quote_chars s).
  rewrite str_app_assoc, parse_chars_quote_char, IH by lia. done.
Qed.

(** What may follow a value in the text [JSON.stringify] prints. *)
Definition delimited (rest : string) : Prop :=
  match rest with
  | EmptyString => True
  | String c _ => c = ","%char \/ c = "]"%char \/ c = "}"%char
  end.

(** The numbers [JSON.stringify] prints as digits that read back as the
    same double: the integral doubles below [10^21], but not [-0]. *)
Definition json_number_ok (x : spec_float) : Prop :=
  exists z, number_integer_value x = Some z /\ Z.abs z < 10 ^ 21 /\ number_of_Z z = x.

(** The decimal digits of a positive number do not start with [0]. *)
Lemma pos_digits_head p :
  exists c s, NilEmpty.string_of_uint (Pos.to_uint p) = String c s /\ c <> "0"%char /\ is_digit c = true.
Proof.
  assert (Hn : Pos.to_uint p = Decimal.unorm (Pos.to_uint p)).
  { rewrite <- DecimalPos.Unsigned.to_of, DecimalPos.Unsigned.of_to. reflexivity. }
  destruct (Pos.to_uint p) as [|d|d|d|d|d|d|d|d|d|d] eqn:E;
    try (eexists _, _; split; [reflexivity|split; [done|reflexivity]]).
  - by destruct (DecimalPos.Unsigned.to_uint_nonnil p).
  - exfalso. unfold Decimal.unorm in Hn. simpl in Hn. pose proof (DecimalFacts.nb_digits_nzhead d) as Hl.
    destruct (Decimal.nzhead d) eqn:Ez;
      [injection Hn as ->; by apply (DecimalPos.Unsigned.to_uint_nonzero p)|..];
      rewrite <- Hn in Hl; simpl in Hl; lia.
Qed.

Lemma delimited_not_digit c r : delimited (String c r) -> is_digit c = false.
Proof. intros [-> | [-> | ->]]; reflexivity. Qed.

Lemma span_digits_uint d rest :
  delimited rest -> span_digits (NilEmpty.string_of_uint d +:+ rest) = (NilEmpty.string_of_uint d, rest).
Proof.
  intros Hr. induction d; try (cbn [NilEmpty.string_of_uint]; rewrite str_app_cons; cbn [span_digits];
    rewrite IHd; reflexivity).
  rewrite str_app_nil_l. destruct rest as [|c r]; [done|]. simpl. by rewrite (delimited_not_digit c r Hr).
Qed.

Lemma take_frac_delimited rest : delimited rest -> take_frac rest = Some (EmptyString, rest).
Proof. destruct rest as [|c r]; [done|]. intros [-> | [-> | ->]]; reflexivity. Qed.

Lemma take_exp_delimited rest : delimited rest -> take_exp rest = Some (0, rest).
Proof. destruct rest as [|c r]; [done|]. intros [-> | [-> | ->]]; reflexivity. Qed.

Lemma decimal_value_pos p : decimal_value (NilEmpty.string_of_uint (Pos.to_uint p)) = Z.pos p.
Proof. unfold decimal_value. by rewrite digits_value_uint, of_uint_to_uint. Qed.

(** The digits of a positive number, read as a JSON number with sign
    [neg]. *)
Lemma parse_number_pos (neg : bool) p rest :
  delimited rest ->
  parse_number ((if neg then str1 "-"%char else EmptyString) +:+ NilEmpty.string_of_uint (Pos.to_uint p) +:+ rest)
  = Parsed (JNumber (number_of_Z (cond_Zopp neg (Z.pos p)))) rest.
Proof.
  intros Hr. destruct (pos_digits_head p) as (c & s & Hs & Hc0 & Hd).
  assert (Hsign : take_sign ((if neg then str1 "-"%char else EmptyString) +:+ NilEmpty.string_of_uint (Pos.to_uint p) +:+ rest)
                  = (neg, NilEmpty.string_of_uint (Pos.to_uint p) +:+ rest)).
  { rewrite Hs. destruct neg; [reflexivity|]. simpl. rewrite decide_False; [done|].
    intros ->. discriminate Hd. }
  assert (Hint : take_int (NilEmpty.string_of_uint (Pos.to_uint p) +:+ rest)
                 = (NilEmpty.string_of_uint (Pos.to_uint p), rest)).
  { rewrite <- span_digits_uint by done. rewrite Hs. simpl. by rewrite decide_False. }
  unfold parse_number. rewrite Hsign, Hint, decide_False by (by rewrite Hs).
  rewrite take_frac_delimited, take_exp_delimited by done.
  rewrite str_app_nil_r, decimal_value_pos. unfold number_of_decimal, number_of_Z. simpl.
  replace (Z.pos p * 10 ^ (0 - Z.of_nat 0)) with (Z.pos p) by (simpl; lia).
  destruct neg; reflexivity.
Qed.

Lemma parse_number_Z z rest :
  delimited rest -> parse_number (bigint_to_string z +:+ rest) = Parsed (JNumber (number_of_Z z)) rest.
Proof.
  intros Hr. destruct z as [|p|p].
  - change (bigint_to_string 0 +:+ rest) with (String "0"%char rest).
    assert (H1 : take_sign (String "0"%char rest) = (false, String "0"%char rest)) by reflexivity.
    assert (H2 : take_int (String "0"%char rest) = (str1 "0"%char, rest)) by reflexivity.
    unfold parse_number. rewrite H1, H2, decide_False by done.
    rewrite take_frac_delimited, take_exp_delimited by done. reflexivity.
  - exact (parse_number_pos false p rest Hr).
  - exact (parse_number_pos true p rest Hr).
Qed.

Lemma json_number_digits fts x :
  json_number_ok x -> exists z, json_number fts x = bigint_to_string z /\ number_of_Z z = x.
Proof.
  intros (z & Hz & Hb & Hx). exists z. split; [|done].
  destruct x as [s|s|  |s m e]; try discriminate Hz; unfold json_number, number_to_string;
    rewrite Hz, (proj2 (Z.ltb_lt _ _) Hb); reflexivity.
Qed.

(** The values [JSON.parse] gives back from [JSON.stringify]'s text:
    no [undefined] (dropped or turned into [null]), BigInt or [Error],
    numbers that print as digits and read back, objects without
    repeated keys. *)
Fixpoint json_value (v : jsval) : Prop :=
  match v with
  | JNull | JBool _ | JString _ => True
  | JNumber x => json_number_ok x
  | JArray xs => (fix go (xs : list jsval) : Prop :=
                    match xs with [] => True | x :: xs' => json_value x /\ go xs' end) xs
  | JObject ps =>
      NoDup ps.*1 /\
      (fix go (ps : list (string * jsval)) : Prop :=
         match ps with [] => True | (_, x) :: ps' => json_value x /\ go ps' end) ps
  | _ => False
  end.

(** Induction on values, with the hypothesis for every element of an
    array and every property of an object. *)
Lemma jsval_nested_ind (P : jsval -> Prop) :
  P JUndefined -> P JNull -> (forall b, P (JBool b)) -> (forall x, P (JNumber x)) ->
  (forall s, P (JString s)) -> (forall z, P (JBigInt z)) ->
  (forall xs, Forall P xs -> P (JArray xs)) ->
  (forall ps, Forall (fun kv => P kv.2) ps -> P (JObject ps)) ->
  (forall e, P (JErr e)) -> forall v, P v.
Proof.
  intros Hu Hn Hb Hx Hs Hz Ha Ho He. fix IH 1.
  intros [| |b|x|s|z|xs|ps|e]; [exact Hu|exact Hn|exact (Hb b)|exact (Hx x)|exact (Hs s)|exact (Hz z)| | |exact (He e)].
  - apply Ha. induction xs as [|x xs IHxs]; constructor; [apply IH|exact IHxs].
  - apply Ho. induction ps as [|[k x] ps IHps]; constructor; [apply IH|exact IHps].
Qed.

(** [t] is the text of [v]: followed by any delimiter, it parses as [v]. *)
Definition parses (t : string) (v : jsval) : Prop :=
  forall rest, delimited rest -> exists n, parse_value n (t +:+ rest) = Parsed v rest.

(** The text of a value starts with a character that is neither white
    space nor a closing bracket. *)
Definition value_start (t : string) : Prop :=
  exists c t', t = String c t' /\ is_json_ws c = false /\ c <> "]"%char.

Definition sep_join (ts : list string) : string := fold_right (fun t acc => "," +:+ t +:+ acc) EmptyString ts.

Lemma concat_sep t ts : String.concat "," (t :: ts) = t +:+ sep_join ts.
Proof.
  revert t. induction ts as [|t' ts IH]; intros t; [by rewrite str_app_nil_r|].
  change (String.concat "," (t :: t' :: ts)) with (t +:+ "," +:+ String.concat "," (t' :: ts)).
  rewrite IH. reflexivity.
Qed.

Lemma delimited_sep_join ts c rest :
  c = "]"%char \/ c = "}"%char -> delimited (sep_join ts +:+ String c rest).
Proof. destruct ts; simpl; [|by left]. intros [-> | ->]; simpl; auto. Qed.


Lemma after_here c r : is_json_ws c = false -> after c (String c r) = Some r.
Proof. intros Hw. unfold after. simpl. rewrite Hw. by rewrite decide_True. Qed.

Lemma lit_app c (r : string) : str1 c +:+ r = String c r.
Proof. reflexivity. Qed.

Lemma parse_items_sep xs ts rest acc :
  Forall2 (fun x t => parses t x) xs ts ->
  exists n, parse_items n (sep_join ts +:+ String "]"%char rest) acc = Parsed (JArray (acc ++ xs)) rest.
Proof.
  intros Hxs. revert acc. induction Hxs as [|x t xs ts Hx _ IH]; intros acc.
  - exists 1%nat. rewrite List.app_nil_r. reflexivity.
  - destruct (Hx (sep_join ts +:+ String "]"%char rest)) as [n1 H1]; [apply delimited_sep_join; by left|].
    destruct (IH (acc ++ [x])) as [n2 H2]. exists (S (n1 `max` n2)).
    change (sep_join (t :: ts)) with (str1 ","%char +:+ t +:+ sep_join ts).
    rewrite !str_app_assoc, lit_app. cbn [parse_items]. rewrite after_here by reflexivity.
    rewrite (parse_value_more _ _ _ _ _ H1) by lia. rewrite (parse_items_more _ _ _ _ _ _ H2) by lia.
    by rewrite <- List.app_assoc.
Qed.

Lemma sep_join_concat ts : ts <> [] -> sep_join ts = str1 ","%char +:+ String.concat "," ts.
Proof. destruct ts as [|t ts]; [done|]. intros _. rewrite concat_sep. reflexivity. Qed.

Lemma parse_member_step m k t v R acc :
  (String.length k < m)%nat -> parse_value m (t +:+ R) = Parsed v R ->
  parse_members (S m) (json_member k t +:+ R) acc =
  match after ","%char R with
  | Some r4 => parse_members m r4 (obj_set acc k v)
  | None => match after "}"%char R with Some r4 => Parsed (JObject (obj_set acc k v)) r4 | None => Rejected end
  end.
Proof.
  intros Hk Hv. unfold json_member, json_quote.
  rewrite !str_app_assoc, str_app_cons. cbn [parse_members]. rewrite after_here by reflexivity.
  rewrite str_app_assoc, lit_app, parse_chars_quote by done.
  rewrite str_app_cons, str_app_nil_l, after_here by reflexivity. by rewrite Hv.
Qed.

Lemma parse_members_sep ps ts rest acc :
  Forall2 (fun kv t => parses t kv.2) ps ts -> ps <> [] -> NoDup (acc.*1 ++ ps.*1) ->
  exists n, parse_members n (String.concat "," (zip_with (fun kv t => json_member kv.1 t) ps ts)
                             +:+ String "}"%char rest) acc = Parsed (JObject (acc ++ ps)) rest.
Proof.
  intros Hps. revert acc. induction Hps as [|[k v] t ps ts Hv Hrest IH]; intros acc Hne Hnd; [done|].
  assert (Hnd' : NoDup ((acc ++ [(k, v)]).*1 ++ ps.*1)) by (by rewrite fmap_app, <- app_assoc).
  assert (Hk : k ∉ acc.*1).
  { simpl in Hnd. apply NoDup_app in Hnd as (_ & Hdis & _). intros Hin. apply (Hdis k Hin). set_solver. }
  cbn [zip_with fst]. rewrite concat_sep, str_app_assoc. simpl in Hv.
  destruct (Hv (sep_join (zip_with (fun kv t => json_member kv.1 t) ps ts) +:+ String "}"%char rest))
    as [n1 H1]; [apply delimited_sep_join; by right|].
  destruct Hrest as [|[k2 v2] t2 ps ts Hv2 Hrest2].
  - exists (S (n1 `max` S (String.length k))).
    rewrite (parse_member_step _ _ _ v) by (try apply (parse_value_more _ _ _ _ _ H1); lia).
    rewrite obj_set_new by done. reflexivity.
  - destruct (IH (acc ++ [(k, v)]) ltac:(done) Hnd') as [n2 H2].
    exists (S (n1 `max` n2 `max` S (String.length k))).
    rewrite (parse_member_step _ _ _ v) by (try apply (parse_value_more _ _ _ _ _ H1); lia).
    rewrite sep_join_concat by done. rewrite str_app_assoc, lit_app, after_here by reflexivity.
    rewrite obj_set_new by done. rewrite (parse_members_more _ _ _ _ _ _ H2) by lia.
    by rewrite <- List.app_assoc.
Qed.

Lemma number_start_ok c r :
  c = "-"%char \/ is_digit c = true ->
  (forall f, parse_value (S f) (String c r) = parse_number (String c r)) /\ is_json_ws c = false /\ c <> "]"%char.
Proof. intros [->|Hd]; [split_and!; done|]. destruct c as [[] [] [] [] [] [] [] []]; try discriminate Hd; done. Qed.

Lemma bigint_head z : exists c r, bigint_to_string z = String c r /\ (c = "-"%char \/ is_digit c = true).
Proof.
  destruct z as [|p|p]; [by eexists _, _; split; [reflexivity|right]| |].
  - destruct (pos_digits_head p) as (c & r & Hs & _ & Hd). exists c, r. split; [exact Hs|by right].
  - eexists _, _. split; [reflexivity|by left].
Qed.

Lemma after_close_value_start t X : value_start t -> after "]"%char (t +:+ X) = None.
Proof.
  intros (c & t' & -> & Hw & Hc). rewrite str_app_cons. unfold after. simpl. rewrite Hw.
  by rewrite decide_False.
Qed.

Lemma json_value_array xs :
  json_value (JArray xs) <-> Forall json_value xs.
Proof.
  simpl. induction xs as [|x xs IH]; [split; [constructor|done]|]. rewrite Forall_cons. naive_solver.
Qed.

Lemma json_value_object ps :
  json_value (JObject ps) <-> NoDup ps.*1 /\ Forall (fun kv => json_value kv.2) ps.
Proof.
  simpl. apply and_iff_compat_l. induction ps as [|[k x] ps IH]; [split; [constructor|done]|].
  rewrite Forall_cons. naive_solver.
Qed.

Lemma stringify_array fts xs ts :
  Forall2 (fun x t => json_stringify fts x = Ok (Some t)) xs ts ->
  json_stringify fts (JArray xs) = Ok (Some (json_array ts)).
Proof.
  intros H. cut ((fix go (xs : list jsval) : result (list string) :=
               match xs with
               | [] => Ok []
               | x :: xs' =>
                   match json_stringify fts x with
                   | Err e => Err e
                   | Ok o => match go xs' with Err e => Err e | Ok l => Ok (default "null" o :: l) end
                   end
               end) xs = Ok ts); [by intros Hgo; simpl; rewrite Hgo|].
  induction H as [|x t xs ts Hx _ IH]; [done|]. by rewrite Hx, IH.
Qed.

Lemma stringify_object fts ps ts :
  Forall2 (fun kv t => json_stringify fts kv.2 = Ok (Some t)) ps ts ->
  json_stringify fts (JObject ps) = Ok (Some (json_object (zip_with (fun kv t => json_member kv.1 t) ps ts))).
Proof.
  intros H. cut ((fix go (ps : list (string * jsval)) : result (list string) :=
               match ps with
               | [] => Ok []
               | (k, x) :: ps' =>
                   match json_stringify fts x with
                   | Err e => Err e
                   | Ok o =>
                       match go ps' with
                       | Err e => Err e
                       | Ok l => Ok (match o with Some t => json_member k t :: l | None => l end)
                       end
                   end
               end) ps = Ok (zip_with (fun kv t => json_member kv.1 t) ps ts)); [by intros Hgo; simpl; rewrite Hgo|].
  induction H as [|[k x] t ps ts Hx _ IH]; [done|]. simpl in Hx |- *. by rewrite Hx, IH.
Qed.

Lemma parse_value_bracket f r :
  parse_value (S f) (String "["%char r) =
  match after "]"%char r with
  | Some r' => Parsed (JArray []) r'
  | None => match parse_value f r with
            | Parsed v r' => parse_items f r' [v] | Rejected => Rejected | OutOfFuel => OutOfFuel end
  end.
Proof. reflexivity. Qed.

Lemma parse_value_brace f r :
  parse_value (S f) (String "{"%char r) =
  match after "}"%char r with Some r' => Parsed (JObject []) r' | None => parse_members f r [] end.
Proof. reflexivity. Qed.

(** Every value of the JSON domain prints as a text that parses back as
    it, whatever follows the text in an enclosing value. *)
Lemma json_text fts v :
  json_value v -> exists t, json_stringify fts v = Ok (Some t) /\ value_start t /\ parses t v.
Proof.
  induction v as [| |b|x|s|z|xs IH|ps IH|e] using jsval_nested_ind; intros Hv; try done.
  - exists "null". split_and!; [done|by eexists _, _|intros rest _; by exists 1%nat].
  - exists (if b then "true" else "false"). split_and!; [done|by destruct b; eexists _, _|].
    intros rest _. exists 1%nat. by destruct b.
  - destruct (json_number_digits fts x Hv) as (z & Hz & <-). destruct (bigint_head z) as (c & r & Hs & Hc).
    destruct (number_start_ok c (r +:+ EmptyString) Hc) as (_ & Hw & Hb).
    exists (bigint_to_string z). split_and!; [by rewrite <- Hz|by exists c, r|].
    intros rest Hr. exists 1%nat. rewrite <- (parse_number_Z z rest Hr), Hs, str_app_cons.
    apply (number_start_ok c (r +:+ rest) Hc).
  - exists (json_quote s). split_and!; [done|by eexists _, _|].
    intros rest _. exists (S (S (String.length s))). unfold json_quote.
    rewrite str_app_cons, str_app_assoc, lit_app.
    change (parse_value (S (S (String.length s))) (String dq (json_quote_chars s +:+ String dq rest)))
      with (match parse_chars (S (String.length s)) (json_quote_chars s +:+ String dq rest) with
            | Parsed str r' => Parsed (JString str) r' | Rejected => Rejected | OutOfFuel => OutOfFuel end).
    by rewrite parse_chars_quote by lia.
  - apply json_value_array in Hv.
    assert (Hall : Forall (fun x => exists t, json_stringify fts x = Ok (Some t) /\ value_start t /\ parses t x) xs).
    { eapply Forall_impl; [apply Forall_and; split; [exact IH|exact Hv]|]. intros x [Hi Hx]. by apply Hi. }
    destruct (Forall_exists_Forall2 _ _ Hall) as [ts Hts].
    exists (json_array ts). split_and!.
    + apply stringify_array. eapply Forall2_impl; [exact Hts|]. naive_solver.
    + by eexists _, _.
    + intros rest _. unfold json_array. destruct Hts as [|x t xs ts (_ & Hst & Hpt) Hts'].
      * exists 1%nat. reflexivity.
      * destruct (Hpt (sep_join ts +:+ String "]"%char rest)) as [n1 H1]; [apply delimited_sep_join; by left|].
        destruct (parse_items_sep xs ts rest [x]) as [n2 H2]; [eapply Forall2_impl; [exact Hts'|]; naive_solver|].
        exists (S (n1 `max` n2)). rewrite concat_sep, !str_app_assoc, !str_app_cons, !str_app_nil_l.
        rewrite parse_value_bracket, after_close_value_start by done.
        rewrite (parse_value_more _ _ _ _ _ H1) by lia. by rewrite (parse_items_more _ _ _ _ _ _ H2) by lia.
  - apply json_value_object in Hv as [Hnd Hvs].
    assert (Hall : Forall (fun kv => exists t, json_stringify fts kv.2 = Ok (Some t) /\ value_start t
                                               /\ parses t kv.2) ps).
    { eapply Forall_impl; [apply Forall_and; split; [exact IH|exact Hvs]|]. intros kv [Hi Hx]. by apply Hi. }
    destruct (Forall_exists_Forall2 _ _ Hall) as [ts Hts].
    exists (json_object (zip_with (fun kv t => json_member kv.1 t) ps ts)). split_and!.
    + apply stringify_object. eapply Forall2_impl; [exact Hts|]. naive_solver.
    + by eexists _, _.
    + intros rest _. unfold json_object. destruct ps as [|kv ps].
      * inversion Hts; subst. exists 1%nat. reflexivity.
      * destruct (parse_members_sep (kv :: ps) ts rest []) as [n H];
          [eapply Forall2_impl; [exact Hts|]; naive_solver|done|exact Hnd|].
        assert (Ha : after "}"%char (String.concat "," (zip_with (fun kv t => json_member kv.1 t) (kv :: ps) ts)
                                     +:+ String "}"%char rest) = None).
        { inversion Hts as [|? t ? ts' _ _]; subst. cbn [zip_with]. rewrite concat_sep, !str_app_assoc.
          unfold json_member, json_quote. rewrite str_app_cons. reflexivity. }
        exists (S n). rewrite !str_app_assoc, !str_app_cons, !str_app_nil_l, parse_value_brace, Ha.
        exact H.
Qed.

(** With the fuel [json_parse] gives, the parser answers as it would with
    any fuel that answers. *)
Lemma parse_value_answer n s v r :
  parse_value n s = Parsed v r -> parse_value (S (String.length s)) s = Parsed v r.
Proof.
  intros Hn. pose proof (proj1 (parse_ok (S (String.length s))) s ltac:(lia)) as Hok.
  destruct (decide (n <= S (String.length s))%nat) as [Hle|Hgt]; [by eapply parse_value_more|].
  destruct (proj1 (parse_mono (S (String.length s))) n s ltac:(lia)) as [Hoof|Heq].
  - by rewrite Hoof in Hok.
  - by rewrite Heq.
Qed.

Lemma stringify_parse fts v t :
  json_value v -> json_stringify fts v = Ok (Some t) -> json_parse t = Some v.
Proof.
  intros Hv Ht. destruct (json_text fts v Hv) as (t' & Ht' & _ & Hp). rewrite Ht in Ht'. simplify_eq.
  destruct (Hp EmptyString I) as [n Hn]. rewrite str_app_nil_r in Hn.
  unfold json_parse. by rewrite (parse_value_answer _ _ _ _ Hn).
Qed.

(** C28: [JSON.parse] reads back what [JSON.stringify] prints: every
    value of the JSON domain (no [undefined], BigInt or [Error], integral
    numbers below [10^21] other than [-0], objects without repeated keys,
    any strings) is printed, without throwing, as a text that
    [JSON.parse] turns back into the same value, whatever digits
    [Number::toString] would give the other numbers. *)
Theorem json_roundtrip fts v :
  json_value v -> exists t, json_stringify fts v = Ok (Some t) /\ json_parse t = Some v.
Proof.
  intros Hv. destruct (json_text fts v Hv) as (t & Ht & _). exists t. split; [done|].
  by apply (stringify_parse fts).
Qed.

(** The parser terminates: given more fuel than the text has
    characters it never runs out, and more fuel does not change its
    answer, so [json_parse] is [JSON.parse] on every text. *)
Lemma json_parse_terminates s n :
  (String.length s < n)%nat ->
  parse_value n s <> OutOfFuel /\ forall m, (n <= m)%nat -> parse_value m s = parse_value n s.
Proof.
  intros Hn. pose proof (proj1 (parse_ok n) s Hn) as Hok. split; [by intros Hoof; rewrite Hoof in Hok|].
  intros m Hm. destruct (proj1 (parse_mono n) m s Hm) as [Hoof|Heq]; [by rewrite Hoof in Hok|done].
Qed.

Definition sample_body : jsval :=
  JObject [("value", JString "4\2"); ("n", JNumber (number_of_Z 7)); ("xs", JArray [JNull; JBool true])].

Lemma json_roundtrip_witness :
  json_value sample_body
  /\ exists t, json_stringify (fun _ => EmptyString) sample_body = Ok (Some t) /\ json_parse t = Some sample_body.
Proof.
  assert (Hv : json_value sample_body).
  { cbn. split_and!; try done.
    - repeat constructor; set_solver.
    - exists 7. split_and!; [vm_compute; reflexivity|lia|reflexivity]. }
  split; [exact Hv|exact (json_roundtrip (fun _ => EmptyString) sample_body Hv)].
Defined.
