(* ===== verification/Wallet.v ===== *)
(** * Wallet: [new ethers.Wallet(PRIVATE_KEY, provider)], index.js line 21

    What the ethers v6 constructor does with the key string before the
    gateway can start: [Wallet] prefixes [0x] when the string does not
    start with it (wallet.ts); [SigningKey] asks [dataLength] for exactly
    32 bytes, which [getBytes] reads from [0x] and pairs of hex digits,
    either case (signing-key.ts, utils/data.ts); [BaseWallet] derives
    the address from the public key, and [@noble/curves] refuses a
    scalar outside [1 .. n-1] for secp256k1's group order [n].  Any of
    these throws, at module level, and ends the process (Config.v).
    The address derivation itself (secp256k1 multiplication, keccak) is
    not modelled: Config.v takes it as a parameter.

    [wallet_key] is the check; [wallet_key_spec] states it without the
    prefixing and the byte pairs: an optional [0x], 64 hex digits, a
    value between 1 and [n - 1]. *)

From S2P Require Import Prelude Js Task Json.
From Stdlib Require Import Ascii.

(** The order of the secp256k1 group. *)
Definition secp256k1_n : Z := 0xFFFFFFFFFFFFFFFFFFFFFFFFFFFFFFFEBAAEDCE6AF48A03BBFD25E8CD0364141.

Definition invalid_byteslike : jserror := JsError InvalidArgument "invalid BytesLike value".
Definition invalid_private_key : jserror := JsError InvalidArgument "invalid private key".
Definition private_key_range : jserror := JsError PlainError "private key must be 0 < key < n".

(** The bytes of [/(?:[0-9a-f][0-9a-f])*/i], two hex digits each. *)
Fixpoint hex_pairs (s : string) : option (list Z) :=
  match s with
  | EmptyString => Some []
  | String a (String b r) =>
      match hex_value a, hex_value b, hex_pairs r with
      | Some x, Some y, Some bs => Some (Z.of_N (16 * x + y) :: bs)
      | _, _, _ => None
      end
  | String _ EmptyString => None
  end.

(** [getBytes(value)] on a string: [/^0x(?:[0-9a-f][0-9a-f])*$/i]. *)
Definition get_bytes (s : string) : result (list Z) :=
  match s with
  | String z (String x r) =>
      if decide (z = "0"%char /\ (x = "x"%char \/ x = "X"%char)) then
        match hex_pairs r with Some bs => Ok bs | None => Err invalid_byteslike end
      else Err invalid_byteslike
  | _ => Err invalid_byteslike
  end.

(** [bytesToNumberBE]: big-endian bytes as an integer. *)
Definition be_value (bs : list Z) : Z := foldl (fun acc b => acc * 256 + b) 0 bs.

(** The constructor: the secret scalar of the key, or what it throws. *)
Definition wallet_key (key : string) : result Z :=
  let key := if String.prefix "0x" key then key else "0x" +:+ key in
  match get_bytes key with
  | Err e => Err e
  | Ok bs =>
      if negb (Nat.eqb (length bs) 32) then Err invalid_private_key
      else let k := be_value bs in
           if (1 <=? k) && (k <? secp256k1_n) then Ok k else Err private_key_range
  end.

Definition wallet_accepts (key : string) : bool := if wallet_key key is Ok _ then true else false.

(** ** The reference reading of a key *)

(** The value of a string of hex digits (either case), read after [acc]. *)
Fixpoint hex_digits (acc : Z) (s : string) : option Z :=
  match s with
  | EmptyString => Some acc
  | String c r => match hex_value c with Some d => hex_digits (acc * 16 + Z.of_N d) r | None => None end
  end.

(** [hexlify]: the lower-case hex of [k] in [w] digits. *)
Fixpoint key_hex (w : nat) (k : Z) : string :=
  match w with
  | O => EmptyString
  | S w' => key_hex w' (k / 16) +:+ str1 (hex_lower (Z.to_nat (k mod 16)))
  end.

(** ** Lemmas *)

Lemma hex_value_lt c d : hex_value c = Some d -> (d < 16)%N.
Proof. unfold hex_value. repeat case_match; intros [= <-]; rewrite ?andb_true_iff, ?N.leb_le in *; lia. Qed.

Lemma hex_pairs_digits r bs acc :
  hex_pairs r = Some bs ->
  String.length r = (2 * length bs)%nat /\ hex_digits acc r = Some (foldl (fun a b => a * 256 + b) acc bs).
Proof.
  revert bs acc. induction r as [r IH] using (induction_ltof1 _ String.length); intros bs acc.
  destruct r as [|a [|b r]]; simpl; [by intros [= <-]|done|].
  destruct (hex_value a) as [x|], (hex_value b) as [y|], (hex_pairs r) as [bs'|] eqn:Hr; try done.
  intros [= <-]. destruct (IH r ltac:(unfold ltof; simpl; lia) bs' ((acc * 16 + Z.of_N x) * 16 + Z.of_N y) Hr)
    as [Hl Hd].
  split; [simpl; lia|]. rewrite Hd. simpl. do 2 f_equal. lia.
Qed.

Lemma hex_digits_pairs r acc v :
  hex_digits acc r = Some v -> Nat.Even (String.length r) -> exists bs, hex_pairs r = Some bs.
Proof.
  revert acc. induction r as [r IH] using (induction_ltof1 _ String.length); intros acc.
  destruct r as [|a [|b r]]; simpl; [by eauto| |].
  - destruct (hex_value a); [|done]. intros _ [k Hk]. lia.
  - destruct (hex_value a) as [x|], (hex_value b) as [y|]; try done. intros Hd Hev.
    destruct (IH r ltac:(unfold ltof; simpl; lia) _ Hd) as [bs ->].
    + destruct Hev as [k Hk]. exists (k - 1)%nat. lia.
    + eauto.
Qed.

Lemma prefix_0x_app r : String.prefix "0x" ("0x" +:+ r) = true.
Proof. by destruct r. Qed.

Lemma prefix_0x s : String.prefix "0x" s = true -> exists r, s = "0x" +:+ r.
Proof.
  destruct s as [|a [|b r]]; cbn -[ascii_dec]; [done|case_match; discriminate|].
  destruct (ascii_dec "0" a) as [<-|]; [|discriminate]. destruct (ascii_dec "x" b) as [<-|]; [|discriminate].
  intros _. by exists r.
Qed.

Lemma hex_digits_0x acc r : hex_digits acc ("0x" +:+ r) = None.
Proof. reflexivity. Qed.

Lemma get_bytes_0x r : get_bytes ("0x" +:+ r) = match hex_pairs r with Some bs => Ok bs | None => Err invalid_byteslike end.
Proof. reflexivity. Qed.

(** The constructor reads the digits after the [0x] it has or is given. *)
Lemma wallet_key_pairs key :
  exists digits,
    ((String.prefix "0x" key = true /\ key = "0x" +:+ digits) \/ (String.prefix "0x" key = false /\ key = digits))
    /\ wallet_key key =
       match hex_pairs digits with
       | None => Err invalid_byteslike
       | Some bs =>
           if negb (Nat.eqb (length bs) 32) then Err invalid_private_key
           else if (1 <=? be_value bs) && (be_value bs <? secp256k1_n) then Ok (be_value bs) else Err private_key_range
       end.
Proof.
  unfold wallet_key. destruct (String.prefix "0x" key) eqn:Hp.
  - destruct (prefix_0x key Hp) as [r ->]. exists r. split; [by left|]. rewrite get_bytes_0x. by destruct (hex_pairs r).
  - exists key. split; [by right|]. rewrite get_bytes_0x. by destruct (hex_pairs key).
Qed.

(** The constructor accepts a key exactly when it is 64 hex digits,
    with or without [0x], whose value lies in [1 .. n-1]; that value is
    the wallet's secret scalar. *)
Lemma wallet_key_spec key k :
  wallet_key key = Ok k <->
  exists digits, (key = digits \/ key = "0x" +:+ digits) /\ String.length digits = 64%nat
                 /\ hex_digits 0 digits = Some k /\ 1 <= k < secp256k1_n.
Proof.
  destruct (wallet_key_pairs key) as (digits & Hkey & ->). split.
  - destruct (hex_pairs digits) as [bs|] eqn:Hbs; [|done].
    destruct (hex_pairs_digits digits bs 0 Hbs) as [Hl Hd].
    destruct (Nat.eqb_spec (length bs) 32) as [Hl32|]; [|done]. simpl.
    destruct (_ && _) eqn:Hb; [|done]. intros [= <-]. rewrite andb_true_iff, Z.leb_le, Z.ltb_lt in Hb.
    exists digits. split_and!; [naive_solver|lia|exact Hd|lia|lia].
  - intros (d & Hd & Hl & Hv & Hk).
    assert (d = digits) as ->.
    { destruct Hkey as [[Hp ->]|[Hp ->]], Hd as [Hd|Hd].
      - subst d. by rewrite hex_digits_0x in Hv.
      - by apply (str_app_inj_l "0x").
      - done.
      - by rewrite Hd, prefix_0x_app in Hp. }
    destruct (hex_digits_pairs digits 0 k Hv) as [bs Hbs]; [exists 32%nat; lia|].
    destruct (hex_pairs_digits digits bs 0 Hbs) as [Hl' Hd']. rewrite Hbs.
    rewrite Hv in Hd'. injection Hd' as Hk'. assert (k = be_value bs) as -> by exact Hk'.
    rewrite (proj2 (Nat.eqb_eq _ _)) by lia. simpl.
    by rewrite (proj2 (andb_true_iff _ _)) by (split; [apply Z.leb_le|apply Z.ltb_lt]; lia).
Qed.
