(* ===== verification/Regex.v ===== *)
(** * Regex: JavaScript regular expressions, as dotenv runs them

    dotenv's [parse] is three regular expressions run by the JavaScript
    engine: [LINE] through [RegExp.prototype.exec] in a loop, and two
    [String.prototype.replace] calls with global expressions.  This file
    is the part of ECMAScript's RegExp semantics those use (22.2.2, in
    the multiline mode and without the [u] flag): character classes, the
    anchors [^] and [$] at line boundaries, sequence, alternation,
    greedy and lazy repetition with the empty-iteration check, capture
    groups reset on each iteration, back-references, then [exec] from a
    position and the global [replace].

    A matcher is in continuation-passing style, as the standard writes
    it: [mtch r st k] tries the ways [r] matches from [st] in priority
    order, and the first for which [k] succeeds is the answer, so
    backtracking is exactly the standard's.  A state is the character
    before the position, the rest of the input, and the captures.
    Repetition loops at most once per character of the input (each
    iteration must consume one, by the empty check), so its fuel is one
    more than the length of the rest ([star_loop_fuel] shows any larger
    fuel gives the same answer).  Characters are bytes: [\s] and the line
    terminators are their ASCII members. *)

From S2P Require Import Prelude Js.
From Stdlib Require Import Ascii.

Inductive regex :=
| RClass (p : ascii -> bool)          (** a character or a class, [.], [\s], [[^#\r\n]] *)
| REmpty                              (** the empty alternative *)
| RBol                                (** [^] (multiline) *)
| REol                                (** [$] (multiline) *)
| RSeq (r1 r2 : regex)
| RAlt (r1 r2 : regex)
| RStar (greedy : bool) (r : regex)   (** [r*] or [r*?] *)
| ROpt (r : regex)                    (** [r?] *)
| RGroup (n : nat) (r : regex)        (** the capture group [n] *)
| RBackref (n : nat).                 (** [\n] *)

Record mstate := MState { ms_prev : option ascii; ms_rest : string; ms_caps : list (option string) }.

Definition is_line_terminator (c : ascii) : bool := bool_decide (c = "010"%char \/ c = "013"%char).

Definition at_bol (st : mstate) : bool :=
  match ms_prev st with None => true | Some c => is_line_terminator c end.
Definition at_eol (st : mstate) : bool :=
  match ms_rest st with EmptyString => true | String c _ => is_line_terminator c end.

(** The text between two rests of the same input. *)
Definition consumed (before after : string) : string :=
  String.substring 0 (String.length before - String.length after) before.

Definition set_cap (n : nat) (v : option string) (st : mstate) : mstate :=
  MState (ms_prev st) (ms_rest st) (<[n := v]> (ms_caps st)).

(** The groups inside an expression, whose captures each iteration resets. *)
Fixpoint groups (r : regex) : list nat :=
  match r with
  | RSeq r1 r2 | RAlt r1 r2 => groups r1 ++ groups r2
  | RStar _ r1 | ROpt r1 => groups r1
  | RGroup n r1 => n :: groups r1
  | _ => []
  end.

Definition reset_caps (ns : list nat) (st : mstate) : mstate :=
  foldr (fun n st => set_cap n None st) st ns.

(** Consume [w] if the rest starts with it. *)
Fixpoint eat (w : string) (st : mstate) : option mstate :=
  match w with
  | EmptyString => Some st
  | String c w' =>
      match ms_rest st with
      | String c' r => if decide (c = c') then eat w' (MState (Some c) r (ms_caps st)) else None
      | EmptyString => None
      end
  end.

(** RepeatMatcher with no upper bound: an iteration that consumes nothing fails. *)
Definition star_loop (m1 : mstate -> (mstate -> option mstate) -> option mstate) (greedy : bool)
    (ns : list nat) (k : mstate -> option mstate) : nat -> mstate -> option mstate :=
  fix star (f : nat) (st : mstate) {struct f} : option mstate :=
    match f with
    | O => None
    | S f' =>
        let iter :=
          m1 (reset_caps ns st)
             (fun st1 => if (String.length (ms_rest st1) <? String.length (ms_rest st))%nat then star f' st1 else None) in
        if greedy then match iter with Some x => Some x | None => k st end
        else match k st with Some x => Some x | None => iter end
    end.

Fixpoint mtch (r : regex) (st : mstate) (k : mstate -> option mstate) {struct r} : option mstate :=
  match r with
  | RClass p =>
      match ms_rest st with
      | String c s' => if p c then k (MState (Some c) s' (ms_caps st)) else None
      | EmptyString => None
      end
  | REmpty => k st
  | RBol => if at_bol st then k st else None
  | REol => if at_eol st then k st else None
  | RSeq r1 r2 => mtch r1 st (fun st1 => mtch r2 st1 k)
  | RAlt r1 r2 => match mtch r1 st k with Some x => Some x | None => mtch r2 st k end
  | RStar g r1 => star_loop (mtch r1) g (groups r1) k (S (String.length (ms_rest st))) st
  | ROpt r1 =>
      match mtch r1 (reset_caps (groups r1) st)
              (fun st1 => if (String.length (ms_rest st1) <? String.length (ms_rest st))%nat then k st1 else None) with
      | Some x => Some x
      | None => k st
      end
  | RGroup n r1 => mtch r1 st (fun st1 => k (set_cap n (Some (consumed (ms_rest st) (ms_rest st1))) st1))
  | RBackref n =>
      match ms_caps st !! n with
      | Some (Some w) => match eat w st with Some st1 => k st1 | None => None end
      | _ => k st
      end
  end.

(** [r+] *)
Definition RPlus (g : bool) (r : regex) : regex := RSeq r (RStar g r).

(** A literal string. *)
Fixpoint RLit (w : string) : regex :=
  match w with
  | EmptyString => REmpty
  | String c EmptyString => RClass (fun c' => bool_decide (c' = c))
  | String c w' => RSeq (RClass (fun c' => bool_decide (c' = c))) (RLit w')
  end.

Definition is_space : ascii -> bool := is_js_space.

(** RegExpBuiltinExec from a position ([lastIndex]): the first position,
    from there on, where the expression matches; the text skipped
    before it and the state after the match. *)
Fixpoint exec_from (r : regex) (caps0 : list (option string)) (prev : option ascii) (s : string)
    : option (string * mstate) :=
  match mtch r (MState prev s caps0) Some with
  | Some st => Some (EmptyString, st)
  | None =>
      match s with
      | EmptyString => None
      | String c s' =>
          match exec_from r caps0 (Some c) s' with
          | Some (pre, st) => Some (String c pre, st)
          | None => None
          end
      end
  end.

(** [s.replace(re, repl)] with a global [re]: every match, left to right,
    replaced by [repl] of its captures; after an empty match the next
    search starts one character later.  [fuel] bounds the matches. *)
Fixpoint replace_all (fuel : nat) (r : regex) (caps0 : list (option string))
    (repl : list (option string) -> string) (prev : option ascii) (s : string) : string :=
  match fuel with
  | O => s
  | S f =>
      match exec_from r caps0 prev s with
      | None => s
      | Some (pre, st) =>
          pre +:+ repl (ms_caps st) +:+
          (if String.length (ms_rest st) + String.length pre =? String.length s then
             match ms_rest st with
             | EmptyString => EmptyString
             | String c s' => String c (replace_all f r caps0 repl (Some c) s')
             end
           else replace_all f r caps0 repl (ms_prev st) (ms_rest st))%nat
      end
  end.

Definition js_replace (r : regex) (ngroups : nat) (repl : list (option string) -> string) (s : string) : string :=
  replace_all (S (String.length s)) r (replicate (S ngroups) None) repl None s.

(** ** How the matcher runs *)

(** The character before the position after consuming [w]. *)
Fixpoint adv (prev : option ascii) (w : string) : option ascii :=
  match w with EmptyString => prev | String c w' => adv (Some c) w' end.

(** The first character of a string is not in [p] (or there is none). *)
Definition stops (p : ascii -> bool) (s : string) : Prop :=
  match s with String c _ => p c = false | EmptyString => True end.

Section Matcher.
Implicit Types (st : mstate) (k : mstate -> option mstate).

Lemma mtch_seq r1 r2 st k : mtch (RSeq r1 r2) st k = mtch r1 st (fun st1 => mtch r2 st1 k).
Proof. reflexivity. Qed.

Lemma mtch_group n r st k :
  mtch (RGroup n r) st k = mtch r st (fun st1 => k (set_cap n (Some (consumed (ms_rest st) (ms_rest st1))) st1)).
Proof. reflexivity. Qed.

Lemma mtch_alt_l r1 r2 st k x : mtch r1 st k = Some x -> mtch (RAlt r1 r2) st k = Some x.
Proof. simpl. by intros ->. Qed.

Lemma mtch_alt_r r1 r2 st k : mtch r1 st k = None -> mtch (RAlt r1 r2) st k = mtch r2 st k.
Proof. simpl. by intros ->. Qed.

Lemma mtch_bol st k : at_bol st = true -> mtch RBol st k = k st.
Proof. simpl. by intros ->. Qed.

Lemma mtch_eol st k : at_eol st = true -> mtch REol st k = k st.
Proof. simpl. by intros ->. Qed.

Lemma mtch_bol_false st k : at_bol st = false -> mtch RBol st k = None.
Proof. simpl. by intros ->. Qed.

Lemma mtch_class_cons p prev c s caps k :
  mtch (RClass p) (MState prev (String c s) caps) k = if p c then k (MState (Some c) s caps) else None.
Proof. reflexivity. Qed.

Lemma mtch_class_stop p st k : stops p (ms_rest st) -> mtch (RClass p) st k = None.
Proof. destruct st as [prev [|c s] caps]; simpl; [done|]. by intros ->. Qed.

Lemma mtch_opt_some r st k x :
  mtch r (reset_caps (groups r) st)
    (fun st1 => if (String.length (ms_rest st1) <? String.length (ms_rest st))%nat then k st1 else None) = Some x ->
  mtch (ROpt r) st k = Some x.
Proof. simpl. by intros ->. Qed.

Lemma mtch_opt_none r st k :
  mtch r (reset_caps (groups r) st)
    (fun st1 => if (String.length (ms_rest st1) <? String.length (ms_rest st))%nat then k st1 else None) = None ->
  mtch (ROpt r) st k = k st.
Proof. simpl. by intros ->. Qed.

(** A repeated class, one step: the next character is in the class. *)
Lemma mtch_star_class_cons g p prev c s caps k :
  p c = true ->
  mtch (RStar g (RClass p)) (MState prev (String c s) caps) k =
  if g then match mtch (RStar g (RClass p)) (MState (Some c) s caps) k with
            | Some x => Some x | None => k (MState prev (String c s) caps) end
  else match k (MState prev (String c s) caps) with
       | Some x => Some x | None => mtch (RStar g (RClass p)) (MState (Some c) s caps) k end.
Proof.
  intros Hc. cbn [mtch]. unfold star_loop at 1. cbn [reset_caps groups foldr mtch ms_rest]. rewrite Hc.
  rewrite (proj2 (Nat.ltb_lt _ _)) by (simpl; lia). reflexivity.
Qed.

(** A repeated class that cannot take the next character matches empty. *)
Lemma mtch_star_class_stop g p st k : stops p (ms_rest st) -> mtch (RStar g (RClass p)) st k = k st.
Proof.
  destruct st as [prev [|c r] caps]; simpl; intros Hs; [|rewrite Hs]; destruct g; by destruct (k _).
Qed.

(** A greedy repeated class takes the whole run when the rest of the
    expression then matches. *)
Lemma mtch_star_class_run p prev w s caps k x :
  all_chars p w = true -> stops p s -> k (MState (adv prev w) s caps) = Some x ->
  mtch (RStar true (RClass p)) (MState prev (w +:+ s) caps) k = Some x.
Proof.
  revert prev. induction w as [|c w IH]; intros prev Hw Hs Hk.
  - rewrite str_app_nil_l, mtch_star_class_stop by done. done.
  - simpl in Hw. apply andb_prop in Hw as [Hc Hw]. rewrite str_app_cons, mtch_star_class_cons by done.
    by rewrite (IH (Some c)).
Qed.

(** A greedy repeated class over a run it could extend: the longest
    iteration after which the rest of the expression matches wins. *)
Lemma mtch_star_class_fail p prev s caps k :
  all_chars p s = true ->
  (forall s1 s2 prev', s = s1 +:+ s2 -> s1 <> EmptyString -> k (MState prev' s2 caps) = None) ->
  mtch (RStar true (RClass p)) (MState prev s caps) k = k (MState prev s caps).
Proof.
  revert prev. induction s as [|c s IH]; intros prev Hs Hk; [by rewrite mtch_star_class_stop|].
  simpl in Hs. apply andb_prop in Hs as [Hc Hs]. rewrite mtch_star_class_cons by done.
  rewrite IH; [|done|].
  - by rewrite (Hk (String c EmptyString) s (Some c)).
  - intros s1 s2 prev' -> Hne. apply (Hk (String c s1)); [by rewrite str_app_cons|done].
Qed.

Lemma mtch_star_class_back p prev w s caps k x :
  all_chars p (w +:+ s) = true ->
  (forall s1 s2 prev', s = s1 +:+ s2 -> s1 <> EmptyString -> k (MState prev' s2 caps) = None) ->
  k (MState (adv prev w) s caps) = Some x ->
  mtch (RStar true (RClass p)) (MState prev (w +:+ s) caps) k = Some x.
Proof.
  revert prev. induction w as [|c w IH]; intros prev Hw Hk Hx.
  - rewrite str_app_nil_l in *. by rewrite mtch_star_class_fail.
  - rewrite str_app_cons in *. simpl in Hw. apply andb_prop in Hw as [Hc Hw].
    rewrite mtch_star_class_cons by done. by rewrite (IH (Some c)).
Qed.

(** A repeated expression without groups that consumes exactly the
    next character, as a class does. *)
Lemma mtch_star_like_cons g r1 prev c s caps k :
  groups r1 = [] -> (forall k', mtch r1 (MState prev (String c s) caps) k' = k' (MState (Some c) s caps)) ->
  mtch (RStar g r1) (MState prev (String c s) caps) k =
  if g then match mtch (RStar g r1) (MState (Some c) s caps) k with
            | Some x => Some x | None => k (MState prev (String c s) caps) end
  else match k (MState prev (String c s) caps) with
       | Some x => Some x | None => mtch (RStar g r1) (MState (Some c) s caps) k end.
Proof.
  intros Hg H. cbn [mtch]. rewrite Hg. unfold star_loop at 1. cbn [reset_caps foldr]. rewrite H.
  cbn [ms_rest String.length]. rewrite (proj2 (Nat.ltb_lt _ _)) by lia. reflexivity.
Qed.

Lemma mtch_star_like_stop g r1 st k :
  groups r1 = [] -> (forall k', mtch r1 st k' = None) -> mtch (RStar g r1) st k = k st.
Proof.
  intros Hg H. cbn [mtch]. rewrite Hg. unfold star_loop. cbn [reset_caps foldr]. rewrite H.
  destruct g; by destruct (k st).
Qed.

Lemma mtch_star_like_run r1 p prev w s caps k x :
  groups r1 = [] ->
  (forall prev' c s' caps' k', p c = true -> mtch r1 (MState prev' (String c s') caps') k' = k' (MState (Some c) s' caps')) ->
  all_chars p w = true -> (forall prev' k', mtch r1 (MState prev' s caps) k' = None) ->
  k (MState (adv prev w) s caps) = Some x ->
  mtch (RStar true r1) (MState prev (w +:+ s) caps) k = Some x.
Proof.
  intros Hg Hr1. revert prev. induction w as [|c w IH]; intros prev Hw Hs Hk.
  - rewrite str_app_nil_l. by rewrite mtch_star_like_stop.
  - simpl in Hw. apply andb_prop in Hw as [Hc Hw]. rewrite str_app_cons, mtch_star_like_cons by auto.
    by rewrite (IH (Some c)).
Qed.

Lemma mtch_plus_class_run p prev c w s caps k x :
  p c = true -> all_chars p w = true -> stops p s -> k (MState (adv (Some c) w) s caps) = Some x ->
  mtch (RPlus true (RClass p)) (MState prev (String c w +:+ s) caps) k = Some x.
Proof.
  intros Hc Hw Hs Hk. unfold RPlus. rewrite mtch_seq, str_app_cons, mtch_class_cons, Hc.
  by apply mtch_star_class_run.
Qed.
End Matcher.

Lemma consumed_app w s : consumed (w +:+ s) s = w.
Proof.
  unfold consumed. rewrite str_length_app, Nat.add_sub.
  induction w as [|c w IH]; [by destruct s|]. rewrite str_app_cons. simpl. by rewrite IH.
Qed.

Lemma mtch_plus_class_stop g p st k : stops p (ms_rest st) -> mtch (RPlus g (RClass p)) st k = None.
Proof. intros Hs. unfold RPlus. by rewrite mtch_seq, mtch_class_stop. Qed.

(** A literal fails when the rest of the expression fails wherever it
    could end. *)
Lemma mtch_lit_none w st k :
  w <> EmptyString ->
  (forall s prev', ms_rest st = w +:+ s -> k (MState prev' s (ms_caps st)) = None) ->
  mtch (RLit w) st k = None.
Proof.
  revert st. induction w as [|c w IH]; intros [prev rest caps] Hne Hk; [done|]. simpl in Hk.
  destruct w as [|c' w'].
  - destruct rest as [|c0 r]; [done|]. cbn [RLit]. rewrite mtch_class_cons.
    case_bool_decide as E; [subst c0|done]. apply (Hk r). reflexivity.
  - change (RLit (String c (String c' w'))) with (RSeq (RClass (fun x => bool_decide (x = c))) (RLit (String c' w'))).
    rewrite mtch_seq. destruct rest as [|c0 r]; [done|]. rewrite mtch_class_cons.
    case_bool_decide as E; [subst c0|done]. apply IH; [done|]. intros s prev' Hr. simpl in Hr. subst r.
    apply (Hk s). by rewrite str_app_cons.
Qed.

Lemma exec_from_here r caps prev s st :
  mtch r (MState prev s caps) Some = Some st -> exec_from r caps prev s = Some (EmptyString, st).
Proof. destruct s; simpl; by intros ->. Qed.

(** ** The matcher only moves forward, so its fuel is enough *)

Lemma reset_caps_rest ns st : ms_rest (reset_caps ns st) = ms_rest st.
Proof. induction ns as [|n ns IH]; [done|]. exact IH. Qed.

Lemma eat_rest w st st1 : eat w st = Some st1 -> (String.length (ms_rest st1) <= String.length (ms_rest st))%nat.
Proof.
  revert st. induction w as [|c w IH]; intros [prev rest caps]; simpl; [intros [= <-]; simpl; lia|].
  destruct rest as [|c' r]; [done|]. case_decide; [|done]. intros Hst%IH. simpl in *. lia.
Qed.

(** The continuation is only ever called at the position or after it. *)
Lemma mtch_ext r st k1 k2 :
  (forall st1, (String.length (ms_rest st1) <= String.length (ms_rest st))%nat -> k1 st1 = k2 st1) ->
  mtch r st k1 = mtch r st k2.
Proof.
  revert st k1 k2. induction r as [p| | | |r1 IH1 r2 IH2|r1 IH1 r2 IH2|g r1 IH|r1 IH|n r1 IH|n];
    intros st k1 k2 Hk; cbn [mtch].
  - destruct st as [prev [|c s] caps]; cbn [ms_rest ms_caps]; [done|]. case_match; [|done]. apply Hk. simpl. lia.
  - apply Hk. lia.
  - case_match; [apply Hk; lia|done].
  - case_match; [apply Hk; lia|done].
  - apply IH1. intros st1 Hst1. apply IH2. intros st2 Hst2. apply Hk. lia.
  - by rewrite (IH1 st k1 k2), (IH2 st k1 k2).
  - generalize (S (String.length (ms_rest st))) as f. intros f. revert st Hk.
    induction f as [|f IHf]; intros st Hk; [done|]. cbn [star_loop].
    rewrite (Hk st) by lia. cbv zeta.
    erewrite (IH (reset_caps (groups r1) st)); [reflexivity|].
    rewrite reset_caps_rest. intros st1 Hst1. case_match; [|done].
    apply IHf. intros st2 Hst2. apply Hk. apply Nat.ltb_lt in H. lia.
  - rewrite (Hk st) by lia. erewrite (IH (reset_caps (groups r1) st)); [reflexivity|].
    rewrite reset_caps_rest. intros st1 Hst1. case_match; [apply Hk; lia|done].
  - apply IH. intros st1 Hst1. apply Hk. unfold set_cap. simpl. lia.
  - repeat case_match; try done; apply Hk; first [by eapply eat_rest | lia].
Qed.

(** Repetition gives the same answer with any fuel above the length of the rest. *)
Lemma star_loop_fuel r1 g ns k f f' st :
  (String.length (ms_rest st) < f)%nat -> (String.length (ms_rest st) < f')%nat ->
  star_loop (mtch r1) g ns k f st = star_loop (mtch r1) g ns k f' st.
Proof.
  revert f' st. induction f as [|f IH]; intros [|f'] st Hf Hf'; try lia. cbn [star_loop].
  rewrite (mtch_ext r1 (reset_caps ns st) _
    (fun st1 => if (String.length (ms_rest st1) <? String.length (ms_rest st))%nat then star_loop (mtch r1) g ns k f' st1 else None)).
  - done.
  - rewrite reset_caps_rest. intros st1 _. case_match; [|done]. apply Nat.ltb_lt in H. apply IH; lia.
Qed.

(** The fewest characters a match of [r] consumes. *)
Fixpoint min_len (r : regex) : nat :=
  match r with
  | RClass _ => 1
  | RSeq r1 r2 => min_len r1 + min_len r2
  | RAlt r1 r2 => Nat.min (min_len r1) (min_len r2)
  | RGroup _ r1 => min_len r1
  | _ => 0
  end.

(** A successful match hands the continuation a state at least
    [min_len r] characters further on. *)
Lemma mtch_consumes r st k x :
  mtch r st k = Some x ->
  exists st1, k st1 = Some x /\ (String.length (ms_rest st1) + min_len r <= String.length (ms_rest st))%nat.
Proof.
  revert st k x. induction r as [p| | | |r1 IH1 r2 IH2|r1 IH1 r2 IH2|g r1 IH|r1 IH|n r1 IH|n];
    intros st k x Hm; cbn [mtch min_len] in *.
  - destruct st as [prev [|c s] caps]; cbn [ms_rest ms_caps] in *; [done|].
    case_match; [|done]. eexists. split; [exact Hm|simpl; lia].
  - exists st. split; [done|lia].
  - case_match; [|done]. exists st. split; [done|lia].
  - case_match; [|done]. exists st. split; [done|lia].
  - destruct (IH1 _ _ _ Hm) as (st1 & Hm1 & H1). destruct (IH2 _ _ _ Hm1) as (st2 & Hm2 & H2).
    exists st2. split; [done|lia].
  - destruct (mtch r1 st k) as [y|] eqn:E1.
    + injection Hm as <-. destruct (IH1 _ _ _ E1) as (st1 & ? & ?). exists st1. split; [done|lia].
    + destruct (IH2 _ _ _ Hm) as (st1 & ? & ?). exists st1. split; [done|lia].
  - revert Hm. generalize (S (String.length (ms_rest st))) as f. intros f. revert st x.
    induction f as [|f IHf]; intros st x Hm; [done|]. cbn [star_loop] in Hm. cbv zeta in Hm.
    destruct (mtch r1 (reset_caps (groups r1) st) _) as [y|] eqn:E; destruct g;
      try (destruct (k st) eqn:Ek); simplify_eq; try (by exists st; split; [done|lia]).
    all: destruct (IH _ _ _ E) as (st1 & Hst1 & Hl); rewrite reset_caps_rest in Hl;
      case_match; [|done]; apply Nat.ltb_lt in H;
      destruct (IHf _ _ Hst1) as (st2 & ? & ?); exists st2; split; [done|lia].
  - destruct (mtch r1 _ _) as [y|] eqn:E.
    + injection Hm as <-. destruct (IH _ _ _ E) as (st1 & Hst1 & Hl). rewrite reset_caps_rest in Hl.
      case_match; [|done]. exists st1. split; [done|lia].
    + exists st. split; [done|lia].
  - destruct (IH _ _ _ Hm) as (st1 & Hst1 & Hl). eexists. split; [exact Hst1|unfold set_cap; simpl; lia].
  - repeat case_match; try done.
    + eexists. split; [exact Hm|]. pose proof (eat_rest _ _ _ H1). lia.
    + exists st. split; [done|lia].
    + exists st. split; [done|lia].
Qed.

(** [exec] from a position consumes the skipped text and the match. *)
Lemma exec_from_consumes r caps prev s pre st :
  exec_from r caps prev s = Some (pre, st) ->
  (String.length (ms_rest st) + String.length pre + min_len r <= String.length s)%nat.
Proof.
  revert prev pre. induction s as [|c s IH]; intros prev pre; cbn [exec_from];
    destruct (mtch r _ Some) as [st0|] eqn:E.
  all: try (intros [= <- <-]; destruct (mtch_consumes _ _ _ _ E) as (st1 & [= ->] & Hl); simpl in *; lia).
  destruct (exec_from r caps (Some c) s) as [[pre' st']|] eqn:E2; [|done]. intros [= <- ->].
  pose proof (IH _ _ E2). simpl. lia.
Qed.
