(* ===== verification/Dotenv.v ===== *)
(** * Dotenv: the lexing of [.env] by [require("dotenv").config()], index.js line 1

    dotenv's [parse(src)] (lib/main.js, versions 15 to 17): line breaks
    [\r\n] and [\r] become [\n]; then [LINE.exec] runs in a loop, each
    match giving a key (group 1) and a raw value (group 2, [''] when
    absent); the value is trimmed, one pair of surrounding quotes of the
    same kind is removed, and in a value that was double-quoted the
    escapes [\n] and [\r] become line breaks.  [dotenv_lines] is the list
    of (key, value) assignments in file order; Config.v folds them into
    the parsed object ([dotenv_parse]) and populates [process.env].

    The regular expressions are those of the source, as [regex] terms
    run by Regex.v's matcher:
    [LINE = /(?:^|^)\s*(?:export\s+)?([\w.-]+)(?:\s*=\s*?|:\s+?)(Q1|Q2|Q3|[^#\r\n]+)?\s*(?:#.* )?(?:$|$)/mg]
    where [Q1], [Q2], [Q3] stand for [\s*q(?:\\q|[^q])*q], a value
    quoted with [q], for the single quote, the double quote ([dquote])
    and the backtick (a space keeps [*] from [)] in these comments).
    The loop stops when [exec] finds no match; every match consumes a
    key, so it runs at most once per character ([dotenv_exec_fuel]).

    The Section [RenderedLines] reads a file line by line from what one
    line gives; on it rest [dotenv_lines_render] (plain [KEY=value]
    lines), [dotenv_lines_quoted] (quoted values) and
    [dotenv_lines_comments] (inline comments); [dotenv_hash_comment]
    shows a URL fragment cut at its [#]. *)

From S2P Require Import Prelude Js Regex.
From Stdlib Require Import Ascii.

Definition bs : ascii := "092"%char.
Definition dquote : ascii := "034"%char.
Definition lf : ascii := "010"%char.
Definition cr : ascii := "013"%char.

Fixpoint rseq (rs : list regex) : regex :=
  match rs with [] => REmpty | [r] => r | r :: rs' => RSeq r (rseq rs') end.

Definition rchar (c : ascii) : regex := RClass (fun c' => bool_decide (c' = c)).
Definition rnot (cs : list ascii) : regex := RClass (fun c' => bool_decide (c' ∉ cs)).
Definition sp : regex := RClass is_space.

(** [[\w.-]] *)
Definition is_key_char (c : ascii) : bool :=
  let n := nat_of_ascii c in
  ((48 <=? n) && (n <=? 57) || (65 <=? n) && (n <=? 90) || (97 <=? n) && (n <=? 122)
   || (n =? 95) || (n =? 46) || (n =? 45))%nat.

(** [\s*q(?:\\q|[^q])*q]: a value quoted with [q]. *)
Definition quoted (q : ascii) : regex :=
  rseq [RStar true sp; rchar q; RStar true (RAlt (RSeq (rchar bs) (rchar q)) (rnot [q])); rchar q].

Definition dotenv_line : regex :=
  rseq [RAlt RBol RBol;
        RStar true sp;
        ROpt (RSeq (RLit "export") (RPlus true sp));
        RGroup 1 (RPlus true (RClass is_key_char));
        RAlt (rseq [RStar true sp; rchar "="; RStar false sp]) (RSeq (rchar ":") (RPlus false sp));
        ROpt (RGroup 2 (RAlt (quoted "'") (RAlt (quoted dquote) (RAlt (quoted "`") (RPlus true (rnot ["#"%char; cr; lf]))))));
        RStar true sp;
        ROpt (RSeq (rchar "#") (RStar true (RClass (fun c => negb (is_line_terminator c)))));
        RAlt REol REol].

(** [/\r\n?/mg] *)
Definition crlf_regex : regex := RSeq (rchar cr) (ROpt (rchar lf)).

(** [/^([q])([\s\S]* )\1$/mg], [q] the three quotes. *)
Definition quotes_regex : regex :=
  rseq [RBol; RGroup 1 (RClass (fun c => bool_decide (c = "'"%char \/ c = dquote \/ c = "`"%char)));
        RGroup 2 (RStar true (RClass (fun _ => true))); RBackref 1; REol].

Definition cap (caps : list (option string)) (n : nat) : option string := mjoin (caps !! n).

(** The value of one match: trimmed, unquoted, escapes expanded. *)
Definition dotenv_value (raw : option string) : string :=
  let v := js_trim (default EmptyString raw) in
  let maybe_quote := String.get 0 v in
  let v := js_replace quotes_regex 2 (fun caps => default EmptyString (cap caps 2)) v in
  if decide (maybe_quote = Some dquote) then
    js_replace (RSeq (rchar bs) (rchar "r")) 0 (fun _ => String cr EmptyString)
      (js_replace (RSeq (rchar bs) (rchar "n")) 0 (fun _ => String lf EmptyString) v)
  else v.

Definition line_caps0 : list (option string) := [None; None; None].

(** [while ((match = LINE.exec(lines)) != null) { ... }] *)
Fixpoint dotenv_exec (fuel : nat) (prev : option ascii) (s : string) : list (string * string) :=
  match fuel with
  | O => []
  | S f =>
      match exec_from dotenv_line line_caps0 prev s with
      | None => []
      | Some (_, st) =>
          (default EmptyString (cap (ms_caps st) 1), dotenv_value (cap (ms_caps st) 2))
            :: dotenv_exec f (ms_prev st) (ms_rest st)
      end
  end.

Definition normalize_newlines (src : string) : string :=
  js_replace crlf_regex 0 (fun _ => String lf EmptyString) src.

(** The assignments [parse] makes, in order. *)
Definition dotenv_lines (src : string) : list (string * string) :=
  let lines := normalize_newlines src in
  dotenv_exec (S (String.length lines)) None lines.

(** ** Files of rendered lines *)

(** What may follow a line: the end of the file or the next key. *)
Definition head_ok (s : string) : Prop :=
  match s with EmptyString => True | String c _ => is_key_char c = true end.

(** A file of lines, each the rendering [f e] of one entry. *)
Definition render_lines {E} (f : E -> string) (es : list E) : string :=
  foldr (fun e s => f e +:+ s) EmptyString es.

Definition not_cr (c : ascii) : bool := negb (bool_decide (c = cr)).

(** ** A [.env] file of plain assignments *)

Definition value_char (c : ascii) : bool := bool_decide (c ∉ ["#"%char; cr; lf]).
Definition is_quote (c : ascii) : bool := bool_decide (c = "'"%char \/ c = dquote \/ c = "`"%char).

(** [KEY=value]: a key of [[\w.-]] characters, a value without [#] or
    line breaks, without white space around it and not opening with a
    quote. *)
Definition plain_entry (kv : string * string) : Prop :=
  kv.1 <> EmptyString /\ all_chars is_key_char kv.1 = true /\
  kv.2 <> EmptyString /\ all_chars value_char kv.2 = true /\ js_trim kv.2 = kv.2 /\
  (forall c r, kv.2 = String c r -> is_quote c = false).

Definition render_entry (kv : string * string) : string :=
  kv.1 +:+ String "="%char (kv.2 +:+ String lf EmptyString).
Definition render (es : list (string * string)) : string := render_lines render_entry es.

(** [KEY=qvalueq]: a value between quotes [q], holding neither [q], a
    backslash nor a line break; white space, [#] and the other quotes
    are allowed. *)
Definition inner_char (q c : ascii) : bool := bool_decide (c ∉ [q; bs; cr; lf]).

Definition quoted_entry (e : string * ascii * string) : Prop :=
  let '(k, q, v) := e in
  k <> EmptyString /\ all_chars is_key_char k = true /\ is_quote q = true /\ all_chars (inner_char q) v = true.

Definition render_quoted_entry (e : string * ascii * string) : string :=
  let '(k, q, v) := e in k +:+ String "="%char (String q (v +:+ String q (String lf EmptyString))).
Definition render_quoted (es : list (string * ascii * string)) : string := render_lines render_quoted_entry es.

Definition unquoted (e : string * ascii * string) : string * string := let '(k, _, v) := e in (k, v).

(** [KEY=value  #comment]: a plain assignment, spaces, then a comment
    of any characters but line breaks. *)
Definition commented_entry (e : string * string * string * string) : Prop :=
  let '(k, v, sep, c) := e in
  plain_entry (k, v) /\ all_chars (fun x => bool_decide (x = " "%char)) sep = true
  /\ all_chars (fun x => negb (is_line_terminator x)) c = true.

Definition render_commented_entry (e : string * string * string * string) : string :=
  let '(k, v, sep, c) := e in k +:+ String "="%char (v +:+ sep +:+ String "#"%char (c +:+ String lf EmptyString)).
Definition render_commented (es : list (string * string * string * string)) : string :=
  render_lines render_commented_entry es.

Definition uncommented (e : string * string * string * string) : string * string := let '(k, v, _, _) := e in (k, v).

(** ** Lemmas *)

Lemma trim_start_length s : (String.length (trim_start s) <= String.length s)%nat.
Proof. induction s as [|c s IH]; simpl; [lia|]. case_match; simpl; lia. Qed.

Lemma trim_end_length s : (String.length (trim_end s) <= String.length s)%nat.
Proof. induction s as [|c s IH]; simpl; [lia|]. repeat case_match; simpl in *; lia. Qed.

(** A trimmed string does not open with white space. *)
Lemma trimmed_head c r : js_trim (String c r) = String c r -> is_space c = false.
Proof.
  unfold js_trim, is_space. simpl. intros H. destruct (is_js_space c) eqn:Hc; [|done].
  pose proof (trim_end_length (trim_start r)). pose proof (trim_start_length r).
  apply (f_equal String.length) in H. simpl in H. lia.
Qed.

Lemma value_char_not_lt c : value_char c = true -> is_line_terminator c = false.
Proof.
  unfold value_char, is_line_terminator. rewrite bool_decide_eq_true. intros Hc.
  apply bool_decide_eq_false. intros [-> | ->]; apply Hc; set_solver.
Qed.

Lemma adv_value prev c v :
  all_chars value_char (String c v) = true -> exists c', adv prev (String c v) = Some c' /\ is_line_terminator c' = false.
Proof.
  revert prev c. induction v as [|c2 v IH]; intros prev c Hv; simpl in Hv; apply andb_prop in Hv as [Hc Hv].
  - exists c. split; [done|]. by apply value_char_not_lt.
  - destruct (IH (Some c) c2 Hv) as (c' & Hadv & Hc'). by exists c'.
Qed.

Lemma key_char_facts c : is_key_char c = true -> is_space c = false /\ c <> "#"%char /\ is_line_terminator c = false.
Proof. destruct c as [[] [] [] [] [] [] [] []]; vm_compute; intros H; try discriminate H; split_and!; done. Qed.

Lemma quote_char_facts c : is_quote c = false -> c <> "'"%char /\ c <> dquote /\ c <> "`"%char.
Proof. unfold is_quote. rewrite bool_decide_eq_false. tauto. Qed.

(** A value opening neither with white space nor with [q] is not quoted with [q]. *)
Lemma quoted_none q prev c r caps k :
  is_space c = false -> c <> q -> mtch (quoted q) (MState prev (String c r) caps) k = None.
Proof.
  intros Hs Hq. unfold quoted, sp. cbn [rseq]. rewrite mtch_seq, mtch_star_class_stop by done.
  rewrite mtch_seq. apply mtch_class_stop. simpl. by apply bool_decide_eq_false.
Qed.

(** What follows a prefix, without [=], of a key and its [=]. *)
Lemma key_prefix_head k w r s :
  all_chars is_key_char k = true -> all_chars (fun c => negb (bool_decide (c = "="%char))) w = true ->
  k +:+ String "="%char r = w +:+ s ->
  match s with String c _ => is_key_char c = true \/ c = "="%char | EmptyString => False end.
Proof.
  revert k. induction w as [|cw w IH]; intros k Hk Hw Heq.
  - rewrite str_app_nil_l in Heq. subst s. destruct k as [|ck k]; [by right|]. left. by apply andb_prop in Hk as [? _].
  - simpl in Hw. apply andb_prop in Hw as [Hcw Hw]. destruct k as [|ck k].
    + rewrite str_app_nil_l, str_app_cons in Heq. injection Heq as <- _. by rewrite bool_decide_true in Hcw.
    + rewrite !str_app_cons in Heq. injection Heq as <- Heq. simpl in Hk. apply andb_prop in Hk as [_ Hk].
      by apply (IH k).
Qed.

(** [(?:export\s+)?] does not match inside a key followed by [=]. *)
Lemma export_none prev k r caps kont :
  all_chars is_key_char k = true ->
  mtch (RSeq (RLit "export") (RPlus true sp)) (MState prev (k +:+ String "="%char r) caps) kont = None.
Proof.
  intros Hk. rewrite mtch_seq. apply mtch_lit_none; [done|]. intros s prev' Hs. simpl in Hs.
  apply mtch_plus_class_stop. simpl.
  pose proof (key_prefix_head k "export" r s Hk eq_refl Hs) as Hhead.
  destruct s as [|c s]; [done|]. destruct Hhead as [Hc| ->]; [by apply key_char_facts|done].
Qed.

Local Abbreviation trailer :=
  (RSeq (ROpt (RSeq (rchar "#") (RStar true (RClass (fun c => negb (is_line_terminator c)))))) (RAlt REol REol)).

Lemma trailer_eol st : at_eol st = true -> stops (fun c => bool_decide (c = "#"%char)) (ms_rest st) -> mtch trailer st Some = Some st.
Proof.
  intros He Hs. rewrite mtch_seq, mtch_opt_none.
  - apply mtch_alt_l. by rewrite mtch_eol.
  - cbn [groups reset_caps foldr]. rewrite mtch_seq. by apply mtch_class_stop.
Qed.

Lemma trailer_not_eol st : at_eol st = false -> stops (fun c => bool_decide (c = "#"%char)) (ms_rest st) -> mtch trailer st Some = None.
Proof.
  intros He Hs. rewrite mtch_seq, mtch_opt_none.
  - simpl. by rewrite He.
  - cbn [groups reset_caps foldr]. rewrite mtch_seq. by apply mtch_class_stop.
Qed.

Local Abbreviation value_alts_re :=
  (RAlt (quoted "'") (RAlt (quoted dquote) (RAlt (quoted "`") (RPlus true (rnot ["#"%char; cr; lf]))))).

(** [LINE] up to the value: the start of a line, a key and [=], then
    the value and the rest of the line from the first character after
    [=], which is no white space. *)
Lemma line_prefix prev ck k t x :
  (prev = None \/ prev = Some lf) -> all_chars is_key_char (String ck k) = true -> stops is_space t ->
  mtch (RSeq (ROpt (RGroup 2 value_alts_re)) (RSeq (RStar true sp) trailer))
    (MState (Some "="%char) t [None; Some (String ck k); None]) Some = Some x ->
  mtch dotenv_line (MState prev (String ck k +:+ String "="%char t) line_caps0) Some = Some x.
Proof.
  intros Hprev Hk Ht Hx. simpl in Hk. apply andb_prop in Hk as [Hck Hk].
  unfold dotenv_line. cbn [rseq]. rewrite mtch_seq.
  apply mtch_alt_l. rewrite mtch_bol by (by destruct Hprev as [-> | ->]).
  rewrite mtch_seq. unfold sp at 1.
  rewrite mtch_star_class_stop by (cbn [ms_rest]; rewrite str_app_cons; simpl; by apply key_char_facts).
  rewrite mtch_seq, mtch_opt_none by (apply export_none; simpl; by rewrite Hck).
  rewrite mtch_seq, mtch_group.
  apply mtch_plus_class_run; [done|done|reflexivity|]. cbv beta. cbn [ms_rest]. rewrite consumed_app.
  unfold set_cap; cbn [ms_prev ms_rest ms_caps].
  change (<[1:=Some (String ck k)]> line_caps0) with [None; Some (String ck k); None].
  rewrite mtch_seq. apply mtch_alt_l. rewrite mtch_seq. unfold sp at 1.
  rewrite mtch_star_class_stop by reflexivity. cbv beta.
  rewrite mtch_seq. unfold rchar at 1. rewrite mtch_class_cons, bool_decide_true by done.
  unfold sp at 1. rewrite mtch_star_class_stop by exact Ht. exact Hx.
Qed.

(** Group 2 captures [w], whose match ends the value. *)
Lemma value_group ck k t w x :
  mtch value_alts_re (MState (Some "="%char) (w +:+ t) [None; Some (String ck k); None])
    (fun st1 => if (String.length (ms_rest st1) <? String.length (w +:+ t))%nat then
                  mtch (RSeq (RStar true sp) trailer) (set_cap 2 (Some (consumed (w +:+ t) (ms_rest st1))) st1) Some
                else None) = Some x ->
  mtch (RSeq (ROpt (RGroup 2 value_alts_re)) (RSeq (RStar true sp) trailer))
    (MState (Some "="%char) (w +:+ t) [None; Some (String ck k); None]) Some = Some x.
Proof.
  intros Hx. rewrite mtch_seq. apply mtch_opt_some. unfold reset_caps. change (groups _) with [2%nat]. cbn [foldr].
  unfold set_cap at 1; cbn [ms_prev ms_rest ms_caps].
  change (<[2%nat:=None]> [None; Some (String ck k); None]) with [None; Some (String ck k); None].
  rewrite mtch_group. exact Hx.
Qed.

(** After the value: white space up to the line feed ends the line. *)
Lemma line_end_lf p caps rest :
  match rest with EmptyString => True | String c _ => is_key_char c = true end ->
  mtch (RSeq (RStar true sp) trailer) (MState p (String lf rest) caps) Some =
  Some (match rest with EmptyString => MState (Some lf) EmptyString caps | _ => MState p (String lf rest) caps end).
Proof.
  intros Hrest. rewrite mtch_seq. unfold sp at 1. rewrite mtch_star_class_cons by reflexivity.
  destruct rest as [|c r].
  - rewrite (mtch_star_class_stop _ _ (MState (Some lf) EmptyString _)) by done. cbv beta.
    rewrite trailer_eol by done. reflexivity.
  - destruct (key_char_facts c Hrest) as (Hcs & Hch & Hcl).
    rewrite (mtch_star_class_stop _ _ (MState (Some lf) (String c r) _)) by exact Hcs. cbv beta.
    rewrite trailer_not_eol by (simpl; rewrite ?Hcl; try done; by apply bool_decide_eq_false).
    rewrite trailer_eol by done. reflexivity.
Qed.

Lemma line_match prev ck k cv v rest :
  (prev = None \/ prev = Some lf) ->
  plain_entry (String ck k, String cv v) ->
  match rest with EmptyString => True | String c _ => is_key_char c = true end ->
  mtch dotenv_line (MState prev (render_entry (String ck k, String cv v) +:+ rest) line_caps0) Some =
  Some (match rest with
        | EmptyString => MState (Some lf) EmptyString [None; Some (String ck k); Some (String cv v)]
        | _ => MState (adv (Some cv) v) (String lf rest) [None; Some (String ck k); Some (String cv v)]
        end).
Proof.
  intros Hprev (_ & Hk & _ & Hv & Htrim & Hq) Hrest. cbn [fst snd] in *.
  pose proof (trimmed_head cv v ltac:(by rewrite Htrim)) as Hcv.
  destruct (quote_char_facts cv (Hq cv v eq_refl)) as (Hq1 & Hq2 & Hq3).
  assert (Htext : render_entry (String ck k, String cv v) +:+ rest = String ck k +:+ String "="%char (String cv v +:+ String lf rest)).
  { unfold render_entry. cbn [fst snd]. by rewrite str_app_assoc, (str_app_cons "="%char), str_app_assoc. }
  rewrite Htext. apply line_prefix; [done|done|by rewrite str_app_cons|].
  apply value_group. simpl in Hv. apply andb_prop in Hv as [Hcv' Hv].
  rewrite mtch_alt_r by (rewrite str_app_cons; by apply quoted_none).
  rewrite mtch_alt_r by (rewrite str_app_cons; by apply quoted_none).
  rewrite mtch_alt_r by (rewrite str_app_cons; by apply quoted_none).
  apply mtch_plus_class_run; [exact Hcv'|exact Hv|reflexivity|]. cbv beta. cbn [ms_rest].
  rewrite consumed_app, str_length_app. unfold set_cap; cbn [ms_prev ms_rest ms_caps String.length].
  rewrite (proj2 (Nat.ltb_lt _ _)) by lia.
  change (<[2:=Some (String cv v)]> [None; Some (String ck k); None]) with [None; Some (String ck k); Some (String cv v)].
  rewrite line_end_lf by done. by destruct rest.
Qed.

(** After a character that ends no line, [LINE] cannot start. *)
Lemma line_not_bol c s caps k :
  is_line_terminator c = false -> mtch dotenv_line (MState (Some c) s caps) k = None.
Proof.
  intros Hc. unfold dotenv_line. cbn [rseq]. rewrite mtch_seq.
  rewrite mtch_alt_r; simpl; unfold at_bol; cbn [ms_prev]; by rewrite Hc.
Qed.

(** At the end of the text there is no key. *)
Lemma line_at_end prev caps k : mtch dotenv_line (MState prev EmptyString caps) k = None.
Proof.
  unfold dotenv_line. cbn [rseq]. rewrite mtch_seq. cbn [mtch]. unfold at_bol. cbn [ms_prev].
  destruct prev as [c|]; [destruct (is_line_terminator c)|]; reflexivity.
Qed.

Lemma exec_line_skip c rest caps :
  is_line_terminator c = false ->
  exec_from dotenv_line caps (Some c) (String lf rest) =
  match exec_from dotenv_line caps (Some lf) rest with Some (pre, st) => Some (String lf pre, st) | None => None end.
Proof. intros Hc. cbn [exec_from]. by rewrite line_not_bol. Qed.

Lemma exec_line_end caps : exec_from dotenv_line caps (Some lf) EmptyString = None.
Proof. cbn [exec_from]. by rewrite line_at_end. Qed.

Lemma dotenv_exec_skip f c rest :
  is_line_terminator c = false -> dotenv_exec f (Some c) (String lf rest) = dotenv_exec f (Some lf) rest.
Proof.
  intros Hc. destruct f as [|f]; [done|]. cbn [dotenv_exec]. rewrite exec_line_skip by done.
  by destruct (exec_from dotenv_line line_caps0 (Some lf) rest) as [[pre st]|].
Qed.

Lemma quotes_not_bol c s caps k :
  is_line_terminator c = false -> mtch quotes_regex (MState (Some c) s caps) k = None.
Proof. intros Hc. unfold quotes_regex. cbn [rseq]. rewrite mtch_seq. apply mtch_bol_false. exact Hc. Qed.

(** No quote opens the value, and no line starts inside it: nothing to unquote. *)
Lemma unquote_plain_from c s caps :
  is_line_terminator c = false -> all_chars value_char s = true ->
  exec_from quotes_regex caps (Some c) s = None.
Proof.
  revert c. induction s as [|c2 s IH]; intros c Hc Hs; cbn [exec_from]; rewrite quotes_not_bol by done; [done|].
  simpl in Hs. apply andb_prop in Hs as [Hc2 Hs]. by rewrite IH by (done || by apply value_char_not_lt).
Qed.

Lemma dotenv_value_plain k v : plain_entry (k, v) -> dotenv_value (Some v) = v.
Proof.
  intros (_ & _ & Hne & Hv & Htrim & Hq). cbn [snd] in *. destruct v as [|cv v]; [done|].
  destruct (quote_char_facts cv (Hq cv v eq_refl)) as (Hq1 & Hq2 & Hq3).
  simpl in Hv. apply andb_prop in Hv as [Hcv Hv].
  unfold dotenv_value. cbv zeta. cbn [default]. unfold id. rewrite Htrim. cbn [String.get]. rewrite decide_False by congruence.
  unfold js_replace. cbn [replace_all exec_from].
  assert (Hm : mtch quotes_regex (MState None (String cv v) (replicate 3 None)) Some = None).
  { unfold quotes_regex. cbn [rseq]. rewrite mtch_seq, mtch_bol by done. rewrite mtch_seq, mtch_group.
    rewrite mtch_class_cons. rewrite bool_decide_false by tauto. done. }
  rewrite Hm, unquote_plain_from by (done || by apply value_char_not_lt). done.
Qed.

Lemma not_cr_of_not_lt c : is_line_terminator c = false -> not_cr c = true.
Proof. intros Hc. unfold not_cr. apply negb_true_iff, bool_decide_eq_false. intros ->. discriminate Hc. Qed.

(** A text without [\r] has no line break to normalise. *)
Lemma normalize_no_cr s : all_chars not_cr s = true -> normalize_newlines s = s.
Proof.
  intros Hs. unfold normalize_newlines, js_replace. cbn [replace_all].
  assert (Hn : forall prev, exec_from crlf_regex (replicate 1 None) prev s = None).
  { induction s as [|c s IH]; intros prev; cbn [exec_from]; unfold crlf_regex, rchar; rewrite mtch_seq.
    - by rewrite mtch_class_stop.
    - simpl in Hs. apply andb_prop in Hs as [Hc Hs]. rewrite mtch_class_cons.
      unfold not_cr in Hc. apply negb_true_iff in Hc. rewrite Hc, IH by done. done. }
  by rewrite Hn.
Qed.

(** A file whose every line [f e] is read as [out e], the text after it
    being the end of the file or the next key, is read as those
    assignments in order. *)
Section RenderedLines.
Context {E : Type} (f : E -> string) (out : E -> string * string) (P : E -> Prop).
Hypothesis line_step : forall e fuel prev rest, P e -> (prev = None \/ prev = Some lf) -> head_ok rest ->
  dotenv_exec (S fuel) prev (f e +:+ rest) = out e :: dotenv_exec fuel (Some lf) rest.
Hypothesis line_head : forall e, P e -> exists c r, f e = String c r /\ is_key_char c = true.
Hypothesis line_no_cr : forall e, P e -> all_chars not_cr (f e) = true.

Lemma render_lines_cons e es : render_lines f (e :: es) = f e +:+ render_lines f es.
Proof. reflexivity. Qed.

Lemma render_lines_head es : Forall P es -> head_ok (render_lines f es).
Proof.
  destruct es as [|e es]; [done|]. intros [He _]%Forall_cons. destruct (line_head e He) as (c & r & Hf & Hc).
  rewrite render_lines_cons, Hf, str_app_cons. exact Hc.
Qed.

Lemma render_lines_no_cr es : Forall P es -> all_chars not_cr (render_lines f es) = true.
Proof. induction 1 as [|e es He _ IH]; [done|]. by rewrite render_lines_cons, all_chars_app, line_no_cr, IH. Qed.

Lemma render_lines_length es : Forall P es -> (length es <= String.length (render_lines f es))%nat.
Proof.
  induction 1 as [|e es He _ IH]; [simpl; lia|]. rewrite render_lines_cons, str_length_app.
  destruct (line_head e He) as (c & r & -> & _). simpl. lia.
Qed.

Lemma dotenv_exec_lines es fuel prev :
  Forall P es -> (prev = None \/ prev = Some lf) -> (length es < fuel)%nat ->
  dotenv_exec fuel prev (render_lines f es) = map out es.
Proof.
  intros Hes. revert fuel prev. induction Hes as [|e es He Hes IH]; intros fuel prev Hprev Hf;
    (destruct fuel as [|fuel]; [simpl in Hf; lia|]).
  - cbn [render_lines foldr dotenv_exec exec_from]. by rewrite line_at_end.
  - rewrite render_lines_cons, line_step by (done || by apply render_lines_head). cbn [map]. f_equal.
    apply IH; [by right|simpl in Hf; lia].
Qed.

Lemma dotenv_lines_rendered es : Forall P es -> dotenv_lines (render_lines f es) = map out es.
Proof.
  intros Hes. unfold dotenv_lines. rewrite normalize_no_cr by (by apply render_lines_no_cr).
  apply dotenv_exec_lines; [done|by left|]. pose proof (render_lines_length es Hes). lia.
Qed.
End RenderedLines.

Lemma plain_no_cr kv : plain_entry kv -> all_chars not_cr (render_entry kv) = true.
Proof.
  destruct kv as [k v]. intros (_ & Hk & _ & Hv & _). unfold render_entry. cbn [fst snd] in *.
  rewrite all_chars_app. cbn [all_chars]. rewrite all_chars_app. cbn [all_chars].
  rewrite (all_chars_impl is_key_char not_cr) by (done || (intros c Hc; apply not_cr_of_not_lt, (key_char_facts c Hc))).
  rewrite (all_chars_impl value_char not_cr) by (done || (intros c Hc; by apply not_cr_of_not_lt, value_char_not_lt)).
  reflexivity.
Qed.

Lemma plain_head kv : plain_entry kv -> exists c r, render_entry kv = String c r /\ is_key_char c = true.
Proof.
  destruct kv as [[|ck k] v]; intros (Hne & Hk & _); [done|]. simpl in Hk. apply andb_prop in Hk as [Hck _].
  by eexists _, _.
Qed.

(** One plain line is read as its assignment. *)
Lemma plain_step kv fuel prev rest :
  plain_entry kv -> (prev = None \/ prev = Some lf) -> head_ok rest ->
  dotenv_exec (S fuel) prev (render_entry kv +:+ rest) = kv :: dotenv_exec fuel (Some lf) rest.
Proof.
  intros He Hprev Hrest. pose proof He as (Hk0 & _ & Hv0 & Hvc & _).
  destruct kv as [k v]. cbn [fst snd] in *. destruct k as [|ck k]; [done|]. destruct v as [|cv v]; [done|].
  cbn [dotenv_exec]. erewrite exec_from_here by (apply line_match; [done|done|exact Hrest]).
  assert (Hval : dotenv_value (Some (String cv v)) = String cv v) by (eapply dotenv_value_plain; exact He).
  destruct rest as [|c r]; cbn [ms_caps ms_prev ms_rest];
    change (cap [None; Some (String ck k); Some (String cv v)] 1) with (Some (String ck k));
    change (cap [None; Some (String ck k); Some (String cv v)] 2) with (Some (String cv v));
    cbn [default]; rewrite Hval; f_equal.
  destruct (adv_value (Some cv) cv v Hvc) as (c' & Hadv & Hc'). cbn [adv] in Hadv. rewrite Hadv.
  by apply dotenv_exec_skip.
Qed.

(** C23: dotenv reads a [.env] file of plain [KEY=value] lines back as
    exactly those assignments, in order: the regular expressions of
    [parse], run with JavaScript's backtracking, take each key and value
    whole, with no white space, quote or comment handling altering them. *)
Theorem dotenv_lines_render es : Forall plain_entry es -> dotenv_lines (render es) = es.
Proof.
  intros Hes. rewrite <- (map_id es) at 2.
  exact (dotenv_lines_rendered render_entry id plain_entry plain_step plain_head plain_no_cr es Hes).
Qed.

(** The [.env] of a gateway on a local node. *)
Definition sample_env : list (string * string) :=
  [("RPC_URL", "http://127.0.0.1:8545"); ("SIMPLE_STORAGE_ADDRESS", "0x5FbDB2315678afecb367f032d93F642f64180aa3");
   ("PORT", "3001")].

Lemma dotenv_lines_render_witness : Forall plain_entry sample_env /\ dotenv_lines (render sample_env) = sample_env.
Proof.
  assert (H : Forall plain_entry sample_env).
  { unfold sample_env. repeat (apply List.Forall_cons; [unfold plain_entry; simpl; split_and!; try discriminate; try reflexivity;
                                 intros c r [= <- <-]; reflexivity|]).
    constructor. }
  split; [exact H|exact (dotenv_lines_render _ H)].
Defined.

(** ** Quoted values *)

Lemma quote_facts q : is_quote q = true -> is_space q = false /\ q <> bs /\ is_line_terminator q = false.
Proof. unfold is_quote. rewrite bool_decide_eq_true. intros [-> | [-> | ->]]; vm_compute; split_and!; done. Qed.

Local Abbreviation qbody q := (RAlt (RSeq (rchar bs) (rchar q)) (rnot [q])).

(** Inside quotes, a character other than [q] and the backslash is taken alone. *)
Lemma qbody_cons q prev c s caps k :
  c <> bs -> c <> q -> mtch (qbody q) (MState prev (String c s) caps) k = k (MState (Some c) s caps).
Proof.
  intros Hb Hq. rewrite mtch_alt_r.
  - unfold rnot. rewrite mtch_class_cons. by rewrite bool_decide_true by set_solver.
  - rewrite mtch_seq. unfold rchar. rewrite mtch_class_cons. by rewrite bool_decide_false.
Qed.

Lemma qbody_stop q prev s caps k : is_quote q = true -> mtch (qbody q) (MState prev (String q s) caps) k = None.
Proof.
  intros Hq. destruct (quote_facts q Hq) as (_ & Hb & _). rewrite mtch_alt_r.
  - unfold rnot. rewrite mtch_class_cons. by rewrite bool_decide_false by set_solver.
  - rewrite mtch_seq. unfold rchar. rewrite mtch_class_cons. by rewrite bool_decide_false.
Qed.

(** [\s*q(?:\\q|[^q])*q] takes the whole quoted value. *)
Lemma quoted_run q prev v rest caps k x :
  is_quote q = true -> all_chars (inner_char q) v = true -> k (MState (Some q) rest caps) = Some x ->
  mtch (quoted q) (MState prev (String q (v +:+ String q EmptyString) +:+ rest) caps) k = Some x.
Proof.
  intros Hq Hv Hk. destruct (quote_facts q Hq) as (Hs & Hb & _).
  unfold quoted. cbn [rseq]. rewrite mtch_seq, str_app_cons. unfold sp at 1.
  rewrite mtch_star_class_stop by exact Hs.
  rewrite mtch_seq. unfold rchar at 1. rewrite mtch_class_cons, bool_decide_true by done.
  rewrite str_app_assoc, str_app_cons, str_app_nil_l, mtch_seq.
  apply (mtch_star_like_run _ (inner_char q)); [reflexivity| |done| |].
  - intros prev' c s' caps' k' Hc. unfold inner_char in Hc. apply bool_decide_eq_true in Hc.
    apply qbody_cons; set_solver.
  - intros prev' k'. by apply qbody_stop.
  - unfold rchar. rewrite mtch_class_cons, bool_decide_true by done. exact Hk.
Qed.

(** The alternatives of group 2 take a quoted value with its own quote. *)
Lemma value_alts q prev w caps k x :
  is_quote q = true -> mtch (quoted q) (MState prev (String q w) caps) k = Some x ->
  mtch (RAlt (quoted "'") (RAlt (quoted dquote) (RAlt (quoted "`") (RPlus true (rnot ["#"%char; cr; lf])))))
    (MState prev (String q w) caps) k = Some x.
Proof.
  intros Hq H. destruct (quote_facts q Hq) as (Hs & _). unfold is_quote in Hq.
  apply bool_decide_eq_true in Hq as [-> | [-> | ->]].
  - by apply mtch_alt_l.
  - rewrite mtch_alt_r by (by apply quoted_none). by apply mtch_alt_l.
  - rewrite mtch_alt_r by (by apply quoted_none). rewrite mtch_alt_r by (by apply quoted_none). by apply mtch_alt_l.
Qed.

Lemma line_match_quoted prev ck k q v rest :
  (prev = None \/ prev = Some lf) -> all_chars is_key_char (String ck k) = true -> is_quote q = true ->
  all_chars (inner_char q) v = true ->
  match rest with EmptyString => True | String c _ => is_key_char c = true end ->
  mtch dotenv_line (MState prev (render_quoted_entry (String ck k, q, v) +:+ rest) line_caps0) Some =
  Some (match rest with
        | EmptyString => MState (Some lf) EmptyString [None; Some (String ck k); Some (String q (v +:+ String q EmptyString))]
        | _ => MState (Some q) (String lf rest) [None; Some (String ck k); Some (String q (v +:+ String q EmptyString))]
        end).
Proof.
  intros Hprev Hk Hq Hv Hrest. destruct (quote_facts q Hq) as (Hqs & _ & Hql).
  assert (Htext : render_quoted_entry (String ck k, q, v) +:+ rest
                  = String ck k +:+ String "="%char (String q (v +:+ String q EmptyString) +:+ String lf rest)).
  { unfold render_quoted_entry. by str_simpl. }
  rewrite Htext. apply line_prefix; [done|done|by rewrite str_app_cons|].
  apply value_group.
  rewrite str_app_cons. apply value_alts; [done|]. rewrite <- str_app_cons.
  apply quoted_run; [done|done|]. cbn [ms_rest].
  rewrite consumed_app, str_length_app. unfold set_cap; cbn [ms_prev ms_rest ms_caps String.length].
  rewrite (proj2 (Nat.ltb_lt _ _)) by lia.
  change (<[2:=Some (String q (v +:+ String q EmptyString))]> [None; Some (String ck k); None])
    with [None; Some (String ck k); Some (String q (v +:+ String q EmptyString))].
  rewrite line_end_lf by done. by destruct rest.
Qed.

Lemma trim_end_last w d : is_js_space d = false -> trim_end (w +:+ String d EmptyString) = w +:+ String d EmptyString.
Proof.
  intros Hd. induction w as [|c w IH]; [simpl; by rewrite Hd|].
  rewrite str_app_cons. simpl. rewrite IH. destruct w; reflexivity.
Qed.

Lemma js_trim_quoted q v : is_quote q = true -> js_trim (String q (v +:+ String q EmptyString)) = String q (v +:+ String q EmptyString).
Proof.
  intros Hq. destruct (quote_facts q Hq) as (Hs & _). unfold is_space in Hs. unfold js_trim. simpl. rewrite Hs.
  rewrite <- str_app_cons. by apply trim_end_last.
Qed.

(** The quotes around a quoted value are removed, and nothing else. *)
Lemma unquote_quoted q v :
  is_quote q = true -> all_chars (inner_char q) v = true ->
  js_replace quotes_regex 2 (fun caps => default EmptyString (cap caps 2)) (String q (v +:+ String q EmptyString)) = v.
Proof.
  intros Hq Hv. destruct (quote_facts q Hq) as (_ & _ & Hql).
  assert (Hm : mtch quotes_regex (MState None (String q (v +:+ String q EmptyString)) (replicate 3 None)) Some
               = Some (MState (Some q) EmptyString [None; Some (String q EmptyString); Some v])).
  { unfold quotes_regex. cbn [rseq]. rewrite mtch_seq, mtch_bol by done. rewrite mtch_seq, mtch_group, mtch_class_cons.
    rewrite bool_decide_true by (unfold is_quote in Hq; by apply bool_decide_eq_true in Hq). cbv beta.
    unfold set_cap; cbn [ms_prev ms_rest ms_caps].
    replace (consumed (String q (v +:+ String q EmptyString)) (v +:+ String q EmptyString)) with (String q EmptyString)
      by (unfold consumed; cbn [String.length]; rewrite Nat.sub_succ_l, Nat.sub_diag by lia; by destruct v).
    change (<[1:=Some (String q EmptyString)]> (replicate 3 None)) with [None; Some (String q EmptyString); None].
    rewrite mtch_seq, mtch_group. apply mtch_star_class_back.
    - generalize (v +:+ String q EmptyString). intros s. by induction s.
    - intros s1 s2 prev' Hs Hne. destruct s1 as [|c1 [|c2 s1]]; [done| |by destruct s2].
      rewrite str_app_cons, str_app_nil_l in Hs. injection Hs as _ <-. reflexivity.
    - cbv beta. cbn [ms_rest]. rewrite consumed_app. unfold set_cap; cbn [ms_prev ms_rest ms_caps].
      simpl. rewrite decide_True by done. reflexivity. }
  unfold js_replace. cbn [String.length replace_all]. rewrite (exec_from_here _ _ _ _ _ Hm).
  cbn [ms_caps ms_rest ms_prev String.length]. rewrite (proj2 (Nat.eqb_neq _ _)) by lia.
  destruct (String.length v); cbn [replace_all exec_from mtch quotes_regex rseq at_bol ms_prev]; rewrite ?Hql;
    cbn [cap]; by rewrite ?str_app_nil_l, ?str_app_nil_r.
Qed.

Lemma exec_bs_none r2 caps prev s :
  all_chars (fun c => bool_decide (c <> bs)) s = true -> exec_from (RSeq (rchar bs) r2) caps prev s = None.
Proof.
  revert prev. induction s as [|c s IH]; intros prev Hs; cbn [exec_from]; rewrite mtch_seq; unfold rchar at 1.
  - by rewrite mtch_class_stop.
  - simpl in Hs. apply andb_prop in Hs as [Hc Hs]. apply bool_decide_eq_true in Hc.
    rewrite mtch_class_cons, bool_decide_false by done. by rewrite IH.
Qed.

(** Without a backslash there is no escape to expand. *)
Lemma js_replace_no_bs r2 n repl s :
  all_chars (fun c => bool_decide (c <> bs)) s = true -> js_replace (RSeq (rchar bs) r2) n repl s = s.
Proof. intros Hs. unfold js_replace. cbn [replace_all]. by rewrite exec_bs_none. Qed.

Lemma dotenv_value_quoted q v :
  is_quote q = true -> all_chars (inner_char q) v = true -> dotenv_value (Some (String q (v +:+ String q EmptyString))) = v.
Proof.
  intros Hq Hv. unfold dotenv_value. cbv zeta. cbn [default]. unfold id. rewrite js_trim_quoted by done. cbn [String.get].
  rewrite unquote_quoted by done.
  assert (Hb : all_chars (fun c => bool_decide (c <> bs)) v = true).
  { apply (all_chars_impl (inner_char q)); [|done]. intros c Hc. unfold inner_char in Hc.
    apply bool_decide_eq_true in Hc. apply bool_decide_eq_true. set_solver. }
  case_decide; [|done]. by rewrite !(js_replace_no_bs _ _ _ v Hb).
Qed.

Lemma quoted_no_cr e : quoted_entry e -> all_chars not_cr (render_quoted_entry e) = true.
Proof.
  destruct e as [[k q] v]. intros (_ & Hk & Hq & Hv). unfold render_quoted_entry.
  destruct (quote_facts q Hq) as (_ & _ & Hql).
  rewrite all_chars_app. cbn [all_chars]. rewrite all_chars_app. cbn [all_chars]. rewrite !(not_cr_of_not_lt q Hql).
  rewrite (all_chars_impl is_key_char not_cr) by (done || (intros c Hc; apply not_cr_of_not_lt, (key_char_facts c Hc))).
  rewrite (all_chars_impl (inner_char q) not_cr) by (done || (intros c Hc; unfold inner_char in Hc;
    apply bool_decide_eq_true in Hc; unfold not_cr; apply negb_true_iff, bool_decide_eq_false; set_solver)).
  reflexivity.
Qed.

Lemma quoted_head e : quoted_entry e -> exists c r, render_quoted_entry e = String c r /\ is_key_char c = true.
Proof.
  destruct e as [[[|ck k] q] v]; intros (Hne & Hk & _); [done|]. simpl in Hk. apply andb_prop in Hk as [Hck _].
  by eexists _, _.
Qed.

(** One quoted line is read as its key and the value between the quotes. *)
Lemma quoted_step e fuel prev rest :
  quoted_entry e -> (prev = None \/ prev = Some lf) -> head_ok rest ->
  dotenv_exec (S fuel) prev (render_quoted_entry e +:+ rest) = unquoted e :: dotenv_exec fuel (Some lf) rest.
Proof.
  destruct e as [[k q] v]. intros (Hk0 & Hk & Hq & Hv) Hprev Hrest. destruct k as [|ck k]; [done|].
  destruct (quote_facts q Hq) as (_ & _ & Hql).
  cbn [dotenv_exec]. erewrite exec_from_here by (apply line_match_quoted; [done|done|done|done|exact Hrest]).
  destruct rest as [|c r]; cbn [ms_caps ms_prev ms_rest];
    change (cap [None; Some (String ck k); Some (String q (v +:+ String q EmptyString))] 1) with (Some (String ck k));
    change (cap [None; Some (String ck k); Some (String q (v +:+ String q EmptyString))] 2)
      with (Some (String q (v +:+ String q EmptyString)));
    cbn [default unquoted]; rewrite dotenv_value_quoted by done; f_equal.
  by apply dotenv_exec_skip.
Qed.

(** C31: dotenv reads a [.env] file of quoted assignments [KEY='value'],
    [KEY="value"] or [KEY=`value`] as exactly those keys and values, in
    order: the quotes are removed and everything between them is kept,
    white space at either end, [#] (a comment outside quotes), [=] and
    the other two quote characters included. *)
Theorem dotenv_lines_quoted es : Forall quoted_entry es -> dotenv_lines (render_quoted es) = map unquoted es.
Proof.
  intros Hes. exact (dotenv_lines_rendered render_quoted_entry unquoted quoted_entry quoted_step quoted_head quoted_no_cr es Hes).
Qed.

(** A key quoted with single quotes and a greeting whose double quotes
    keep a [#], inner single quotes and the spaces around it. *)
Definition sample_quoted : list (string * ascii * string) :=
  [("PRIVATE_KEY", "'"%char, "0xac0974bec39a17e36ba4a6b4d238ff944bacb478cbed5efcae784d7bf4f2ff80");
   ("GREETING", dquote, " up # 'now' ")].

Lemma dotenv_lines_quoted_witness :
  Forall quoted_entry sample_quoted /\ dotenv_lines (render_quoted sample_quoted) = map unquoted sample_quoted.
Proof.
  assert (H : Forall quoted_entry sample_quoted).
  { unfold sample_quoted.
    repeat (apply List.Forall_cons; [split_and!; [discriminate|reflexivity|reflexivity|reflexivity]|]).
    constructor. }
  split; [exact H|exact (dotenv_lines_quoted _ H)].
Defined.

(** ** Inline comments *)

(** The optional comment of [LINE] takes the rest of the line. *)
Lemma trailer_comment p c rest caps :
  all_chars (fun x => negb (is_line_terminator x)) c = true ->
  mtch trailer (MState p (String "#"%char (c +:+ String lf rest)) caps) Some
  = Some (MState (adv (Some "#"%char) c) (String lf rest) caps).
Proof.
  intros Hc. rewrite mtch_seq. apply mtch_opt_some. unfold rchar. cbn [groups reset_caps foldr app].
  rewrite mtch_seq, mtch_class_cons, bool_decide_true by done.
  apply mtch_star_class_run; [done|reflexivity|]. cbn [ms_rest String.length]. rewrite str_length_app.
  cbn [String.length]. rewrite (proj2 (Nat.ltb_lt _ _)) by lia. apply mtch_alt_l. by rewrite mtch_eol.
Qed.

Lemma line_match_commented prev ck k cv v sep c rest :
  (prev = None \/ prev = Some lf) -> plain_entry (String ck k, String cv v) ->
  all_chars (fun x => bool_decide (x = " "%char)) sep = true ->
  all_chars (fun x => negb (is_line_terminator x)) c = true ->
  mtch dotenv_line (MState prev (render_commented_entry (String ck k, String cv v, sep, c) +:+ rest) line_caps0) Some =
  Some (MState (adv (Some "#"%char) c) (String lf rest) [None; Some (String ck k); Some (String cv v +:+ sep)]).
Proof.
  intros Hprev (_ & Hk & _ & Hv & Htrim & Hq) Hsep Hc. cbn [fst snd] in *.
  pose proof (trimmed_head cv v ltac:(by rewrite Htrim)) as Hcv.
  destruct (quote_char_facts cv (Hq cv v eq_refl)) as (Hq1 & Hq2 & Hq3).
  assert (Htext : render_commented_entry (String ck k, String cv v, sep, c) +:+ rest
                  = String ck k +:+ String "="%char (String cv (v +:+ sep) +:+ String "#"%char (c +:+ String lf rest))).
  { unfold render_commented_entry. by str_simpl. }
  rewrite Htext. apply line_prefix; [done|done|rewrite str_app_cons; exact Hcv|].
  apply value_group.
  rewrite mtch_alt_r by (rewrite str_app_cons; by apply quoted_none).
  rewrite mtch_alt_r by (rewrite str_app_cons; by apply quoted_none).
  rewrite mtch_alt_r by (rewrite str_app_cons; by apply quoted_none).
  simpl in Hv. apply andb_prop in Hv as [Hcv' Hv].
  apply mtch_plus_class_run; [exact Hcv'| |reflexivity|].
  { rewrite all_chars_app. apply andb_true_intro. split; [exact Hv|].
    refine (all_chars_impl _ _ _ _ Hsep). intros x Hx. apply bool_decide_eq_true in Hx. subst x. reflexivity. }
  cbv beta. cbn [ms_rest]. rewrite consumed_app, str_length_app. unfold set_cap; cbn [ms_prev ms_rest ms_caps].
  change (String.length (String cv (v +:+ sep))) with (S (String.length (v +:+ sep))).
  rewrite (proj2 (Nat.ltb_lt _ _)) by lia.
  change (<[2:=Some (String cv (v +:+ sep))]> [None; Some (String ck k); None])
    with [None; Some (String ck k); Some (String cv (v +:+ sep))].
  rewrite mtch_seq. unfold sp at 1. rewrite mtch_star_class_stop by reflexivity. cbv beta.
  rewrite trailer_comment by done. reflexivity.
Qed.

(** Trailing spaces go with [trim]. *)
Lemma trim_end_spaces w sep :
  all_chars (fun x => bool_decide (x = " "%char)) sep = true -> trim_end (w +:+ sep) = trim_end w.
Proof.
  intros Hsep. induction w as [|c w IH].
  - rewrite str_app_nil_l. induction sep as [|d sep IHs]; [done|]. simpl in Hsep.
    apply andb_prop in Hsep as [Hd Hsep]. apply bool_decide_eq_true in Hd. subst d. simpl. by rewrite IHs.
  - rewrite str_app_cons. simpl. by rewrite IH.
Qed.

Lemma dotenv_value_spaces cv v sep :
  is_space cv = false -> all_chars (fun x => bool_decide (x = " "%char)) sep = true ->
  dotenv_value (Some (String cv v +:+ sep)) = dotenv_value (Some (String cv v)).
Proof.
  intros Hcv Hsep. unfold is_space in Hcv. unfold dotenv_value. cbn [default]. unfold id.
  assert (Ht : js_trim (String cv v +:+ sep) = js_trim (String cv v)).
  { unfold js_trim. rewrite str_app_cons. simpl. rewrite Hcv, <- str_app_cons. by apply trim_end_spaces. }
  by rewrite Ht.
Qed.

Lemma adv_not_lt p c :
  is_line_terminator p = false -> all_chars (fun x => negb (is_line_terminator x)) c = true ->
  exists p', adv (Some p) c = Some p' /\ is_line_terminator p' = false.
Proof.
  revert p. induction c as [|d c IH]; intros p Hp Hc; [by exists p|]. simpl in Hc.
  apply andb_prop in Hc as [Hd Hc]. apply negb_true_iff in Hd. exact (IH d Hd Hc).
Qed.

Lemma commented_no_cr e : commented_entry e -> all_chars not_cr (render_commented_entry e) = true.
Proof.
  destruct e as [[[k v] sep] c]. intros ((_ & Hk & _ & Hv & _) & Hsep & Hc). unfold render_commented_entry.
  cbn [fst snd] in *. rewrite all_chars_app. cbn [all_chars]. rewrite !all_chars_app. cbn [all_chars]. rewrite all_chars_app.
  cbn [all_chars].
  rewrite (all_chars_impl is_key_char not_cr) by (done || (intros x Hx; apply not_cr_of_not_lt, (key_char_facts x Hx))).
  rewrite (all_chars_impl value_char not_cr) by (done || (intros x Hx; by apply not_cr_of_not_lt, value_char_not_lt)).
  rewrite (all_chars_impl (fun x => bool_decide (x = " "%char)) not_cr sep) by (done || (intros x Hx; apply bool_decide_eq_true in Hx; by subst x)).
  rewrite (all_chars_impl (fun x => negb (is_line_terminator x)) not_cr c) by (done || (intros x Hx; apply negb_true_iff in Hx; by apply not_cr_of_not_lt)).
  reflexivity.
Qed.

Lemma commented_head e : commented_entry e -> exists c r, render_commented_entry e = String c r /\ is_key_char c = true.
Proof.
  destruct e as [[[[|ck k] v] sep] c]; intros ((Hne & Hk & _) & _); [done|]. simpl in Hk.
  apply andb_prop in Hk as [Hck _]. by eexists _, _.
Qed.

(** One line with a comment is read as its assignment. *)
Lemma commented_step e fuel prev rest :
  commented_entry e -> (prev = None \/ prev = Some lf) -> head_ok rest ->
  dotenv_exec (S fuel) prev (render_commented_entry e +:+ rest) = uncommented e :: dotenv_exec fuel (Some lf) rest.
Proof.
  destruct e as [[[k v] sep] c]. intros (He & Hsep & Hc) Hprev Hrest. pose proof He as (Hk0 & _ & Hv0 & _ & Htrim & _).
  cbn [fst snd] in *. destruct k as [|ck k]; [done|]. destruct v as [|cv v]; [done|].
  pose proof (trimmed_head cv v ltac:(by rewrite Htrim)) as Hcv.
  cbn [dotenv_exec]. erewrite exec_from_here by (apply line_match_commented; done).
  cbn [ms_caps ms_prev ms_rest].
  change (cap [None; Some (String ck k); Some (String cv v +:+ sep)] 1) with (Some (String ck k)).
  change (cap [None; Some (String ck k); Some (String cv v +:+ sep)] 2) with (Some (String cv v +:+ sep)).
  cbn [default uncommented]. rewrite dotenv_value_spaces, (dotenv_value_plain (String ck k)) by done. f_equal.
  destruct (adv_not_lt "#"%char c eq_refl Hc) as (p' & -> & Hp'). by apply dotenv_exec_skip.
Qed.

(** C32: an inline comment is not part of the value: a [.env] of lines
    [KEY=value #comment], with any spaces (or none) before the [#] and
    any text after it, quotes, [=] and [#] included, reads as the plain
    assignments [KEY=value] in order. *)
Theorem dotenv_lines_comments es : Forall commented_entry es -> dotenv_lines (render_commented es) = map uncommented es.
Proof.
  intros Hes.
  exact (dotenv_lines_rendered render_commented_entry uncommented commented_entry commented_step commented_head
           commented_no_cr es Hes).
Qed.

(** The URL of a node with an inline note, and a port whose comment
    holds quotes and a second [#]. *)
Definition sample_commented : list (string * string * string * string) :=
  [("RPC_URL", "http://127.0.0.1:8545", "  ", " local node");
   ("PORT", "3001", "", "default = 3001 # 'api'")].

Lemma dotenv_lines_comments_witness :
  Forall commented_entry sample_commented /\ dotenv_lines (render_commented sample_commented) = map uncommented sample_commented.
Proof.
  assert (H : Forall commented_entry sample_commented).
  { unfold sample_commented.
    repeat (apply List.Forall_cons; [split_and!; [unfold plain_entry; simpl; split_and!; try discriminate; try reflexivity;
                                                  intros c r [= <- <-]; reflexivity|reflexivity|reflexivity]|]).
    constructor. }
  split; [exact H|exact (dotenv_lines_comments _ H)].
Defined.

(** ** Fuel *)

(** Every match consumes at least the key's first character and the
    separator. *)
Lemma dotenv_line_min_len : min_len dotenv_line = 2%nat.
Proof. reflexivity. Qed.

(** Any fuel above the length of the text gives the same assignments: the
    loop of [parse] runs fewer times than there are characters. *)
Lemma dotenv_exec_fuel f1 f2 prev s :
  (String.length s < f1)%nat -> (String.length s < f2)%nat -> dotenv_exec f1 prev s = dotenv_exec f2 prev s.
Proof.
  induction f1 as [|f1 IH] in f2, prev, s |- *; intros H1 H2; [lia|]. destruct f2 as [|f2]; [lia|].
  cbn [dotenv_exec]. destruct (exec_from dotenv_line line_caps0 prev s) as [[pre st]|] eqn:E; [|done].
  pose proof (exec_from_consumes _ _ _ _ _ _ E) as Hc. rewrite dotenv_line_min_len in Hc.
  f_equal. apply IH; lia.
Qed.

(** [dotenv_lines] does not depend on the fuel it is given. *)
Lemma dotenv_lines_fuel src f :
  (String.length (normalize_newlines src) < f)%nat -> dotenv_lines src = dotenv_exec f None (normalize_newlines src).
Proof. intros Hf. apply dotenv_exec_fuel; lia. Qed.

(** An unquoted value ends at [#]: the rest of the line is a comment,
    so a URL with a fragment loses it unless the value is quoted. *)
Example dotenv_hash_comment :
  dotenv_lines "RPC_URL=http://node.local/#main" = [("RPC_URL", "http://node.local/")]
  /\ dotenv_lines ("RPC_URL=" +:+ String dquote ("http://node.local/#main" +:+ String dquote EmptyString))
     = [("RPC_URL", "http://node.local/#main")].
Proof. split; vm_compute; reflexivity. Qed.
