(* ===== verification/Contract.v ===== *)
(** * Contract: SimpleStorage and its ABI, byte by byte

    The gateway talks to the contract through ABI-encoded bytes: ethers
    encodes [contract.set(value)] as calldata (the 4-byte selector of
    [set(uint256)] and one 32-byte word), and decodes the bytes
    [eth_call] returns for [contract.get()] as one [uint256] word.

    - [encode_word]/[decode_word]: a [uint256] as 32 bytes, most
      significant first (ethers' [NumberCoder], Solidity's decoder), by
      way of coqutil's little-endian [le_split]/[le_combine].
    - [SimpleStorage]: the contract (its Solidity source and the ABI file
      [simpleStorageAbi] are not in the repository; they are modelled
      from the spec: one stored [uint256], [set] writes it, [get] reads
      it), with the dispatcher solc generates for it ([dispatch]) and
      the effect of a transaction ([execute]; [None]: it reverts).
    - [set_calldata] and [decode_get_result]: ethers' side of the ABI
      ([Interface.encodeFunctionData] and [decodeFunctionResult]).

    The selectors are the first four bytes of keccak256 of
    ["set(uint256)"] and ["get()"]; keccak itself is not modelled. *)

From coqutil Require Import Byte Word.LittleEndianList.
From S2P Require Import Prelude Js Task.

#[export] Instance byte_eq_dec : EqDecision byte := Byte.byte_eq_dec.

(** ** ABI words *)

Definition encode_word (z : Z) : list byte := rev (le_split 32 z).
Definition decode_word (w : list byte) : Z := le_combine (rev w).

Module SimpleStorage.
Record state := State { storedData : Z }.
(** [constructor()]: storage starts at zero. *)
Definition init : state := State 0.
(** [function set(uint256 x) public { storedData = x; }] *)
Definition set (x : Z) (s : state) : state := State x.
(** [function get() public view returns (uint256)] *)
Definition get (s : state) : Z := storedData s.

Definition set_selector : list byte := [Byte.x60; Byte.xfe; Byte.x47; Byte.xb1].
Definition get_selector : list byte := [Byte.x6d; Byte.x4c; Byte.xe6; Byte.x3c].

Inductive call := CallSet (x : Z) | CallGetter.

(** The dispatcher: fewer than four bytes or an unknown selector revert
    (the contract has no fallback); [set] reverts when its argument
    word is incomplete, and ignores bytes after it. *)
Definition dispatch (data : list byte) : option call :=
  if decide (take 4 data = set_selector) then
    if decide (36 <= length data)%nat then Some (CallSet (decode_word (take 32 (drop 4 data))))
    else None
  else if decide (take 4 data = get_selector) then Some CallGetter
  else None.

(** A transaction with calldata [data]: the new storage, or [None] when
    it reverts. *)
Definition execute (data : list byte) (s : state) : option state :=
  match dispatch data with
  | Some (CallSet x) => Some (set x s)
  | Some CallGetter => Some s
  | None => None
  end.

(** What [eth_call] of [get()] returns. *)
Definition get_return (s : state) : list byte := encode_word (get s).
End SimpleStorage.

(** ** ethers' side of the ABI *)

(** [contract.set(x)] after [x] passed the [uint256] coder. *)
Definition set_calldata (x : Z) : list byte := SimpleStorage.set_selector ++ encode_word x.

Definition bad_data (msg : string) : jserror := JsError BadData msg.

(** [Interface.decodeFunctionResult] for [get() returns (uint256)]: the
    data must be whole words, at least one; the first is the value. *)
Definition decode_get_result (data : list byte) : result Z :=
  if decide (length data mod 32 = 0)%nat then
    match data with
    | [] => Err (bad_data "could not decode result data")
    | _ => Ok (decode_word (take 32 data))
    end
  else Err (bad_data "invalid length for result data").

(** ** Words *)

Lemma encode_word_length z : length (encode_word z) = 32%nat.
Proof. unfold encode_word. by rewrite length_rev, length_le_split. Qed.

Lemma decode_word_range w : 0 <= decode_word w < 2 ^ (8 * Z.of_nat (length w)).
Proof. unfold decode_word. rewrite <- (length_rev w). apply le_combine_bound. Qed.

(** A word read from at most 32 bytes is a [uint256]. *)
Lemma decode_word_uint256 w : (length w <= 32)%nat -> 0 <= decode_word w < 2 ^ 256.
Proof.
  intros Hl. pose proof (decode_word_range w) as [H0 H1]. split; [done|].
  eapply Z.lt_le_trans; [exact H1|]. apply Z.pow_le_mono_r; lia.
Qed.

Lemma decode_encode_word z : decode_word (encode_word z) = z mod 2 ^ 256.
Proof. unfold decode_word, encode_word. by rewrite rev_involutive, le_combine_split. Qed.

Lemma decode_encode_word_small z : 0 <= z < 2 ^ 256 -> decode_word (encode_word z) = z.
Proof. intros. rewrite decode_encode_word. by apply Z.mod_small. Qed.

Lemma encode_decode_word w : length w = 32%nat -> encode_word (decode_word w) = w.
Proof.
  intros Hl. unfold decode_word, encode_word.
  rewrite split_le_combine' by (by rewrite length_rev). apply rev_involutive.
Qed.


(** ** The two sides of the ABI agree *)

(** The calldata ethers builds for [set(x)] is dispatched by the
    contract as [set(x)], for every [uint256] [x]. *)
Lemma dispatch_set_calldata z :
  0 <= z < 2 ^ 256 -> SimpleStorage.dispatch (set_calldata z) = Some (SimpleStorage.CallSet z).
Proof.
  intros Hz. unfold SimpleStorage.dispatch, set_calldata.
  rewrite take_app_length' by done. rewrite decide_True by done.
  rewrite decide_True by (rewrite length_app, encode_word_length; simpl; lia).
  rewrite drop_app_length' by done. rewrite take_ge by (rewrite encode_word_length; lia).
  by rewrite decode_encode_word_small.
Qed.

(** Whatever the calldata, a [set] the contract runs stores a [uint256]. *)
Lemma dispatch_set_range data x :
  SimpleStorage.dispatch data = Some (SimpleStorage.CallSet x) -> 0 <= x < 2 ^ 256.
Proof.
  unfold SimpleStorage.dispatch. repeat case_decide; intros [= <-]; try done.
  apply decode_word_uint256. rewrite length_take. lia.
Qed.

Lemma execute_set_calldata z s :
  0 <= z < 2 ^ 256 -> SimpleStorage.execute (set_calldata z) s = Some (SimpleStorage.set z s).
Proof. intros Hz. unfold SimpleStorage.execute. by rewrite dispatch_set_calldata. Qed.

Lemma decode_get_result_word w : length w = 32%nat -> decode_get_result w = Ok (decode_word w).
Proof.
  intros Hl. unfold decode_get_result. rewrite decide_True by (rewrite Hl; done).
  destruct w as [|b w']; [done|]. rewrite take_ge; [done|]. rewrite Hl. lia.
Qed.

(** ethers reads back what [get()] returns, for every [uint256] held. *)
Lemma decode_get_return s :
  0 <= SimpleStorage.get s < 2 ^ 256 ->
  decode_get_result (SimpleStorage.get_return s) = Ok (SimpleStorage.get s).
Proof.
  intros Hs. unfold SimpleStorage.get_return.
  rewrite decode_get_result_word by apply encode_word_length. by rewrite decode_encode_word_small.
Qed.

(** The reply of [get()] as ethers decodes it: a first word followed
    by whole words reads as that word. *)
Lemma decode_get_result_word_app z rest :
  0 <= z < 2 ^ 256 -> (length rest mod 32 = 0)%nat -> decode_get_result (encode_word z ++ rest) = Ok z.
Proof.
  intros Hz Hr. unfold decode_get_result. rewrite length_app, encode_word_length.
  rewrite decide_True by (rewrite <- Nat.Div0.add_mod_idemp_r, Hr; done).
  destruct (encode_word z ++ rest) as [|b l] eqn:E; [by apply (f_equal length) in E; rewrite length_app, encode_word_length in E|].
  rewrite <- E, (take_app_length' (encode_word z)) by (by rewrite encode_word_length). by rewrite decode_encode_word_small.
Qed.

(** Every reply falls in one of three cases: whole words, the first
    one a [uint256] [z], read as [z]; no bytes at all, [BAD_DATA] "could
    not decode"; a length that is not a multiple of 32, [BAD_DATA]
    "invalid length". *)
Lemma decode_get_result_cases data :
  (exists z rest, data = encode_word z ++ rest /\ 0 <= z < 2 ^ 256 /\ (length rest mod 32 = 0)%nat
                  /\ decode_get_result data = Ok z)
  \/ (data = [] /\ decode_get_result data = Err (bad_data "could not decode result data"))
  \/ ((length data mod 32 <> 0)%nat /\ decode_get_result data = Err (bad_data "invalid length for result data")).
Proof.
  destruct (decide (length data mod 32 = 0)%nat) as [Hm|Hm].
  - destruct data as [|b l] eqn:E; [right; left; by split|left].
    rewrite <- E in *. assert (32 <= length data)%nat.
    { destruct (decide (length data < 32)%nat); [|lia]. rewrite Nat.mod_small in Hm by lia. subst. simpl in Hm. lia. }
    exists (decode_word (take 32 data)), (drop 32 data).
    assert (Hw : encode_word (decode_word (take 32 data)) = take 32 data) by (apply encode_decode_word; rewrite length_take; lia).
    split; [by rewrite Hw, take_drop|]. split; [apply decode_word_uint256; rewrite length_take; lia|]. split.
    + rewrite length_drop. replace (length data) with (32 + (length data - 32))%nat in Hm by lia.
      by rewrite <- Nat.Div0.add_mod_idemp_l in Hm.
    + unfold decode_get_result. rewrite decide_True by done. by rewrite E.
  - right; right. split; [done|]. unfold decode_get_result. by rewrite decide_False.
Qed.

#[global] Arguments encode_word : simpl never.
#[global] Arguments decode_get_result : simpl never.
#[global] Arguments SimpleStorage.dispatch : simpl never.
