(* ===== verification/Rpc.v ===== *)
(** * Rpc: the JSON-RPC calls the program makes to the Ethereum node

    The gateway's contract binding and wallet ([src/api/src/index.js],
    lines 20-35) reach the node at [RPC_URL] through these calls only.
    Transactions are the API wallet's calls of the contract; a
    transaction is identified by its signed content (nonce and calldata;
    chain id, gas and fee fields are the same for every transaction of the
    wallet and are not modelled). *)

From coqutil Require Import Byte Word.LittleEndianList.
From S2P Require Import Prelude Js Task Contract.
From Stdlib Require Import Ascii.

(** A signed transaction of the API wallet to the contract: its nonce
    and its calldata. *)
Record tx := Tx { tx_nonce : nat; tx_data : list byte }.

#[export] Instance tx_eq_dec : EqDecision tx.
Proof. solve_decision. Defined.

(** The transaction hash.  The real hash is keccak256 of the signed
    transaction; the development only uses that distinct transactions
    have distinct hashes, which this printing of the signed fields has
    ([tx_hash_inj]): the nonce, the length of the calldata and the
    calldata read as a number. *)
Definition tx_hash (t : tx) : string :=
  "0x" +:+ bigint_to_string (Z.of_nat (tx_nonce t)) +:+ "-" +:+
  bigint_to_string (Z.of_nat (length (tx_data t))) +:+ "-" +:+ bigint_to_string (le_combine (tx_data t)).

(** The receipt fields the code reads ([receipt.blockNumber]) and the
    status ethers checks. *)
Record receipt := Receipt { rc_hash : string; rc_block : nat; rc_status : bool }.

(** An ethers [TransactionResponse]: the code reads [tx.hash]. *)
Record tx_response := TxResponse { txr_hash : string; txr_tx : tx }.

Inductive rpc : Type -> Type :=
| CallGet : rpc (list byte)             (** [eth_call] of [get()]: the return data *)
| GetTransactionCount : rpc nat        (** [eth_getTransactionCount(wallet, "pending")] *)
| SendRawTransaction (t : tx) : rpc string  (** [eth_sendRawTransaction] *)
| WaitReceipt (t : tx) : rpc receipt   (** receipt polling until mined ([tx.wait()]) *)
| GetBalance : rpc Z.                  (** [eth_getBalance(wallet)] *)

(** ** Distinct transactions have distinct hashes *)

Lemma bigint_to_string_inj a b : bigint_to_string a = bigint_to_string b -> a = b.
Proof.
  intros E. apply (f_equal string_to_bigint) in E.
  rewrite !string_to_bigint_to_string in E. by injection E.
Qed.

Lemma bigint_to_string_nonneg_decimal z :
  0 <= z -> all_chars is_decimal_char (bigint_to_string z) = true.
Proof. intros Hz. destruct z; [done| apply uint_string_decimal | lia]. Qed.

Lemma decimal_dash_split a1 a2 b1 b2 :
  all_chars is_decimal_char a1 = true -> all_chars is_decimal_char a2 = true ->
  a1 +:+ String "-"%char b1 = a2 +:+ String "-"%char b2 -> a1 = a2 /\ b1 = b2.
Proof.
  revert a2. induction a1 as [|c1 r1 IH]; intros [|c2 r2]; simpl.
  - intros _ _ [=]. done.
  - intros _ [Hc _]%andb_prop [=<- _]. discriminate.
  - intros [Hc _]%andb_prop _ [=-> _]. discriminate.
  - intros [_ H1]%andb_prop [_ H2]%andb_prop [=-> E].
    destruct (IH r2 H1 H2 E) as [-> ->]. done.
Qed.

Lemma le_combine_nonneg bs : 0 <= le_combine bs.
Proof. apply le_combine_bound. Qed.

Lemma tx_hash_inj t1 t2 : tx_hash t1 = tx_hash t2 -> t1 = t2.
Proof.
  destruct t1 as [n1 d1], t2 as [n2 d2]. unfold tx_hash; simpl. intros [=E].
  apply decimal_dash_split in E as [En E]; try (apply bigint_to_string_nonneg_decimal; lia).
  apply decimal_dash_split in E as [El Ed]; try (apply bigint_to_string_nonneg_decimal; lia).
  apply bigint_to_string_inj in En, El, Ed. apply Nat2Z.inj in En, El.
  rewrite <- (split_le_combine d1), <- (split_le_combine d2), El, Ed, En. done.
Qed.
