(* ===== verification/Ethers.v ===== *)
(** * Ethers: the client library the gateway calls

    [src/api/src/index.js] builds [new ethers.Contract(address, abi,
    wallet)] and calls three things on it: [contract.get()],
    [contract.set(value)] and, on the transaction that returns,
    [tx.wait()].  [EthersContract] is that interface: the handlers of
    Gateway.v are written against it and their theorems hold for every
    instance.

    [ethers_v6] is the instance the program runs with, modelled on ethers
    v6 (the library is not part of the repository): the argument of
    [set] is converted by [getBigInt] and bound-checked by the [uint256]
    ABI coder before anything is sent and encoded as calldata
    ([set_calldata], Contract.v); the wallet then reads its pending
    nonce, signs and broadcasts; [get()] decodes the bytes [eth_call]
    returns ([decode_get_result]); [wait()] waits for the receipt and
    throws [CALL_EXCEPTION] on a reverted one.  Gas estimation, chain-id
    and fee lookups (further read-only calls) are not modelled. *)

From S2P Require Import Prelude Js Task Contract Rpc.
From Stdlib Require Import Ascii.

Class EthersContract := {
  contract_get : task rpc Z;
  contract_set : jsval -> task rpc tx_response;
  tx_wait : tx_response -> task rpc receipt;
}.

Module EthersV6.

Definition invalid (msg : string) : jserror := JsError InvalidArgument msg.

(** [getBigInt(value)] (ethers v6, utils/maths.ts). *)
Definition get_big_int (v : jsval) : result Z :=
  match v with
  | JBigInt z => Ok z
  | JNumber x =>
      match number_integer_value x with
      | None => Err (invalid "underflow")
      | Some z =>
          if (- max_safe_integer <=? z) && (z <=? max_safe_integer) then Ok z
          else Err (invalid "overflow")
      end
  | JString s =>
      let parsed :=
        if decide (s = "") then None
        else if decide (String.get 0 s = Some "-"%char /\ String.get 1 s <> Some "-"%char)
        then Z.opp <$> string_to_bigint (String.substring 1 (String.length s - 1) s)
        else string_to_bigint s in
      match parsed with
      | Some z => Ok z
      | None => Err (invalid "invalid BigNumberish string")
      end
  | _ => Err (invalid "invalid BigNumberish value")
  end.

Definition uint256_max : Z := 2 ^ 256 - 1.

(** [NumberCoder.encode] for [uint256]: the value as a [bigint], then
    the bounds check. *)
Definition encode_uint256 (v : jsval) : result Z :=
  match get_big_int v with
  | Ok z => if (0 <=? z) && (z <=? uint256_max) then Ok z else Err (invalid "value out-of-bounds")
  | Err e => Err e
  end.

(** [contract.get()]: a read-only [eth_call], whose return data is
    decoded as one [uint256]. *)
Definition get : task rpc Z :=
  data ← await CallGet;
  match decode_get_result data with Ok z => Ret z | Err e => Throw e end.

(** [contract.set(value)]: encode, read the pending nonce, broadcast. *)
Definition set (v : jsval) : task rpc tx_response :=
  match encode_uint256 v with
  | Err e => Throw e
  | Ok x =>
      n ← await GetTransactionCount;
      h ← await (SendRawTransaction (Tx n (set_calldata x)));
      Ret (TxResponse h (Tx n (set_calldata x)))
  end.

(** [tx.wait()] with one confirmation. *)
Definition wait (r : tx_response) : task rpc receipt :=
  rc ← await (WaitReceipt (txr_tx r));
  if rc_status rc then Ret rc
  else Throw (JsError CallException "transaction execution reverted").

#[export] Instance ethers_v6 : EthersContract := {|
  contract_get := get;
  contract_set := set;
  tx_wait := wait;
|}.


(** ** What the coder accepts *)

Lemma encode_uint256_range v z : encode_uint256 v = Ok z -> 0 <= z < 2 ^ 256.
Proof.
  unfold encode_uint256. destruct (get_big_int v); [|done].
  destruct (_ && _) eqn:E; [|done]. intros [= <-]. apply andb_prop in E as [E1 E2].
  unfold uint256_max in E2. lia.
Qed.

(** C11: a JSON number is accepted exactly when it is an integer
    between 0 and [Number.MAX_SAFE_INTEGER]; larger integers, even exact
    ones below 2^256, are refused. *)
Theorem encode_uint256_number x z :
  encode_uint256 (JNumber x) = Ok z <-> number_integer_value x = Some z /\ 0 <= z <= max_safe_integer.
Proof.
  unfold encode_uint256, get_big_int, uint256_max, max_safe_integer.
  destruct (number_integer_value x) as [y|]; [|naive_solver].
  destruct (decide (0 <= y <= 2 ^ 53 - 1)) as [Hy|Hy].
  - rewrite (proj2 (andb_true_iff _ _)) by (split; apply Z.leb_le; lia).
    rewrite (proj2 (andb_true_iff _ _)) by (split; apply Z.leb_le; lia). naive_solver.
  - split; [|naive_solver lia]. destruct (_ && _) eqn:E1; [|done].
    apply andb_prop in E1 as [E1 E2]. apply Z.leb_le in E1, E2.
    destruct (_ && _) eqn:E3; [|done]. apply andb_prop in E3 as [E3 E4].
    apply Z.leb_le in E3, E4. lia.
Qed.

Lemma decimal_first_char s : all_chars is_decimal_char s = true -> String.get 0 s <> Some "-"%char.
Proof. destruct s as [|c r]; [done|]. simpl. intros [Hc _]%andb_prop [= ->]. by vm_compute in Hc. Qed.

Lemma bigint_to_string_nonempty z : bigint_to_string z <> "".
Proof.
  destruct z as [|p|p]; [done| |done]. unfold bigint_to_string. simpl.
  apply uint_string_nonempty, pos_to_uint_nonnil.
Qed.

(** C12: the string GET /value answers, posted back as [value],
    is read by ethers as the same integer: GET then POST round-trips. *)
Theorem encode_uint256_decimal_string z :
  0 <= z <= uint256_max -> encode_uint256 (JString (bigint_to_string z)) = Ok z.
Proof.
  intros Hz. unfold encode_uint256, get_big_int.
  rewrite decide_False by apply bigint_to_string_nonempty.
  rewrite decide_False by (intros [H _]; revert H; apply decimal_first_char, bigint_to_string_nonneg_decimal; lia).
  rewrite string_to_bigint_to_string.
  rewrite (proj2 (andb_true_iff _ _)) by (split; apply Z.leb_le; lia). done.
Qed.

(** C24: [contract.get()] makes one [eth_call] and writes nothing.  It
    resolves with [z] exactly when the reply is whole ABI words whose
    first is the [uint256] [z]; it rejects with ethers' [BAD_DATA]
    "could not decode result data" when the reply is empty, as it is
    from an address without contract code, and "invalid length for
    result data" when its length is not a multiple of 32 bytes; and it
    rejects with the call's own error when the [eth_call] fails. *)
Theorem get_spec {W} (answer : W -> forall X, rpc X -> W -> result X -> Prop) w w' o tr :
  exec answer w get w' o tr <->
  tr = [] /\
  ((exists z rest, answer w _ CallGet w' (Ok (encode_word z ++ rest)) /\ 0 <= z < 2 ^ 256
                   /\ (length rest mod 32 = 0)%nat /\ o = Returned z)
   \/ (answer w _ CallGet w' (Ok []) /\ o = Threw (bad_data "could not decode result data"))
   \/ (exists data, answer w _ CallGet w' (Ok data) /\ (length data mod 32 <> 0)%nat
                    /\ o = Threw (bad_data "invalid length for result data"))
   \/ (exists e, answer w _ CallGet w' (Err e) /\ o = Threw e)).
Proof.
  unfold get. rewrite exec_await_bind. split.
  - intros [(w1 & data & Hans & Hk)|(e & Hans & -> & ->)]; [|split; [done|right; right; right; eauto]].
    destruct (decode_get_result_cases data)
      as [(z & rest & -> & Hz & Hr & Hd)|[[-> Hd]|[Hm Hd]]]; rewrite Hd in Hk; simpl in Hk; destruct Hk as (-> & -> & ->).
    + split; [done|left; eauto 10].
    + split; [done|right; left; eauto].
    + split; [done|right; right; left; eauto].
  - intros [-> [(z & rest & Hans & Hz & Hr & ->)|[[Hans ->]|[(data & Hans & Hm & ->)|(e & Hans & ->)]]]];
      [left|left|left|right; eauto]; eexists _, _; split; try exact Hans.
    + by rewrite decode_get_result_word_app.
    + done.
    + unfold decode_get_result. by rewrite decide_False.
Qed.
Lemma encode_uint256_decimal_string_witness :
  0 <= 2 ^ 255 <= uint256_max /\ encode_uint256 (JString (bigint_to_string (2 ^ 255))) = Ok (2 ^ 255).
Proof.
  assert (H : 0 <= 2 ^ 255 <= uint256_max) by (unfold uint256_max; lia).
  split; [exact H|]. exact (encode_uint256_decimal_string (2 ^ 255) H).
Defined.
End EthersV6.
