(* ===== verification/Gateway.v ===== *)
(** * Gateway: the HTTP routes of [src/api/src/index.js]

    The Express application registers [express.json()] and two routes on
    [/value].  Each route handler is an [async] function; here it is a
    [task rpc response] built from the contract binding of
    [EthersContract], so every theorem of this file holds whatever the
    client library does.  The request body is the value [express.json()]
    has already parsed ([req.body]); a response is the status set with
    [res.status] (200 when none) and the value passed to [res.json]. *)

From S2P Require Import Prelude Js Task Contract Rpc Ethers.
From Stdlib Require Import Ascii.

Record response := Response { res_status : Z; res_body : jsval }.

(** ** Routing *)

Inductive http_method := GET | HEAD | POST | OtherMethod (m : string).

Record request := Request { req_method : http_method; req_path : string; req_body : jsval }.

Definition ascii_lower (c : ascii) : ascii :=
  let n := Ascii.nat_of_ascii c in
  if ((65 <=? n) && (n <=? 90))%nat then Ascii.ascii_of_nat (n + 32) else c.

Fixpoint string_lower (s : string) : string :=
  match s with
  | EmptyString => EmptyString
  | String c r => String (ascii_lower c) (string_lower r)
  end.

(** Express routes match case-insensitively and accept one trailing
    slash (its defaults [caseSensitive: false], [strict: false]). *)
Definition path_matches (route path : string) : bool :=
  let p := string_lower path in
  bool_decide (p = route) || bool_decide (p = route +:+ "/").

(** ** The JSON bodies the handlers send *)

Definition get_ok_response (value : Z) : response :=
  Response 200 (JObject [("value", JString (bigint_to_string value))]).
Definition get_error_response : response :=
  Response 500 (JObject [("error", JString "Erro ao ler valor")]).
Definition post_missing_response : response :=
  Response 400 (JObject [("error", JString "Campo 'value' é obrigatório")]).
Definition block_number (rcpt : receipt) : jsval := JNumber (number_of_Z (Z.of_nat (rc_block rcpt))).
Definition post_ok_response (tx : tx_response) (rcpt : receipt) : response :=
  Response 200 (JObject [("txHash", JString (txr_hash tx)); ("blockNumber", block_number rcpt)]).
Definition post_error_response : response :=
  Response 500 (JObject [("error", JString "Erro ao atualizar valor")]).

Definition get_error_line (err : jserror) : console_line :=
  ConsoleError [JString "Erro ao ler valor:"; JErr err].
Definition post_error_line (err : jserror) : console_line :=
  ConsoleError [JString "Erro ao atualizar valor:"; JErr err].
Definition sent_line (tx : tx_response) : console_line :=
  ConsoleLog [JString "Tx enviada:"; JString (txr_hash tx)].
Definition confirmed_line (rcpt : receipt) : console_line :=
  ConsoleLog [JString "Tx confirmada em bloco:"; block_number rcpt].

Definition destructure_error : jserror :=
  JsError TypeError "Cannot destructure property 'value' of 'req.body'".

Section Handlers.
Context `{EthersContract}.

(** [app.get("/value", ...)], lines 38-46. *)
Definition get_value_handler : task rpc response :=
  TRY
    (value ← contract_get;
     Ret (get_ok_response value))
  CATCH (err)
    Log (get_error_line err) (Ret get_error_response).

(** [const { value } = req.body]: destructuring [undefined] or [null]
    throws a [TypeError]. *)
Definition destructure_value (body : jsval) : task rpc jsval :=
  match js_get body "value" with
  | Some v => Ret v
  | None => Throw destructure_error
  end.

(** Lines 57-66: send the transaction, wait for it, answer. *)
Definition submit_and_confirm (value : jsval) : task rpc response :=
  tx ← contract_set value;
  Log (sent_line tx)
  (rcpt ← tx_wait tx;
   Log (confirmed_line rcpt)
   (Ret (post_ok_response tx rcpt))).

(** [app.post("/value", ...)], lines 49-71. *)
Definition post_value_handler (body : jsval) : task rpc response :=
  TRY
    (value ← destructure_value body;
     if is_undefined value then Ret post_missing_response
     else submit_and_confirm value)
  CATCH (err)
    Log (post_error_line err) (Ret post_error_response).

(** The application: [None] is a request no route of the program
    handles (Express answers it with its own 404).  [app.get] also
    serves [HEAD]. *)
Definition app_route (r : request) : option (task rpc response) :=
  if path_matches "/value" (req_path r) then
    match req_method r with
    | GET | HEAD => Some get_value_handler
    | POST => Some (post_value_handler (req_body r))
    | OtherMethod _ => None
    end
  else None.
End Handlers.

(** ** Behaviour of the handlers, for every client library and node *)

Section HandlerTheorems.
Context `{EthersContract} {W : Type}.
Variable answer : W -> forall X, rpc X -> W -> result X -> Prop.
Local Abbreviation exec := (exec answer).

(** C1: GET /value answers 200 with the decimal string of the value
    [contract.get()] resolved to, and 500 with the generic error (after
    logging the error) when it rejected; nothing else. *)
Theorem get_value_handler_spec w w' o tr :
  exec w get_value_handler w' o tr <->
  (exists v, exec w contract_get w' (Returned v) tr /\ o = Returned (get_ok_response v))
  \/ (exists e tr1, exec w contract_get w' (Threw e) tr1
                   /\ tr = tr1 ++ [get_error_line e] /\ o = Returned get_error_response).
Proof.
  unfold get_value_handler. rewrite exec_catch_log_ret. setoid_rewrite exec_bind. simpl.
  split.
  - intros; decompose_hyps; rewrite ?app_nil_r; eauto 10.
  - intros [(v & Hg & ->)|(e & tr1 & Hg & -> & ->)]; [left|right; eauto 10].
    eexists. split; [|done]. left. exists v, w', tr, []. by rewrite app_nil_r.
Qed.

Lemma submit_and_confirm_exec v w w' o tr :
  exec w (submit_and_confirm v) w' o tr <->
  (exists txr w1 tr1 rcpt tr2,
      exec w (contract_set v) w1 (Returned txr) tr1 /\ exec w1 (tx_wait txr) w' (Returned rcpt) tr2
      /\ tr = tr1 ++ sent_line txr :: tr2 ++ [confirmed_line rcpt] /\ o = Returned (post_ok_response txr rcpt))
  \/ (exists e, exec w (contract_set v) w' (Threw e) tr /\ o = Threw e)
  \/ (exists txr w1 tr1 e tr2,
      exec w (contract_set v) w1 (Returned txr) tr1 /\ exec w1 (tx_wait txr) w' (Threw e) tr2
      /\ tr = tr1 ++ sent_line txr :: tr2 /\ o = Threw e).
Proof.
  unfold submit_and_confirm. setoid_rewrite exec_bind. simpl. setoid_rewrite exec_bind. simpl.
  split.
  - intros; decompose_hyps; [left|right; right|right; left]; eauto 20.
  - intros [(txr & w1 & tr1 & rcpt & tr2 & H1 & H2 & -> & ->)|[(e & H1 & ->)|(txr & w1 & tr1 & e & tr2 & H1 & H2 & -> & ->)]].
    + left. exists txr, w1, tr1, (sent_line txr :: tr2 ++ [confirmed_line rcpt]).
      split; [done|]. split; [|done]. eexists. split; [done|]. left.
      exists rcpt, w', tr2, [confirmed_line rcpt]. eauto 10.
    + by right; exists e.
    + left. exists txr, w1, tr1, (sent_line txr :: tr2). split; [done|]. split; [|done].
      eexists. split; [done|]. right. eauto.
Qed.

(** C3: a body with no [value] field (or with [value] set to
    [undefined]) is answered 400 at once: the handler calls nothing. *)
Theorem post_value_missing body :
  js_get body "value" = Some JUndefined -> post_value_handler body = Ret post_missing_response.
Proof. intros Hv. unfold post_value_handler, destructure_value. by rewrite Hv. Qed.

(** C10: when [req.body] is [undefined] or [null] the
    destructuring throws a [TypeError] inside the [try]: the answer is
    500, not the 400 of a missing field, and nothing is called. *)
Theorem post_value_nullish_body body :
  body = JUndefined \/ body = JNull ->
  post_value_handler body = Log (post_error_line destructure_error) (Ret post_error_response).
Proof. by intros [-> | ->]. Qed.

Lemma post_value_handler_present body v :
  js_get body "value" = Some v -> is_undefined v = false ->
  post_value_handler body =
  try_catch (submit_and_confirm v) (fun err => Log (post_error_line err) (Ret post_error_response)).
Proof. intros Hv Hu. unfold post_value_handler, destructure_value. rewrite Hv. simpl. by rewrite Hu. Qed.

(** C2: with a [value] present, POST /value answers 200 with the
    hash of the transaction [contract.set(value)] returned and the block
    number of the receipt [tx.wait()] returned; it answers 500 when
    either rejects, having logged the hash first if the send succeeded. *)
Theorem post_value_handler_spec body v w w' o tr :
  js_get body "value" = Some v -> is_undefined v = false ->
  exec w (post_value_handler body) w' o tr <->
  (exists txr w1 tr1 rcpt tr2,
      exec w (contract_set v) w1 (Returned txr) tr1 /\ exec w1 (tx_wait txr) w' (Returned rcpt) tr2
      /\ tr = tr1 ++ sent_line txr :: tr2 ++ [confirmed_line rcpt] /\ o = Returned (post_ok_response txr rcpt))
  \/ (exists e tr1, exec w (contract_set v) w' (Threw e) tr1
                   /\ tr = tr1 ++ [post_error_line e] /\ o = Returned post_error_response)
  \/ (exists txr w1 tr1 e tr2,
      exec w (contract_set v) w1 (Returned txr) tr1 /\ exec w1 (tx_wait txr) w' (Threw e) tr2
      /\ tr = tr1 ++ sent_line txr :: tr2 ++ [post_error_line e] /\ o = Returned post_error_response).
Proof.
  intros Hv Hu. rewrite (post_value_handler_present body v Hv Hu), exec_catch_log_ret.
  setoid_rewrite submit_and_confirm_exec. split.
  - intros; decompose_hyps; [left|right; left|right; right]; eauto 10.
    do 5 eexists. split_and!; eauto. by rewrite <- app_assoc.
  - intros; decompose_hyps; [left|right|right]; eauto 20.
    exists x2, (x1 ++ sent_line x :: x3). split_and!; [right; right; eauto 10| |done].
    by rewrite <- app_assoc.
Qed.

Local Ltac answered := eexists; split; [done|set_solver].

Lemma js_get_none o k : js_get o k = None -> o = JUndefined \/ o = JNull.
Proof. destruct o; simpl; naive_solver. Qed.

(** C4: whatever the library and the node do, a routed request
    never ends with an uncaught exception: it is answered, with one of
    the statuses 200, 400 and 500 of the interface table. *)
Theorem app_route_answers req t w w' o tr :
  app_route req = Some t -> exec w t w' o tr ->
  exists r, o = Returned r /\ res_status r ∈ [200; 400; 500].
Proof.
  unfold app_route. destruct (path_matches _ _); [|done].
  destruct (req_method req); intros [= <-] Hex.
  1,2: unfold get_value_handler in Hex; apply exec_catch_log_ret in Hex;
    unfold mbind, task_bind in Hex; setoid_rewrite exec_bind in Hex; simpl in Hex;
    decompose_hyps; answered.
  unfold post_value_handler, destructure_value in Hex. apply exec_catch_log_ret in Hex.
  unfold mbind, task_bind in Hex. setoid_rewrite exec_bind in Hex.
  destruct (js_get (req_body req) "value") as [v|]; simpl in Hex.
  - decompose_hyps; try answered;
      match goal with
      | H : exec _ (if is_undefined ?v then _ else _) _ _ _ |- _ =>
          destruct (is_undefined v); simpl in H; [|apply submit_and_confirm_exec in H]
      end; decompose_hyps; answered.
  - decompose_hyps; answered.
Qed.
End HandlerTheorems.

(** ** Witnesses

    The handler theorems at concrete requests, with the ethers v6 binding
    and a node that may answer anything. *)

#[local] Existing Instance EthersV6.ethers_v6.

Definition any_answer (_ : unit) (X : Type) (_ : rpc X) (_ : unit) (_ : result X) : Prop := True.

Definition body_five : jsval := JObject [("value", JString "5")].
Definition tx_five : tx_response := TxResponse (tx_hash (Tx 0 (set_calldata 5))) (Tx 0 (set_calldata 5)).
Definition receipt_five : receipt := Receipt (tx_hash (Tx 0 (set_calldata 5))) 1 true.

Lemma post_value_handler_spec_witness :
  js_get body_five "value" = Some (JString "5") /\ is_undefined (JString "5") = false /\
  exec any_answer tt (post_value_handler body_five) tt (Returned (post_ok_response tx_five receipt_five))
    [sent_line tx_five; confirmed_line receipt_five].
Proof.
  split; [reflexivity|split; [reflexivity|]].
  apply (proj2 (post_value_handler_spec any_answer body_five (JString "5") tt tt _ _ eq_refl eq_refl)).
  left. exists tx_five, tt, [], receipt_five, []. split_and!; try reflexivity.
  - exists tt, (Ok 0%nat). split; [exact I|]. exists tt, (Ok (tx_hash (Tx 0 (set_calldata 5)))). done.
  - exists tt, (Ok receipt_five). done.
Defined.

Lemma post_value_missing_witness :
  js_get (JObject []) "value" = Some JUndefined /\ post_value_handler (JObject []) = Ret post_missing_response.
Proof. split; [reflexivity|]. apply post_value_missing. reflexivity. Defined.

Lemma post_value_nullish_body_witness :
  post_value_handler JNull = Log (post_error_line destructure_error) (Ret post_error_response).
Proof. apply post_value_nullish_body. right. reflexivity. Defined.

Lemma exec_post_five :
  exec any_answer tt (post_value_handler body_five) tt (Returned (post_ok_response tx_five receipt_five))
    [sent_line tx_five; confirmed_line receipt_five].
Proof.
  simpl. exists tt, (Ok 0%nat). split; [exact I|]. exists tt, (Ok (tx_hash (Tx 0 (set_calldata 5)))).
  split; [exact I|]. eexists. split; [reflexivity|]. exists tt, (Ok receipt_five). split; [exact I|].
  simpl. exists []. split_and!; try reflexivity.
Qed.

Lemma app_route_answers_witness :
  app_route (Request POST "/VALUE/" body_five) = Some (post_value_handler body_five) /\
  exists r, Returned (post_ok_response tx_five receipt_five) = Returned r /\ res_status r ∈ [200; 400; 500].
Proof.
  split; [reflexivity|].
  apply (app_route_answers any_answer (Request POST "/VALUE/" body_five) _ tt tt _
           [sent_line tx_five; confirmed_line receipt_five] eq_refl).
  apply exec_post_five.
Defined.
