(* ===== verification/Chain.v ===== *)
(** * Chain: the Ethereum node behind [RPC_URL] and the SimpleStorage contract

    The node is the program's only shared state.  [node] keeps what the
    calls of Rpc.v can observe: the contract's storage, the block height,
    the API wallet's mined nonce, its pending transactions, the mined
    transactions with their block numbers, and the wallet balance.

    - The contract at [SIMPLE_STORAGE_ADDRESS] is [SimpleStorage] of
      Contract.v: a mined transaction runs its calldata through the
      contract's dispatcher ([SimpleStorage.execute]); a reverted one is
      mined with status 0 and changes nothing.
    - [mine] includes the next pending transaction in a new block.
    - [node_reply] is the node's answer to one call; [None] means the
      call has no answer yet (a receipt for a pending transaction).
    - [node_answer] is the answer relation the client sees: any number of
      blocks may be mined first, and the network may lose the request or
      the reply (an ethers [NETWORK_ERROR]); a lost reply has still
      changed the node. *)

From S2P Require Import Prelude Js Task Contract Rpc Ethers.


Record node := Node {
  nd_storage : SimpleStorage.state;
  nd_height : nat;
  nd_nonce : nat;
  nd_pool : list tx;
  nd_mined : list (tx * nat);
  nd_balance : Z;
}.

(** The nonce [eth_getTransactionCount(wallet, "pending")] reports. *)
Definition pending_nonce (n : node) : nat := nd_nonce n + length (nd_pool n).

(** Whether a transaction succeeds: the contract's calls succeed or
    revert on their calldata alone. *)
Definition tx_status (t : tx) : bool := if SimpleStorage.dispatch (tx_data t) is Some _ then true else false.

(** The storage after a transaction ran: unchanged when it reverted. *)
Definition run_tx (t : tx) (s : SimpleStorage.state) : SimpleStorage.state :=
  default s (SimpleStorage.execute (tx_data t) s).

#[global] Arguments tx_status : simpl never.
#[global] Arguments run_tx : simpl never.

(** Mine one block holding the next pending transaction. *)
Definition mine (n : node) : option node :=
  match nd_pool n with
  | [] => None
  | t :: rest =>
      let b := S (nd_height n) in
      Some (Node (run_tx t (nd_storage n)) b (S (nd_nonce n)) rest
                 ((t, b) :: nd_mined n) (nd_balance n))
  end.

Definition mine_step (n n' : node) : Prop := mine n = Some n'.

(** The block a transaction was mined in. *)
Fixpoint find_mined (t : tx) (l : list (tx * nat)) : option nat :=
  match l with
  | [] => None
  | (t', b) :: l' => if decide (t = t') then Some b else find_mined t l'
  end.

Definition with_pool (n : node) (pool : list tx) : node :=
  Node (nd_storage n) (nd_height n) (nd_nonce n) pool (nd_mined n) (nd_balance n).

Definition nonce_too_low : jserror := JsError NonceExpired "nonce too low".
Definition nonce_taken : jserror := JsError ReplacementUnderpriced "replacement transaction underpriced".
Definition replaced : jserror := JsError TransactionReplaced "transaction was replaced".
Definition network_error : jserror := JsError NetworkError "could not reach the node".

(** The node's answer to one call.  A broadcast is accepted when it uses
    the next nonce; a transaction that reuses the nonce of a pending or
    mined one is rejected (the wallet only signs with nonces it read
    from the node, so nonces above the pending one do not occur). *)
Definition node_reply (n : node) {X} (ev : rpc X) : option (node * result X) :=
  match ev in rpc X return option (node * result X) with
  | CallGet => Some (n, Ok (SimpleStorage.get_return (nd_storage n)))
  | GetTransactionCount => Some (n, Ok (pending_nonce n))
  | SendRawTransaction t =>
      if decide (tx_nonce t = pending_nonce n) then Some (with_pool n (nd_pool n ++ [t]), Ok (tx_hash t))
      else if decide (tx_nonce t < nd_nonce n)%nat then Some (n, Err nonce_too_low)
      else Some (n, Err nonce_taken)
  | WaitReceipt t =>
      match find_mined t (nd_mined n) with
      | Some b => Some (n, Ok (Receipt (tx_hash t) b (tx_status t)))
      | None => if decide (tx_nonce t < nd_nonce n)%nat then Some (n, Err replaced) else None
      end
  | GetBalance => Some (n, Ok (nd_balance n))
  end.

(** What the client observes: blocks may be mined before the call is
    served; the request may be lost, or the reply after the node acted. *)
Definition node_answer (n : node) (X : Type) (ev : rpc X) (n' : node) (r : result X) : Prop :=
  exists n0, rtc mine_step n n0 /\
    (node_reply n0 ev = Some (n', r)
     \/ (n' = n0 /\ r = Err network_error)
     \/ (exists r0, node_reply n0 ev = Some (n', r0) /\ r = Err network_error)).

(** ** An executable node: a development chain that mines every pending
    transaction before it serves the next call (Hardhat's automine), with
    a schedule of network faults. *)

Inductive delivery := Delivered | RequestLost | ReplyLost.

Fixpoint mine_all (fuel : nat) (n : node) : node :=
  match fuel with
  | O => n
  | S f => match mine n with Some n' => mine_all f n' | None => n end
  end.

Definition automine (n : node) : node := mine_all (length (nd_pool n)) n.

(** A call with no answer (never the case for the calls the handlers
    make, see Service.v) is reported as a network error; ethers would
    keep polling. *)
Definition devnet_respond (w : node * list delivery) (X : Type) (ev : rpc X)
    : (node * list delivery) * result X :=
  let '(n, ds) := w in
  let '(d, ds') := match ds with [] => (Delivered, []) | d :: ds' => (d, ds') end in
  let n0 := automine n in
  match d with
  | RequestLost => ((n0, ds'), Err network_error)
  | _ =>
      match node_reply n0 ev with
      | Some (n1, r) => ((n1, ds'), if d is ReplyLost then Err network_error else r)
      | None => ((n0, ds'), Err network_error)
      end
  end.

Definition devnet_answer (w : node * list delivery) (X : Type) (ev : rpc X)
    (w' : node * list delivery) (r : result X) : Prop :=
  node_answer w.1 X ev w'.1 r /\ w'.2 = tail w.2.

(** ** The node invariant *)

(** The value the contract holds: the argument of the last [set] mined
    that did not revert, or the constructor's zero.  Only the API wallet
    writes to the contract in this model. *)
Fixpoint last_write (mined : list (tx * nat)) : Z :=
  match mined with
  | (t, _) :: l =>
      match SimpleStorage.dispatch (tx_data t) with
      | Some (SimpleStorage.CallSet x) => x
      | _ => last_write l
      end
  | [] => SimpleStorage.get SimpleStorage.init
  end.

Lemma last_write_range l : 0 <= last_write l < 2 ^ 256.
Proof.
  induction l as [|[t b] l IH]; simpl; [done|].
  destruct (SimpleStorage.dispatch (tx_data t)) as [[x|]|] eqn:E; [|done|done].
  by apply dispatch_set_range in E.
Qed.

(** The wallet's [set(z)] transactions, for a [uint256] [z]. *)
Lemma tx_status_set k z : 0 <= z < 2 ^ 256 -> tx_status (Tx k (set_calldata z)) = true.
Proof. intros Hz. unfold tx_status. cbn [tx_data]. by rewrite dispatch_set_calldata. Qed.

Lemma run_tx_set k z s : 0 <= z < 2 ^ 256 -> run_tx (Tx k (set_calldata z)) s = SimpleStorage.set z s.
Proof. intros Hz. unfold run_tx. cbn [tx_data]. by rewrite execute_set_calldata. Qed.

Lemma last_write_set k z b l :
  0 <= z < 2 ^ 256 -> last_write ((Tx k (set_calldata z), b) :: l) = z.
Proof. intros Hz. cbn [last_write tx_data]. by rewrite dispatch_set_calldata. Qed.

Record node_wf (n : node) : Prop := {
  wf_pool : forall i t, nd_pool n !! i = Some t -> tx_nonce t = (nd_nonce n + i)%nat;
  wf_storage : SimpleStorage.get (nd_storage n) = last_write (nd_mined n);
  wf_mined : Forall (fun '(t, b) => tx_nonce t < nd_nonce n /\ b <= nd_height n)%nat (nd_mined n);
}.

(** The contract always holds a [uint256]. *)
Lemma stored_range n : node_wf n -> 0 <= SimpleStorage.get (nd_storage n) < 2 ^ 256.
Proof. intros [_ Hs _]. rewrite Hs. apply last_write_range. Qed.

Lemma mine_wf n n' : node_wf n -> mine n = Some n' -> node_wf n'.
Proof.
  intros [Hp Hs Hm]. unfold mine. destruct (nd_pool n) as [|t rest] eqn:Ep; [done|].
  intros [= <-]. split; simpl.
  - intros i t' Hi. rewrite (Hp (S i) t') by done. lia.
  - unfold run_tx, SimpleStorage.execute. by destruct (SimpleStorage.dispatch (tx_data t)) as [[x|]|].
  - constructor.
    + rewrite (Hp 0%nat t) by done. lia.
    + eapply Forall_impl; [exact Hm|]. intros [t' b]. lia.
Qed.

Lemma mine_star_wf n n' : node_wf n -> rtc mine_step n n' -> node_wf n'.
Proof. intros Hwf Hst. induction Hst; eauto using mine_wf. Qed.

Lemma node_reply_wf n X (ev : rpc X) n' r :
  node_wf n -> node_reply n ev = Some (n', r) -> node_wf n'.
Proof.
  intros Hwf. destruct ev; simpl; try (intros [= <- _]; done).
  - repeat case_decide; intros [= <- _]; try done. destruct Hwf as [Hp Hs Hm]. split; try done.
    intros i t' Hi. simpl in Hi. apply lookup_app_Some in Hi as [Hi|[Hlen Hi]]; [by apply Hp|].
    apply list_lookup_singleton_Some in Hi as [Hi ->]. unfold pending_nonce in *. simpl. lia.
  - destruct (find_mined t (nd_mined n)); [by intros [= <- _]|]. case_decide; [by intros [= <- _]|done].
Qed.

(** the invariant holds after every answer of the node, whatever
    was mined and whatever the network lost. *)
Theorem node_answer_wf n X (ev : rpc X) n' r :
  node_wf n -> node_answer n X ev n' r -> node_wf n'.
Proof.
  intros Hwf (n0 & Hst & Hans). apply (mine_star_wf n n0 Hwf) in Hst.
  destruct Hans as [Hr|[[-> _]|(r0 & Hr & _)]]; eauto using node_reply_wf.
Qed.

(** ** The executable node is one of the nodes [node_answer] allows *)

Lemma mine_all_rtc f n : rtc mine_step n (mine_all f n).
Proof.
  revert n. induction f as [|f IH]; intros n; simpl; [done|].
  destruct (mine n) as [n'|] eqn:E; [|done]. eapply rtc_l; [exact E|apply IH].
Qed.

Lemma devnet_respond_answer w X (ev : rpc X) :
  devnet_answer w X ev (devnet_respond w X ev).1 (devnet_respond w X ev).2.
Proof.
  destruct w as [n ds]. unfold devnet_respond, devnet_answer.
  assert (Hmine := mine_all_rtc (length (nd_pool n)) n).
  destruct ds as [|d ds]; [|destruct d]; simpl;
    (destruct (node_reply (automine n) ev) as [[n1 r]|] eqn:Hr; simpl);
    split; try done; exists (automine n); split; try done; eauto 10.
Qed.

(** Runs of the executable node are executions against [node_answer]. *)
Lemma devnet_run_exec {A} (t : task rpc A) n ds :
  let '(w', o, tr) := run devnet_respond (n, ds) t in exec node_answer n t w'.1 o tr.
Proof.
  pose proof (run_exec devnet_respond devnet_answer devnet_respond_answer t (n, ds)) as H.
  destruct (run devnet_respond (n, ds) t) as [[w' o] tr].
  apply (exec_simulation devnet_answer node_answer fst) in H; [done|].
  by intros ? ? ? ? ? [? _].
Qed.

(** ** What a successful answer tells the client *)

Lemma node_answer_ok n X (ev : rpc X) n' x :
  node_answer n X ev n' (Ok x) -> exists n0, rtc mine_step n n0 /\ node_reply n0 ev = Some (n', Ok x).
Proof. intros (n0 & Hst & [Hr|[[_ [=]]|(r0 & _ & [=])]]). eauto. Qed.

Lemma node_reply_send_ok n t n' h :
  node_reply n (SendRawTransaction t) = Some (n', Ok h) -> h = tx_hash t.
Proof. simpl. by repeat case_decide; intros [= _ <-]. Qed.

Lemma node_reply_wait_ok n t n' rc :
  node_reply n (WaitReceipt t) = Some (n', Ok rc) ->
  n' = n /\ rc = Receipt (tx_hash t) (rc_block rc) (tx_status t) /\ find_mined t (nd_mined n) = Some (rc_block rc).
Proof.
  simpl. destruct (find_mined t (nd_mined n)) as [b|]; [by intros [= <- <-]|].
  by case_decide.
Qed.

(** ** Mined transactions stay mined *)

Lemma find_mined_elem t l b : find_mined t l = Some b -> (t, b) ∈ l.
Proof.
  induction l as [|[t' b'] l IH]; simpl; [done|].
  case_decide; [intros [= ->]; subst; left|intros; right; auto].
Qed.

Lemma mine_find_mined n n' t b :
  node_wf n -> mine n = Some n' -> find_mined t (nd_mined n) = Some b -> find_mined t (nd_mined n') = Some b.
Proof.
  intros [Hp _ Hm]. unfold mine. destruct (nd_pool n) as [|t' rest] eqn:Ep; [done|].
  intros [= <-] Hf. simpl. case_decide as Heq; [|done]. subst t'.
  apply find_mined_elem in Hf. rewrite Forall_forall in Hm. apply Hm in Hf.
  rewrite (Hp 0%nat t) in Hf by done. lia.
Qed.

Lemma node_reply_mined n X (ev : rpc X) n' r :
  node_reply n ev = Some (n', r) -> nd_mined n' = nd_mined n.
Proof.
  destruct ev; simpl; try (intros [= <- _]; done).
  - by repeat case_decide; intros [= <- _].
  - destruct (find_mined t (nd_mined n)); [by intros [= <- _]|]. case_decide; [by intros [= <- _]|done].
Qed.

(** Whatever the node does while answering a call, a transaction that
    was mined stays mined in the same block. *)
Lemma node_answer_find_mined n X (ev : rpc X) n' r t b :
  node_wf n -> node_answer n X ev n' r ->
  find_mined t (nd_mined n) = Some b -> find_mined t (nd_mined n') = Some b.
Proof.
  intros Hwf (n0 & Hst & Hans) Hf.
  assert (find_mined t (nd_mined n0) = Some b) as Hf0.
  { clear Hans. induction Hst as [n|n n1 n2 Hs _ IH]; [done|].
    apply IH; [by eapply mine_wf|by eapply mine_find_mined]. }
  destruct Hans as [Hr|[[-> _]|(r0 & Hr & _)]]; [| done |]; by rewrite (node_reply_mined _ _ _ _ _ Hr).
Qed.
