(* ===== verification/Service.v ===== *)
(** * Service: the gateway running against the node, end to end

    The handlers of Gateway.v with the ethers v6 binding of Ethers.v,
    executed on the development node of Chain.v ([devnet_respond]).
    With no network fault and no transaction pending, each request
    behaves as one operation on a single stored integer: this is
    [RegisterSpec], and [serve_refines] is the refinement theorem.  The
    file also records, as theorems, the behaviours the spec leaves out. *)

From S2P Require Import Prelude Js Task Contract Rpc Ethers Gateway Chain.
Import EthersV6.

Definition stored (n : node) : Z := SimpleStorage.get (nd_storage n).

Definition idle (n : node) : Prop := nd_pool n = [].

Lemma automine_idle n : idle n -> automine n = n.
Proof. unfold automine, idle. intros ->. done. Qed.

Lemma run_get_idle n :
  node_wf n -> idle n ->
  run devnet_respond (n, []) get_value_handler = ((n, []), Returned (get_ok_response (stored n)), []).
Proof.
  intros Hwf Hi. unfold get_value_handler. cbn -[decode_get_result SimpleStorage.get_return automine].
  rewrite automine_idle by done. cbn -[decode_get_result SimpleStorage.get_return].
  by rewrite decode_get_return by (by apply stored_range).
Qed.

(** The node after the wallet's [set(z)] is mined in the next block. *)
Definition after_set (n : node) (z : Z) : node :=
  Node (SimpleStorage.set z (nd_storage n)) (S (nd_height n)) (S (nd_nonce n)) []
       ((Tx (nd_nonce n) (set_calldata z), S (nd_height n)) :: nd_mined n) (nd_balance n).

Definition set_response (n : node) (z : Z) : tx_response :=
  TxResponse (tx_hash (Tx (nd_nonce n) (set_calldata z))) (Tx (nd_nonce n) (set_calldata z)).
Definition set_receipt (n : node) (z : Z) : receipt :=
  Receipt (tx_hash (Tx (nd_nonce n) (set_calldata z))) (S (nd_height n)) true.

(** Run [contract.set(value)] and [tx.wait()] on an idle development
    node, up to the contract's execution of the calldata. *)
Local Ltac submit_walk Hi Henc :=
  unfold submit_and_confirm; simpl; unfold EthersV6.set; rewrite Henc;
  cbn -[run_tx tx_status tx_hash set_calldata automine];
  rewrite !automine_idle by done; unfold pending_nonce; rewrite Hi;
  cbn -[run_tx tx_status tx_hash set_calldata];
  rewrite Nat.add_0_r, decide_True by done; cbn -[run_tx tx_status tx_hash set_calldata];
  rewrite decide_True by done.

Lemma run_submit_idle n v z :
  idle n -> encode_uint256 v = Ok z ->
  run devnet_respond (n, []) (submit_and_confirm v) =
  ((after_set n z, []), Returned (post_ok_response (set_response n z) (set_receipt n z)),
   [sent_line (set_response n z); confirmed_line (set_receipt n z)]).
Proof.
  intros Hi Henc. pose proof (encode_uint256_range v z Henc) as Hz.
  submit_walk Hi Henc. rewrite run_tx_set, tx_status_set by done. done.
Qed.

(** A value the ABI coder refuses is never sent: [contract.set] rejects
    before any call, and the handler answers 500. *)
Lemma submit_encode_error v e : encode_uint256 v = Err e -> submit_and_confirm v = Throw e.
Proof. intros Henc. unfold submit_and_confirm. simpl. unfold EthersV6.set. by rewrite Henc. Qed.

(** ** The abstract specification: one stored integer *)

Module RegisterSpec.
Inductive reply := Value (z : Z) | Written | BadRequest | ServerError | NotHandled.

(** What a request does to the stored integer and what it answers.  A
    present [value] is written when the ABI coder accepts it. *)
Definition step (s : Z) (req : request) : Z * reply :=
  if path_matches "/value" (req_path req) then
    match req_method req with
    | GET | HEAD => (s, Value s)
    | POST =>
        match js_get (req_body req) "value" with
        | None => (s, ServerError)
        | Some v =>
            if is_undefined v then (s, BadRequest)
            else match encode_uint256 v with Ok z => (z, Written) | Err _ => (s, ServerError) end
        end
    | OtherMethod _ => (s, NotHandled)
    end
  else (s, NotHandled).

Fixpoint steps (s : Z) (reqs : list request) : Z * list reply :=
  match reqs with
  | [] => (s, [])
  | q :: qs => let '(s1, r) := step s q in let '(s2, rs) := steps s1 qs in (s2, r :: rs)
  end.
End RegisterSpec.

(** How a client reads a response. *)
Definition observe (r : option response) : RegisterSpec.reply :=
  match r with
  | None => RegisterSpec.NotHandled
  | Some r =>
      if Z.eqb (res_status r) 200 then
        match res_body r with
        | JObject [("value", JString s)] =>
            match string_to_bigint s with
            | Some z => RegisterSpec.Value z
            | None => RegisterSpec.ServerError
            end
        | _ => RegisterSpec.Written
        end
      else if Z.eqb (res_status r) 400 then RegisterSpec.BadRequest
      else RegisterSpec.ServerError
  end.

(** One request served to completion on a fault-free node. *)
Definition serve1 (n : node) (req : request) : node * option response :=
  match app_route req with
  | None => (n, None)
  | Some t =>
      match run devnet_respond (n, []) t with
      | (w', Returned r, _) => (w'.1, Some r)
      | (w', Threw _, _) => (w'.1, None)
      end
  end.

Fixpoint serve (n : node) (reqs : list request) : node * list (option response) :=
  match reqs with
  | [] => (n, [])
  | q :: qs => let '(n1, r) := serve1 n q in let '(n2, rs) := serve n1 qs in (n2, r :: rs)
  end.

(** The requests of a client of the gateway. *)
Definition post_req (body : jsval) : request := Request POST "/value" body.
Definition get_req : request := Request GET "/value" JUndefined.

(** ** Refinement *)

Lemma serve1_wf n req : node_wf n -> node_wf (serve1 n req).1.
Proof.
  intros Hwf. unfold serve1. destruct (app_route req) as [t|]; [|done].
  pose proof (devnet_run_exec t n []) as Hex.
  destruct (run devnet_respond (n, []) t) as [[w' o] tr].
  assert (node_wf w'.1) by (eapply exec_invariant; [exact node_answer_wf|exact Hwf|exact Hex]).
  by destruct o.
Qed.

(** on a node with no pending transaction and no network
    fault, each request changes the stored integer and answers exactly
    as [RegisterSpec.step] says, and leaves no transaction pending. *)
Theorem serve1_refines n req :
  node_wf n -> idle n ->
  idle (serve1 n req).1 /\ (stored (serve1 n req).1, observe (serve1 n req).2) = RegisterSpec.step (stored n) req.
Proof.
  intros Hwf Hi. unfold serve1, app_route, RegisterSpec.step.
  destruct (path_matches _ _); [|done].
  destruct (req_method req); [| |destruct (js_get (req_body req) "value") as [v|] eqn:Hv|done].
  1,2: rewrite run_get_idle by done; simpl; by rewrite string_to_bigint_to_string.
  - destruct (is_undefined v) eqn:Hu.
    + destruct v; try done. unfold post_value_handler, destructure_value. by rewrite Hv.
    + rewrite (post_value_handler_present _ v Hv Hu), run_try_catch.
      destruct (encode_uint256 v) as [z|e] eqn:He.
      * by rewrite (run_submit_idle n v z Hi He).
      * by rewrite (submit_encode_error v e He).
  - apply js_get_none in Hv. by destruct Hv as [-> | ->].
Qed.

(** C5: a sequence of requests served one after the other on a
    fault-free node is observed exactly as the same sequence on the
    abstract stored integer, starting from the contract's value. *)
Theorem serve_refines n reqs :
  node_wf n -> idle n ->
  node_wf (serve n reqs).1 /\ idle (serve n reqs).1 /\
  (stored (serve n reqs).1, map observe (serve n reqs).2) = RegisterSpec.steps (stored n) reqs.
Proof.
  revert n. induction reqs as [|q qs IH]; intros n Hwf Hi; simpl; [done|].
  pose proof (serve1_wf n q Hwf) as Hwf1. destruct (serve1_refines n q Hwf Hi) as [Hi1 Hstep].
  destruct (serve1 n q) as [n1 r]. simpl in *. rewrite <- Hstep.
  destruct (IH n1 Hwf1 Hi1) as (Hwf2 & Hi2 & Hsteps).
  destruct (serve n1 qs) as [n2 rs]. simpl in *. rewrite <- Hsteps. done.
Qed.

(** ** Behaviours the spec does not state *)

Lemma encode_defined v z : encode_uint256 v = Ok z -> is_undefined v = false.
Proof. by destruct v. Qed.

(** C8: a 500 from POST /value does not mean nothing was
    written.  If the reply to the receipt poll is lost after the block
    holding the transaction was mined, the handler answers the generic
    500 while the contract already holds the new value. *)
Theorem post_500_after_write n body v z :
  idle n -> js_get body "value" = Some v -> encode_uint256 v = Ok z ->
  let '(w', o, _) := run devnet_respond (n, [Delivered; Delivered; ReplyLost]) (post_value_handler body) in
  o = Returned post_error_response /\ stored w'.1 = z.
Proof.
  intros Hi Hv Henc. pose proof (encode_uint256_range v z Henc) as Hz.
  rewrite (post_value_handler_present _ v Hv (encode_defined v z Henc)), run_try_catch.
  submit_walk Hi Henc. rewrite run_tx_set by done. done.
Qed.

Lemma step_post s body :
  RegisterSpec.step s (post_req body) =
  match js_get body "value" with
  | None => (s, RegisterSpec.ServerError)
  | Some v =>
      if is_undefined v then (s, RegisterSpec.BadRequest)
      else match encode_uint256 v with Ok z => (z, RegisterSpec.Written) | Err _ => (s, RegisterSpec.ServerError) end
  end.
Proof. reflexivity. Qed.

(** With no transaction pending, the node answers a read as it stands. *)
Lemma node_answer_idle_get n n' r : idle n -> node_answer n _ CallGet n' r -> n' = n.
Proof.
  intros Hi (n0 & Hst & Hans). assert (n0 = n) as ->.
  { destruct Hst as [|n n1 n2 Hm _]; [done|]. unfold mine_step, mine in Hm. by rewrite Hi in Hm. }
  simpl in Hans. by destruct Hans as [[= <- _]|[[-> _]|(r0 & [= <- _] & _)]].
Qed.

(** C9: a present [value] the ABI coder refuses (a negative
    number, a fraction, a word, an integer above 2^53 as a JSON number)
    is a client error the handler answers with the server-error 500,
    without calling the node; the abstract specification records it as
    a server error that leaves the stored integer unchanged. *)
Theorem post_value_refused body v e :
  js_get body "value" = Some v -> is_undefined v = false -> encode_uint256 v = Err e ->
  post_value_handler body = Log (post_error_line e) (Ret post_error_response)
  /\ forall s, RegisterSpec.step s (post_req body) = (s, RegisterSpec.ServerError).
Proof.
  intros Hv Hu He. split.
  - rewrite (post_value_handler_present _ v Hv Hu). by rewrite (submit_encode_error v e He).
  - intros s. by rewrite step_post, Hv, Hu, He.
Qed.

(** ** What a 200 from POST /value guarantees *)

(** Step through the awaited calls of an execution hypothesis: split
    it, and case on every answer that a continuation matches on. *)
Ltac exec_walk :=
  repeat (unfold mbind, task_bind in *; simpl in *; decompose_hyps;
          match goal with r : result _ |- _ => destruct r end);
  unfold mbind, task_bind in *; simpl in *; decompose_hyps.

Lemma exec_set_ok n v n' txr tr :
  exec node_answer n (EthersV6.set v) n' (Returned txr) tr ->
  exists z nonce, encode_uint256 v = Ok z /\
    txr = TxResponse (tx_hash (Tx nonce (set_calldata z))) (Tx nonce (set_calldata z)).
Proof.
  unfold EthersV6.set. destruct (encode_uint256 v) as [z|e]; [|by intros (_ & [=] & _)].
  intros H. exec_walk. apply node_answer_ok in H0 as (n0 & _ & Hr).
  apply node_reply_send_ok in Hr as ->. eauto.
Qed.

Lemma exec_wait_ok n txr n' rc tr :
  exec node_answer n (EthersV6.wait txr) n' (Returned rc) tr ->
  rc_hash rc = tx_hash (txr_tx txr) /\ find_mined (txr_tx txr) (nd_mined n') = Some (rc_block rc).
Proof.
  unfold EthersV6.wait. intros H. exec_walk.
  match goal with Hr : node_answer _ _ (WaitReceipt _) _ (Ok ?rc) |- _ =>
    apply node_answer_ok in Hr as (n0 & _ & Hr); apply node_reply_wait_ok in Hr as (-> & Hrc & Hm);
    destruct (rc_status rc); exec_walk; by rewrite Hrc end.
Qed.

(** C6: a 200 from POST /value is never a false report, whatever
    was mined meanwhile and whatever the network lost: the transaction
    it names is mined, in the block and under the hash the response
    gives, and it sets the contract to the integer the abstract
    specification writes for this request. *)
Theorem post_ok_truthful n body n' r tr :
  exec node_answer n (post_value_handler body) n' (Returned r) tr -> res_status r = 200 ->
  exists t z b, (forall s, RegisterSpec.step s (post_req body) = (z, RegisterSpec.Written))
    /\ SimpleStorage.dispatch (tx_data t) = Some (SimpleStorage.CallSet z)
    /\ find_mined t (nd_mined n') = Some b
    /\ r = Response 200 (JObject [("txHash", JString (tx_hash t));
                                  ("blockNumber", JNumber (number_of_Z (Z.of_nat b)))]).
Proof.
  unfold post_value_handler, destructure_value. rewrite exec_catch_log_ret.
  intros [(a & Ha & [= ->])|(e & tr1 & _ & _ & [= ->])] Hs; [|done].
  unfold mbind, task_bind in Ha. apply exec_bind in Ha.
  destruct (js_get body "value") as [v|] eqn:Hv; simpl in Ha; decompose_hyps.
  match goal with H : exec _ _ (if is_undefined v then _ else _) _ _ _ |- _ => rename H into Hk end.
  destruct (is_undefined v); [by destruct Hk as (_ & [= ->] & _)|].
  apply submit_and_confirm_exec in Hk.
  destruct Hk as [(txr & w1 & tr1 & rc & tr2 & Hset & Hwait & _ & [= ->])|[(e & _ & [=])|(? & ? & ? & ? & ? & _ & _ & _ & [=])]].
  apply exec_set_ok in Hset as (z & nonce & Henc & ->). apply exec_wait_ok in Hwait as [_ Hm].
  exists (Tx nonce (set_calldata z)), z, (rc_block rc). split_and!; [| |done..].
  - intros s. by rewrite step_post, Hv, (encode_defined v z Henc), Henc.
  - apply dispatch_set_calldata. by eapply encode_uint256_range.
Qed.

(** C7: a GET writes nothing: on a node with no transaction pending,
    every execution of GET /value, answered or lost, leaves the node
    exactly as it was. *)
Theorem get_no_write n n' o tr :
  idle n -> exec node_answer n get_value_handler n' o tr -> n' = n.
Proof.
  intros Hi. unfold get_value_handler. rewrite exec_catch_log_ret.
  intros [(a & Ha & _)|(e & tr1 & Ha & _ & _)]; simpl in Ha; destruct Ha as (w1 & r & Hans & Hk);
    apply node_answer_idle_get in Hans as ->; try done;
    destruct r as [data|e']; simpl in Hk; try destruct (decode_get_result data); simpl in Hk;
    by destruct Hk as (-> & _).
Qed.

(** ** Witnesses on the node right after deployment *)

(** The chain after the deploy script: the contract holds its initial
    zero, the API wallet has sent nothing and holds one ether. *)
Definition deployed_node : node := Node SimpleStorage.init 1 0 [] [] (10 ^ 18).

Lemma deployed_node_wf : node_wf deployed_node.
Proof. split; simpl; [intros i t Hi; by rewrite lookup_nil in Hi|done|constructor]. Qed.

Lemma deployed_node_idle : idle deployed_node.
Proof. done. Qed.


Lemma serve_refines_witness :
  node_wf deployed_node /\ idle deployed_node /\
  (stored (serve deployed_node [post_req body_five; get_req]).1,
   map observe (serve deployed_node [post_req body_five; get_req]).2)
  = RegisterSpec.steps (stored deployed_node) [post_req body_five; get_req].
Proof.
  split; [exact deployed_node_wf|split; [exact deployed_node_idle|]].
  apply (serve_refines deployed_node _ deployed_node_wf deployed_node_idle).
Defined.

Lemma exec_post_five_deployed :
  exec node_answer deployed_node (post_value_handler body_five) (after_set deployed_node 5)
    (Returned (post_ok_response (set_response deployed_node 5) (set_receipt deployed_node 5)))
    [sent_line (set_response deployed_node 5); confirmed_line (set_receipt deployed_node 5)].
Proof.
  pose proof (devnet_run_exec (post_value_handler body_five) deployed_node []) as H.
  vm_compute in H. vm_compute. exact H.
Qed.

Lemma post_ok_truthful_witness :
  exec node_answer deployed_node (post_value_handler body_five) (after_set deployed_node 5)
    (Returned (post_ok_response (set_response deployed_node 5) (set_receipt deployed_node 5)))
    [sent_line (set_response deployed_node 5); confirmed_line (set_receipt deployed_node 5)]
  /\ res_status (post_ok_response (set_response deployed_node 5) (set_receipt deployed_node 5)) = 200
  /\ exists t z b, (forall s, RegisterSpec.step s (post_req body_five) = (z, RegisterSpec.Written))
       /\ SimpleStorage.dispatch (tx_data t) = Some (SimpleStorage.CallSet z)
       /\ find_mined t (nd_mined (after_set deployed_node 5)) = Some b
       /\ post_ok_response (set_response deployed_node 5) (set_receipt deployed_node 5)
          = Response 200 (JObject [("txHash", JString (tx_hash t));
                                   ("blockNumber", JNumber (number_of_Z (Z.of_nat b)))]).
Proof.
  split; [exact exec_post_five_deployed|split; [reflexivity|]].
  exact (post_ok_truthful _ _ _ _ _ exec_post_five_deployed eq_refl).
Defined.


Lemma get_no_write_witness :
  idle deployed_node
  /\ exec node_answer deployed_node get_value_handler deployed_node (Returned (get_ok_response 0)) []
  /\ deployed_node = deployed_node.
Proof.
  assert (Hex : exec node_answer deployed_node get_value_handler deployed_node (Returned (get_ok_response 0)) []).
  { exists deployed_node, (Ok (SimpleStorage.get_return SimpleStorage.init)).
    split; [exists deployed_node; split; [apply rtc_refl|by left]|vm_compute; auto]. }
  split; [exact deployed_node_idle|split; [exact Hex|]].
  exact (get_no_write _ _ _ _ deployed_node_idle Hex).
Defined.

Lemma post_500_after_write_witness :
  idle deployed_node /\ js_get body_five "value" = Some (JString "5")
  /\ encode_uint256 (JString "5") = Ok 5
  /\ (let '(w', o, _) := run devnet_respond (deployed_node, [Delivered; Delivered; ReplyLost])
                           (post_value_handler body_five) in
      o = Returned post_error_response /\ stored w'.1 = 5).
Proof.
  split; [exact deployed_node_idle|split; [reflexivity|split; [reflexivity|]]].
  exact (post_500_after_write deployed_node body_five (JString "5") 5 deployed_node_idle eq_refl eq_refl).
Defined.

Lemma post_value_refused_witness :
  js_get (JObject [("value", JNumber (number_of_Z (-1)))]) "value" = Some (JNumber (number_of_Z (-1)))
  /\ is_undefined (JNumber (number_of_Z (-1))) = false
  /\ encode_uint256 (JNumber (number_of_Z (-1))) = Err (invalid "value out-of-bounds")
  /\ (post_value_handler (JObject [("value", JNumber (number_of_Z (-1)))])
      = Log (post_error_line (invalid "value out-of-bounds")) (Ret post_error_response)
      /\ forall s, RegisterSpec.step s (post_req (JObject [("value", JNumber (number_of_Z (-1)))]))
                  = (s, RegisterSpec.ServerError)).
Proof.
  split; [reflexivity|split; [reflexivity|split; [reflexivity|]]].
  apply (post_value_refused _ (JNumber (number_of_Z (-1)))); reflexivity.
Defined.
