(* ===== verification/Http.v ===== *)
(** * Http: the gateway on the wire

    Before any route runs, [app.use(express.json())] (index.js line 7)
    reads the request body: body-parser's [json()] middleware.  After a
    handler returns, [res.json] (lines 41, 44, 54, 63-66) prints the
    response body with [JSON.stringify].  This file composes the two
    with the routes of Gateway.v and the node of Chain.v: a request is
    its method, path, media type, charset and body bytes, and a reply is
    a status with the JSON text, or Express's own error page.

    The repository pins no Express version (it has no [package.json]), and
    the two majors differ on a body the middleware does not parse:
    body-parser 1 (Express 4) leaves [req.body] as [{}], body-parser 2
    (Express 5) leaves it [undefined].  [express_version] says which.

    What the middleware does, in its order: a request without a body,
    or whose media type is not [application/json], is passed on
    unparsed; a charset other than [utf-*] is refused with 415; a body
    above the [100kb] limit with 413; an empty body is [{}]; otherwise
    the first non-blank character must be [{] or [[] (strict mode) and
    the text must be JSON, or the request is refused with 400.  A
    refused request never reaches a route: Express's final handler
    answers it with an HTML error page ([ErrorPage]).  Request bodies
    are taken to be UTF-8 ([utf-16] and compressed bodies, which
    body-parser would decode first, are not modelled). *)

From S2P Require Import Prelude Js Task Json Contract Rpc Ethers Gateway Chain Service.
From Stdlib Require Import Ascii Floats.SpecFloat DecimalString.
Import EthersV6.

Inductive express_version := Express4 | Express5.

Record http_request := HttpRequest {
  hr_method : http_method;
  hr_path : string;
  hr_content_type : option string;   (** the media type, lower case, without parameters *)
  hr_charset : option string;        (** its [charset] parameter, lower case *)
  hr_body : option string            (** the body bytes; [None]: the request has no body *)
}.

(** body-parser's default [limit: '100kb'], in bytes. *)
Definition json_limit : nat := 100 * 1024.

Inductive body_error := PayloadTooLarge | UnsupportedCharset | InvalidJson.

Definition body_error_status (e : body_error) : Z :=
  match e with PayloadTooLarge => 413 | UnsupportedCharset => 415 | InvalidJson => 400 end.

(** body-parser's [parse(body)] with [strict: true]. *)
Definition json_body_parse (text : string) : option jsval :=
  if decide (text = EmptyString) then Some (JObject [])
  else match skip_ws text with
       | String c _ => if decide (c = "{"%char \/ c = "["%char) then json_parse text else None
       | EmptyString => None
       end.

Definition charset_ok (cs : option string) : bool := String.prefix "utf-" (default "utf-8" cs).

(** [req.body] when the middleware does not parse the request. *)
Definition unparsed_body (ver : express_version) : jsval :=
  match ver with Express4 => JObject [] | Express5 => JUndefined end.

Inductive body_result := BodyReady (body : jsval) | BodyRejected (e : body_error).

(** [express.json()]: what [req.body] is when it calls [next()], or the
    error it passes to [next(err)]. *)
Definition json_middleware (ver : express_version) (r : http_request) : body_result :=
  match hr_body r with
  | None => BodyReady (unparsed_body ver)
  | Some text =>
      if negb (bool_decide (hr_content_type r = Some "application/json")) then BodyReady (unparsed_body ver)
      else if negb (charset_ok (hr_charset r)) then BodyRejected UnsupportedCharset
      else if (json_limit <? String.length text)%nat then BodyRejected PayloadTooLarge
      else match json_body_parse text with Some v => BodyReady v | None => BodyRejected InvalidJson end
  end.

Inductive http_reply :=
| JsonReply (status : Z) (text : string)   (** [res.status(status).json(...)] *)
| ErrorPage (status : Z).                  (** Express's final handler: its HTML page *)

Section Wire.
Variable fraction_to_string : spec_float -> string.

(** [res.json(body)]: the text [JSON.stringify] prints (a [HEAD]
    request gets the headers only); [None] if it throws. *)
Definition send_json (m : http_method) (r : response) : option http_reply :=
  match json_stringify fraction_to_string (res_body r) with
  | Ok o => Some (JsonReply (res_status r) (match m with HEAD => EmptyString | _ => default EmptyString o end))
  | Err _ => None
  end.

(** One request on the development node: the middleware, then the
    route, run to completion ([serve1]); [None] when no reply is sent. *)
Definition serve_http (ver : express_version) (n : node) (r : http_request) : node * option http_reply :=
  match json_middleware ver r with
  | BodyRejected e => (n, Some (ErrorPage (body_error_status e)))
  | BodyReady body =>
      let req := Request (hr_method r) (hr_path r) body in
      match app_route req with
      | None => (n, Some (ErrorPage 404))
      | Some _ =>
          let '(n', o) := serve1 n req in
          (n', match o with Some resp => send_json (hr_method r) resp | None => None end)
      end
  end.
End Wire.

(** The JSON text [{"value":"<s>"}]: what GET answers, and what a client
    posts to write. *)
Definition value_text (s : string) : string := json_object [json_member "value" (json_quote s)].

Definition get_http : http_request := HttpRequest GET "/value" None None None.
Definition post_http (text : string) : http_request :=
  HttpRequest POST "/value" (Some "application/json") None (Some text).

(** ** The text a client posts *)

Lemma digit_value_nonneg c d : digit_value c = Some d -> 0 <= d.
Proof. unfold digit_value. repeat case_match; intros [= <-]; lia. Qed.

Lemma digits_value_lower radix s acc v :
  0 < radix -> 0 <= acc -> digits_value radix s acc = Some v -> acc * radix ^ Z.of_nat (String.length s) <= v.
Proof.
  intros Hr. revert acc. induction s as [|c s IH]; intros acc Hacc; simpl; [intros [= <-]; lia|].
  destruct (digit_value c) as [d|] eqn:Hd; [|done]. case_match; [|done].
  intros Hv%IH; [|pose proof (digit_value_nonneg _ _ Hd); nia].
  pose proof (digit_value_nonneg _ _ Hd). rewrite Nat2Z.inj_succ, Z.pow_succ_r by lia.
  assert (0 <= radix ^ Z.of_nat (String.length s)) by (apply Z.pow_nonneg; lia). nia.
Qed.

(** A [uint256] has at most 78 decimal digits. *)
Lemma uint256_digits z : 0 <= z < 2 ^ 256 -> (String.length (bigint_to_string z) <= 78)%nat.
Proof.
  intros Hz. destruct z as [|p|p]; [simpl; lia| |lia].
  destruct (pos_digits_head p) as (c & r & Hs & Hc0 & Hdig).
  pose proof (digits_value_uint (Pos.to_uint p)) as Hv. rewrite of_uint_to_uint, Hs in Hv.
  assert (exists d, digit_value c = Some d /\ 1 <= d < 10) as (d & Hd & Hd1).
  { destruct c as [[] [] [] [] [] [] [] []]; try (vm_compute in Hdig; discriminate Hdig); try congruence;
      (eexists; split; [reflexivity|
        match goal with |- context [Z.of_nat (nat_of_ascii ?a)] =>
          let v := eval vm_compute in (Z.of_nat (nat_of_ascii a)) in change (Z.of_nat (nat_of_ascii a)) with v end; lia]). }
  simpl in Hv. rewrite Hd in Hv. rewrite (proj2 (Z.ltb_lt _ _)) in Hv by lia.
  apply digits_value_lower in Hv; [|lia|lia].
  change (bigint_to_string (Z.pos p)) with (NilEmpty.string_of_uint (Pos.to_uint p)). rewrite Hs. simpl.
  destruct (decide (String.length r <= 77)%nat) as [Hl|Hl]; [lia|exfalso].
  assert (10 ^ 78 <= 10 ^ Z.of_nat (String.length r)) by (apply Z.pow_le_mono_r; lia).
  assert (2 ^ 256 < 10 ^ 78) by (vm_compute; reflexivity). nia.
Qed.

Lemma json_quote_char_length c : (String.length (json_quote_char c) <= 6)%nat.
Proof. unfold json_quote_char. cbv zeta. repeat case_match; cbv [String.append]; simpl; lia. Qed.

Lemma json_quote_chars_length s : (String.length (json_quote_chars s) <= 6 * String.length s)%nat.
Proof.
  induction s as [|c s IH]; [simpl; lia|]. cbn [json_quote_chars]. rewrite str_length_app.
  pose proof (json_quote_char_length c). simpl. lia.
Qed.

Lemma json_quote_app s r : json_quote s +:+ r = String dq (json_quote_chars s +:+ String dq r).
Proof. unfold json_quote. by rewrite str_app_cons, str_app_assoc. Qed.

Lemma value_text_eq s :
  value_text s =
  String "{"%char (String dq ("value" +:+ String dq (String ":"%char
    (String dq (json_quote_chars s +:+ String dq "}"))))).
Proof.
  unfold value_text, json_object, json_member. cbn [String.concat].
  rewrite !str_app_assoc, !json_quote_app. reflexivity.
Qed.

Lemma value_text_length s : String.length (value_text s) = (12 + String.length (json_quote_chars s))%nat.
Proof. rewrite value_text_eq. simpl. rewrite !str_length_app. simpl. lia. Qed.

(** What the middleware reads from the posted text. *)
Lemma value_text_parse s : json_body_parse (value_text s) = Some (JObject [("value", JString s)]).
Proof.
  unfold json_body_parse. rewrite decide_False by (rewrite value_text_eq; discriminate).
  rewrite value_text_eq. cbn [skip_ws]. simpl. rewrite <- value_text_eq.
  apply (stringify_parse (fun _ => EmptyString)); [split; [repeat constructor; set_solver|done]|reflexivity].
Qed.

(** The decimal string of a [uint256], the way GET prints it, is what
    ethers reads back. *)
Lemma encode_decimal_uint256 z :
  0 <= z <= uint256_max -> encode_uint256 (JString (bigint_to_string z)) = Ok z.
Proof.
  intros Hz. unfold encode_uint256, get_big_int.
  rewrite decide_False by apply bigint_to_string_nonempty.
  rewrite decide_False by (intros [H _]; revert H; apply decimal_first_char, bigint_to_string_nonneg_decimal; lia).
  rewrite string_to_bigint_to_string.
  rewrite (proj2 (andb_true_iff _ _)) by (split; apply Z.leb_le; lia). done.
Qed.

Lemma value_text_uint256_limit z :
  0 <= z <= uint256_max -> (String.length (value_text (bigint_to_string z)) <= json_limit)%nat.
Proof.
  intros Hz. rewrite value_text_length.
  pose proof (json_quote_chars_length (bigint_to_string z)).
  assert (0 <= z < 2 ^ 256) as Hz' by (unfold uint256_max in Hz; lia).
  pose proof (uint256_digits z Hz'). unfold json_limit. lia.
Qed.

Lemma middleware_post_value ver z :
  0 <= z <= uint256_max ->
  json_middleware ver (post_http (value_text (bigint_to_string z))) =
  BodyReady (JObject [("value", JString (bigint_to_string z))]).
Proof.
  intros Hz. unfold json_middleware. cbn [hr_body hr_content_type hr_charset post_http].
  rewrite bool_decide_true by done. simpl negb. cbv iota.
  rewrite (proj2 (Nat.ltb_ge _ _)) by (by apply value_text_uint256_limit).
  by rewrite value_text_parse.
Qed.

Lemma app_route_post_value body : app_route (Request POST "/value" body) = Some (post_value_handler body).
Proof. reflexivity. Qed.

Lemma stored_after_set n z : stored (after_set n z) = z.
Proof. reflexivity. Qed.

Lemma serve1_post_value n z :
  idle n -> 0 <= z <= uint256_max ->
  serve1 n (post_req (JObject [("value", JString (bigint_to_string z))])) =
  (after_set n z, Some (post_ok_response (set_response n z) (set_receipt n z))).
Proof.
  intros Hi Hz. unfold serve1, post_req. rewrite app_route_post_value.
  rewrite (post_value_handler_present _ (JString (bigint_to_string z))) by done.
  rewrite run_try_catch, (run_submit_idle n _ z) by (done || by apply encode_decimal_uint256). done.
Qed.

Lemma after_set_wf n z :
  node_wf n -> idle n -> 0 <= z <= uint256_max -> node_wf (after_set n z).
Proof.
  intros Hwf Hi Hz. pose proof (serve1_wf n (post_req (JObject [("value", JString (bigint_to_string z))])) Hwf).
  by rewrite serve1_post_value in H.
Qed.

Section WireTheorems.
Variable fts : spec_float -> string.

Lemma serve_http_rejected ver n r e :
  json_middleware ver r = BodyRejected e -> serve_http fts ver n r = (n, Some (ErrorPage (body_error_status e))).
Proof. unfold serve_http. by intros ->. Qed.

Lemma middleware_json ver r text :
  hr_body r = Some text -> hr_content_type r = Some "application/json" ->
  json_middleware ver r =
  if negb (charset_ok (hr_charset r)) then BodyRejected UnsupportedCharset
  else if (json_limit <? String.length text)%nat then BodyRejected PayloadTooLarge
  else match json_body_parse text with Some v => BodyReady v | None => BodyRejected InvalidJson end.
Proof. intros Hb Hct. unfold json_middleware. rewrite Hb, Hct, bool_decide_true by done. done. Qed.

(** C29: what body-parser refuses never reaches a route, whatever the
    method and path: a JSON body in a charset other than UTF-8 is
    answered 415, one above 100kb 413, and one that is not JSON text, or
    whose first non-blank character opens neither an object nor an
    array (strict mode: ["12"] is refused), 400 — each with Express's
    HTML error page, not the [{error}] JSON of the handlers, and with the
    node untouched.  A body of another media type is not parsed: POST
    /value then answers 400 under Express 4 ([req.body] is [{}]) and 500
    under Express 5 ([req.body] is [undefined]). *)
Theorem body_parser_errors ver n r text :
  hr_body r = Some text ->
  (hr_content_type r = Some "application/json" -> charset_ok (hr_charset r) = false ->
     serve_http fts ver n r = (n, Some (ErrorPage 415)))
  /\ (hr_content_type r = Some "application/json" -> charset_ok (hr_charset r) = true ->
     (json_limit < String.length text)%nat -> serve_http fts ver n r = (n, Some (ErrorPage 413)))
  /\ (hr_content_type r = Some "application/json" -> charset_ok (hr_charset r) = true ->
     (String.length text <= json_limit)%nat -> text <> EmptyString ->
     (json_parse text = None \/ exists c rest, skip_ws text = String c rest /\ c <> "{"%char /\ c <> "["%char) ->
     serve_http fts ver n r = (n, Some (ErrorPage 400)))
  /\ (hr_content_type r <> Some "application/json" -> hr_method r = POST -> path_matches "/value" (hr_path r) = true ->
     exists t, serve_http fts ver n r =
       (n, Some (JsonReply (match ver with Express4 => 400 | Express5 => 500 end) t))).
Proof.
  intros Hb. split_and!.
  - intros Hct Hcs. apply (serve_http_rejected _ _ _ UnsupportedCharset). by rewrite (middleware_json ver r text), Hcs.
  - intros Hct Hcs Hl. apply (serve_http_rejected _ _ _ PayloadTooLarge).
    by rewrite (middleware_json ver r text), Hcs, (proj2 (Nat.ltb_lt _ _)).
  - intros Hct Hcs Hl Hne Hbad. apply (serve_http_rejected _ _ _ InvalidJson).
    rewrite (middleware_json ver r text), Hcs, (proj2 (Nat.ltb_ge _ _)) by done. simpl.
    unfold json_body_parse. rewrite decide_False by done.
    destruct Hbad as [Hp|(c & rest & Hs & Hc1 & Hc2)]; [|by rewrite Hs, decide_False by tauto].
    destruct (skip_ws text); [done|]. by case_decide; [rewrite Hp|].
  - intros Hct Hm Hp. unfold serve_http, json_middleware, app_route. rewrite Hb, bool_decide_false by done.
    cbn [negb req_path req_method]. rewrite Hp, Hm. unfold serve1, app_route. cbn [req_path req_method].
    rewrite Hp. by destruct ver; eexists.
Qed.

(** C30: the gateway on the wire, end to end: a client that posts the
    JSON text [{"value":"<z>"}] of a [uint256] [z] gets a 200 with a JSON
    text, the contract then holds [z], and a following [GET /value] is
    answered 200 with exactly the text that was posted, whichever
    Express major runs it. *)
Theorem http_write_read ver n z :
  node_wf n -> idle n -> 0 <= z <= uint256_max ->
  let '(n1, reply) := serve_http fts ver n (post_http (value_text (bigint_to_string z))) in
  stored n1 = z /\ (exists text, reply = Some (JsonReply 200 text))
  /\ serve_http fts ver n1 get_http = (n1, Some (JsonReply 200 (value_text (bigint_to_string z)))).
Proof.
  intros Hwf Hi Hz. unfold serve_http at 1. rewrite middleware_post_value by done.
  cbn [hr_method hr_path post_http]. rewrite app_route_post_value.
  change (Request POST "/value" ?b) with (post_req b). rewrite serve1_post_value by done.
  split_and!; [apply stored_after_set|by eexists|].
  unfold serve_http, get_http. cbn [json_middleware hr_body hr_method hr_path].
  assert (Hget : app_route (Request GET "/value" (unparsed_body ver)) = Some get_value_handler) by done.
  rewrite Hget. unfold serve1. rewrite Hget, run_get_idle by (done || by apply after_set_wf).
  by rewrite stored_after_set.
Qed.
End WireTheorems.

(** ** Witnesses *)

(** A JSON number posted as the whole body: valid JSON, refused by strict mode. *)
Definition scalar_post : http_request := HttpRequest POST "/value" (Some "application/json") None (Some "12").

Lemma body_parser_errors_witness :
  hr_body scalar_post = Some "12" /\ json_parse "12" <> None
  /\ serve_http (fun _ => EmptyString) Express4 deployed_node scalar_post = (deployed_node, Some (ErrorPage 400)).
Proof.
  assert (Hb : hr_body scalar_post = Some "12") by reflexivity.
  destruct (body_parser_errors (fun _ => EmptyString) Express4 deployed_node scalar_post "12" Hb)
    as (_ & _ & H400 & _).
  split_and!; [exact Hb|vm_compute; discriminate|].
  apply H400; [reflexivity|reflexivity|cbn [String.length]; unfold json_limit; lia|discriminate|].
  right. exists "1"%char, "2". split_and!; [reflexivity|discriminate|discriminate].
Defined.

Lemma http_write_read_witness :
  node_wf deployed_node /\ idle deployed_node /\ 0 <= 12 <= uint256_max
  /\ let '(n1, reply) :=
       serve_http (fun _ => EmptyString) Express5 deployed_node (post_http (value_text (bigint_to_string 12))) in
     stored n1 = 12 /\ (exists text, reply = Some (JsonReply 200 text))
     /\ serve_http (fun _ => EmptyString) Express5 n1 get_http
        = (n1, Some (JsonReply 200 (value_text (bigint_to_string 12)))).
Proof.
  assert (Hz : 0 <= 12 <= uint256_max) by (unfold uint256_max; lia).
  split; [exact deployed_node_wf|split; [exact deployed_node_idle|split; [exact Hz|]]].
  exact (http_write_read (fun _ => EmptyString) Express5 deployed_node 12 deployed_node_wf deployed_node_idle Hz).
Defined.
