(* ===== verification/Concurrency.v ===== *)
(** * Concurrency: requests in flight at the same time

    Node runs the handlers on one event loop: a request starts its
    handler, which runs synchronously up to its first [await]; from then
    on the loop resumes whichever pending call is answered first.  Here
    a configuration is the world, the requests in flight ([thread]: the
    call a handler is suspended on, or its settled outcome) and the
    console; [step] answers the call of one thread and runs it
    synchronously ([sync]) to its next [await].  A call is served by the
    world at the step that resumes its caller.

    - [concurrent_wf]: under any interleaving of any handlers, the node
      invariant of Chain.v holds.
    - [concurrent_post_ok_truthful]: under any interleaving, mining and
      network faults, a 200 from POST names a mined transaction in the
      block it reports.  The proof carries, for every suspended handler,
      what it has learnt from the node ([facts], [learn]) and that its
      remaining code answers 200 only from what it learnt
      ([reports_truthfully]); [conc_ok] is the configuration invariant.
    - [concurrent_posts_collide]: two POSTs in flight together can read
      the same pending nonce; the second broadcast is then refused and a
      valid request is answered 500, although the node never failed. *)

From S2P Require Import Prelude Js Task Contract Rpc Ethers Gateway Chain Service.
Import EthersV6.

Section Interleaving.
Context {E : Type -> Type} {W A : Type}.

Inductive thread :=
| Blocked {X} (ev : E X) (k : result X -> task E A)
| Settled (o : outcome A).

(** Run a task synchronously up to its next [await]. *)
Fixpoint sync (t : task E A) : list console_line * thread :=
  match t with
  | Ret a => ([], Settled (Returned a))
  | Throw e => ([], Settled (Threw e))
  | Await ev k => ([], Blocked ev k)
  | Log l t' => let '(ls, th) := sync t' in (l :: ls, th)
  end.

Definition config : Type := W * list thread * list console_line.

(** Requests arrive in the order of the list; each handler runs to its
    first [await] when its request arrives. *)
Fixpoint start (w : W) (ts : list (task E A)) : config :=
  match ts with
  | [] => (w, [], [])
  | t :: ts' =>
      let '(ls, th) := sync t in
      let '(w', ths, tr) := start w ts' in (w', th :: ths, ls ++ tr)
  end.

Variable answer : W -> forall X, E X -> W -> result X -> Prop.

Inductive step : config -> config -> Prop :=
| step_resume i w ths tr X (ev : E X) k w' r ls th :
    ths !! i = Some (Blocked ev k) -> answer w X ev w' r -> sync (k r) = (ls, th) ->
    step (w, ths, tr) (w', <[i := th]> ths, tr ++ ls).

(** Whatever the world satisfies before every call and keeps after it
    holds in every configuration an interleaving reaches. *)
Lemma step_invariant (P : W -> Prop) :
  (forall w X (ev : E X) w' r, P w -> answer w X ev w' r -> P w') ->
  forall c c', rtc step c c' -> P c.1.1 -> P c'.1.1.
Proof.
  intros Hans c c' Hst. induction Hst as [|c1 c2 c3 Hs _ IH]; [done|].
  intros Hp. apply IH. destruct Hs. simpl in *. eauto.
Qed.
End Interleaving.

Arguments thread : clear implicits.
Arguments config : clear implicits.

(** ** The gateway's requests in flight together on the node *)

Local Abbreviation gstep := (step (E := rpc) (A := response) node_answer).

Definition body_seven : jsval := JObject [("value", JString "7")].

(** Where POST 5 and POST 7 end when both read the pending nonce before
    either broadcasts. *)
Definition collide_trace : list console_line :=
  [sent_line (set_response deployed_node 5); post_error_line nonce_taken;
   confirmed_line (set_receipt deployed_node 5)].

Definition collide_end : config rpc node response :=
  (after_set deployed_node 5,
   [Settled (Returned (post_ok_response (set_response deployed_node 5) (set_receipt deployed_node 5)));
    Settled (Returned post_error_response)],
   collide_trace).

(** What a handler has learnt from the node so far: the hash the node
    gave for its broadcast, and the receipt of the call it resumed from. *)
Record facts := Facts { f_sent : option (tx * string); f_waited : option (tx * receipt) }.

Definition learn {X} (ev : rpc X) (r : result X) (f : facts) : facts :=
  match ev in rpc X return result X -> facts with
  | SendRawTransaction t => fun r => Facts (if r is Ok h then Some (t, h) else f_sent f) None
  | WaitReceipt t => fun r => Facts (f_sent f) (if r is Ok rc then Some (t, rc) else None)
  | _ => fun _ => Facts (f_sent f) None
  end r.

(** A 200 of the POST shape names the hash the node gave for the
    transaction and the receipt it has just returned for it. *)
Definition ret_ok (f : facts) (r : response) : Prop :=
  forall txr rc, r = post_ok_response txr rc ->
  exists t h rc', f_sent f = Some (t, h) /\ f_waited f = Some (t, rc') /\ r = post_ok_response (TxResponse h t) rc'.

Fixpoint reports_truthfully (t : task rpc response) (f : facts) : Prop :=
  match t with
  | Ret r => ret_ok f r
  | Throw _ => True
  | Log _ t' => reports_truthfully t' f
  | Await ev k => forall r, reports_truthfully (k r) (learn ev r f)
  end.

Definition reports_thread (th : thread rpc response) (f : facts) : Prop :=
  match th with
  | Blocked ev k => forall r, reports_truthfully (k r) (learn ev r f)
  | Settled (Returned r) => ret_ok f r
  | Settled (Threw _) => True
  end.

Definition facts_sound (f : facts) : Prop := forall t h, f_sent f = Some (t, h) -> h = tx_hash t.

(** A 200 of the POST shape is the answer for a transaction that the
    node [n] has mined, in the block it reports. *)
Definition truthful_ok (n : node) (r : response) : Prop :=
  forall txr rc, r = post_ok_response txr rc ->
  exists t b, find_mined t (nd_mined n) = Some b /\
    r = post_ok_response (TxResponse (tx_hash t) t) (Receipt (tx_hash t) b true).

Definition thread_ok (n : node) (th : thread rpc response) : Prop :=
  match th with
  | Blocked ev k => exists f, facts_sound f /\ forall r, reports_truthfully (k r) (learn ev r f)
  | Settled (Returned r) => truthful_ok n r
  | Settled (Threw _) => True
  end.

Definition conc_ok (c : config rpc node response) : Prop :=
  node_wf c.1.1 /\ Forall (thread_ok c.1.1) c.1.2.

(** However the requests in flight interleave, and whatever the node
    mines or the network loses meanwhile, the node invariant holds in
    every configuration they reach. *)
Lemma concurrent_wf n ts c :
  node_wf n -> rtc gstep (start n ts) c -> node_wf c.1.1.
Proof.
  intros Hwf Hst. eapply (step_invariant node_answer node_wf); [exact node_answer_wf| exact Hst|].
  clear Hst. induction ts as [|t ts IH]; simpl; [done|].
  destruct (sync t), (start n ts) as [[??]?]. exact IH.
Qed.

Lemma learn_sound n X (ev : rpc X) n' r f :
  node_answer n X ev n' r -> facts_sound f -> facts_sound (learn ev r f).
Proof.
  intros Hans Hf. destruct ev; simpl; try exact Hf.
  destruct r as [h|e]; [|exact Hf]. intros t' h' [= <- <-].
  apply node_answer_ok in Hans as (n0 & _ & Hr). by apply node_reply_send_ok in Hr.
Qed.

Lemma learn_waited n X (ev : rpc X) n' r f t rc :
  node_answer n X ev n' r -> f_waited (learn ev r f) = Some (t, rc) ->
  find_mined t (nd_mined n') = Some (rc_block rc).
Proof.
  intros Hans. destruct ev; simpl; try discriminate.
  destruct r as [rc'|e]; [intros [= <- <-]|discriminate].
  apply node_answer_ok in Hans as (n0 & _ & Hr). by apply node_reply_wait_ok in Hr as (-> & _ & ?).
Qed.

Lemma sync_reports t f : reports_truthfully t f -> reports_thread (sync t).2 f.
Proof.
  induction t as [r|e|X ev k _|l t IH]; simpl; try done.
  intros Ht. specialize (IH Ht). destruct (sync t) as [ls th]. exact IH.
Qed.

(** A handler resumed with sound knowledge of the node is in a good state. *)
Lemma thread_ok_sync n t f :
  facts_sound f ->
  (forall tx rc, f_waited f = Some (tx, rc) -> find_mined tx (nd_mined n) = Some (rc_block rc)) ->
  reports_truthfully t f -> thread_ok n (sync t).2.
Proof.
  intros Hs Hw Ht%sync_reports. destruct (sync t).2 as [Y ev k|[r|e]]; simpl in *; [eauto| |done].
  intros txr rc Hr. destruct (Ht txr rc Hr) as (tx & h & rc' & Hsent & Hwait & ->).
  apply Hs in Hsent as ->. apply Hw in Hwait. by exists tx, (rc_block rc').
Qed.

Lemma thread_ok_stable n X (ev : rpc X) n' r th :
  node_wf n -> node_answer n X ev n' r -> thread_ok n th -> thread_ok n' th.
Proof.
  intros Hwf Hans. destruct th as [Y ev' k|[r'|e]]; simpl; try done.
  unfold truthful_ok. intros Hok txr rc Hr. destruct (Hok txr rc Hr) as (t & b & Hf & ->).
  exists t, b. split; [by eapply node_answer_find_mined|done].
Qed.

Lemma step_conc_ok c c' : gstep c c' -> conc_ok c -> conc_ok c'.
Proof.
  destruct 1 as [i w ths tr X ev k w' r ls th Hi Hans Hs]. intros [Hwf Hall]. simpl in *.
  split; [by eapply node_answer_wf|]. apply Forall_insert.
  - eapply Forall_impl; [exact Hall|]. intros th'. by eapply thread_ok_stable.
  - pose proof (Forall_lookup_1 _ _ _ _ Hall Hi) as Hth. simpl in Hth. destruct Hth as (f & Hf & Hk).
    replace th with (sync (k r)).2 by by rewrite Hs.
    apply (thread_ok_sync _ _ (learn ev r f)); [by eapply learn_sound|intros ??; by eapply learn_waited|apply Hk].
Qed.

Lemma start_conc_ok n ts :
  node_wf n -> Forall (fun t => reports_truthfully t (Facts None None)) ts ->
  conc_ok (start n ts) /\ (start n ts).1.1 = n.
Proof.
  intros Hwf. induction 1 as [|t ts Ht _ [[_ IH] Hn]]; simpl; [by split; [split|]|].
  pose proof (thread_ok_sync n t (Facts None None)) as Hth.
  destruct (sync t) as [ls th], (start n ts) as [[w ths] tr]. simpl in *. subst w.
  split; [split; [done|constructor; [|done]]|done].
  by apply Hth; [intros ?? [=]|intros ?? [=]|].
Qed.

Local Ltac responses_differ :=
  unfold ret_ok, get_ok_response, get_error_response, post_missing_response, post_error_response,
    post_ok_response; intros ?? [=].

Lemma get_value_handler_reports : reports_truthfully get_value_handler (Facts None None).
Proof.
  cbn. intros [v|e]; cbn -[decode_get_result]; [destruct (decode_get_result v)|]; cbn; try done;
    responses_differ.
Qed.

(** The POST handler answers 200 only right after the receipt of the
    transaction it broadcast, with the hash the node gave for it. *)
Lemma post_value_handler_reports body : reports_truthfully (post_value_handler body) (Facts None None).
Proof.
  unfold post_value_handler, destructure_value. destruct (js_get body "value") as [v|]; simpl; [|done].
  destruct (is_undefined v); simpl; [responses_differ|].
  unfold submit_and_confirm. simpl. unfold EthersV6.set. destruct (encode_uint256 v) as [x|e]; simpl; [|done].
  intros [n|e]; simpl; [|done]. intros [h|e]; simpl; [|done]. intros [rc|e]; simpl; [|done].
  destruct (rc_status rc); simpl; [|done]. intros ?? _. eauto 10.
Qed.

Lemma app_route_reports req t : app_route req = Some t -> reports_truthfully t (Facts None None).
Proof.
  unfold app_route. destruct (path_matches _ _); [|done].
  destruct (req_method req); intros [= <-];
    auto using get_value_handler_reports, post_value_handler_reports.
Qed.

Lemma routed_reports reqs ts :
  map app_route reqs = map Some ts -> Forall (fun t => reports_truthfully t (Facts None None)) ts.
Proof.
  revert ts. induction reqs as [|req reqs IH]; intros [|t ts]; simpl; try done.
  intros [= Hr Hrs]. constructor; [by eapply app_route_reports|auto].
Qed.

(** C22: however the requests routed to the handlers interleave, and
    whatever the node mines or the network loses meanwhile, a request
    answered 200 with a transaction hash and block number names a
    transaction the node has mined, in that block, and its hash. *)
Theorem concurrent_post_ok_truthful reqs ts n c i txr rc :
  map app_route reqs = map Some ts -> node_wf n -> rtc gstep (start n ts) c ->
  c.1.2 !! i = Some (Settled (Returned (post_ok_response txr rc))) ->
  exists t b, find_mined t (nd_mined c.1.1) = Some b /\
    post_ok_response txr rc = post_ok_response (TxResponse (tx_hash t) t) (Receipt (tx_hash t) b true).
Proof.
  intros Hr%routed_reports Hwf Hst Hi.
  destruct (start_conc_ok n ts Hwf Hr) as [Hok _].
  assert (conc_ok c) as [_ Hall].
  { clear Hi. induction Hst as [|c1 c2 c3 Hs _ IH]; [done|]. apply IH. by eapply step_conc_ok. }
  pose proof (Forall_lookup_1 _ _ _ _ Hall Hi) as Hth. exact (Hth txr rc eq_refl).
Qed.

(** The node answers a call at once, without mining first. *)
Lemma node_answer_now n X (ev : rpc X) n' r :
  node_reply n ev = Some (n', r) -> node_answer n X ev n' r.
Proof. intros H. exists n. split; [apply rtc_refl|by left]. Qed.

Local Ltac resume i :=
  eapply rtc_l; [eapply (step_resume _ i%nat); [reflexivity|apply node_answer_now; reflexivity|reflexivity]|];
  simpl.

Lemma collide_run :
  rtc gstep (start deployed_node [post_value_handler body_five; post_value_handler body_seven]) collide_end.
Proof.
  resume 0%nat. resume 1%nat. resume 0%nat. resume 1%nat.
  eapply rtc_l; [eapply step_resume with (i := 0%nat) (w' := after_set deployed_node 5)
                   (r := Ok (set_receipt deployed_node 5)); [reflexivity| |reflexivity]|].
  - exists (after_set deployed_node 5). split; [apply rtc_once; reflexivity|left; reflexivity].
  - apply rtc_refl.
Qed.

(** C21: two POSTs in flight together on a healthy node, interleaved so
    that both read the pending nonce before either broadcasts: the first
    is mined and answered 200, the second is refused by the node as a
    replacement of the first and answered 500, and only the first value
    is stored.  Served one after the other, both succeed ([serve_refines]). *)
Theorem concurrent_posts_collide :
  exists n' tr,
    rtc gstep (start deployed_node [post_value_handler body_five; post_value_handler body_seven])
      (n', [Settled (Returned (post_ok_response (set_response deployed_node 5) (set_receipt deployed_node 5)));
            Settled (Returned post_error_response)], tr)
    /\ post_error_line nonce_taken ∈ tr /\ stored n' = 5.
Proof.
  exists (after_set deployed_node 5), collide_trace. split; [exact collide_run|split].
  - unfold collide_trace. set_solver.
  - reflexivity.
Qed.

Lemma concurrent_post_ok_truthful_witness :
  map app_route [post_req body_five; post_req body_seven]
    = map Some [post_value_handler body_five; post_value_handler body_seven]
  /\ node_wf deployed_node
  /\ rtc gstep (start deployed_node [post_value_handler body_five; post_value_handler body_seven]) collide_end
  /\ collide_end.1.2 !! 0%nat
     = Some (Settled (Returned (post_ok_response (set_response deployed_node 5) (set_receipt deployed_node 5))))
  /\ exists t b, find_mined t (nd_mined collide_end.1.1) = Some b /\
       post_ok_response (set_response deployed_node 5) (set_receipt deployed_node 5)
       = post_ok_response (TxResponse (tx_hash t) t) (Receipt (tx_hash t) b true).
Proof.
  assert (Hr : map app_route [post_req body_five; post_req body_seven]
               = map Some [post_value_handler body_five; post_value_handler body_seven]) by reflexivity.
  assert (Hi : collide_end.1.2 !! 0%nat
     = Some (Settled (Returned (post_ok_response (set_response deployed_node 5) (set_receipt deployed_node 5)))))
    by reflexivity.
  split; [exact Hr|split; [exact deployed_node_wf|split; [exact collide_run|split; [exact Hi|]]]].
  exact (concurrent_post_ok_truthful _ _ _ _ _ _ _ Hr deployed_node_wf collide_run Hi).
Defined.
