(* ===== verification/Scheduler.v ===== *)
(** * Scheduler: what a handler hands back to the event loop

    Express calls a route handler and sends whatever it passes to
    [res.json]; a handler that throws instead leaves the request without
    an answer.  [returns_within P d t] says that [t] returns a value
    satisfying [P], without throwing, after at most [d] answered calls
    whatever the answers are; [exec_returns_within] turns that bound into
    a fact about every run.  For the gateway, every routed handler
    returns a well-formed response ([response_ok]: status 200, 400 or
    500, a body [res.json] serializes) whatever the world answers. *)

From S2P Require Import Prelude Js Task Json Contract Rpc Ethers Gateway.
Import EthersV6.

Section Bounds.
Context {E : Type -> Type} {A : Type}.

(** [t] returns a value satisfying [P], and never throws, after at most
    [d] answered calls, whatever the answers are. *)
Fixpoint returns_within (P : A -> Prop) (d : nat) (t : task E A) : Prop :=
  match t with
  | Ret a => P a
  | Throw _ => False
  | Log _ t' => returns_within P d t'
  | Await ev k => match d with O => False | S d' => forall r, returns_within P d' (k r) end
  end.

Lemma returns_within_mono P Q d d' t :
  (forall a, P a -> Q a) -> (d <= d')%nat -> returns_within P d t -> returns_within Q d' t.
Proof.
  intros HPQ. revert d d'. induction t as [a|e|X ev k IH|l t IH]; intros d d' Hle; simpl; [auto|done| |eauto].
  destruct d as [|d]; [done|]. destruct d' as [|d']; [lia|]. intros H r. apply (IH r d); [lia|done].
Qed.

(** In every run, a task bounded this way returns a value satisfying [P]. *)
Lemma exec_returns_within {W} (answer : W -> forall X, E X -> W -> result X -> Prop) P d t w w' o tr :
  returns_within P d t -> exec answer w t w' o tr -> exists a, o = Returned a /\ P a.
Proof.
  revert d w tr. induction t as [a|e|X ev k IH|l t IH]; intros d w tr; simpl; [naive_solver|done| |naive_solver].
  destruct d as [|d]; [done|]. intros Hk (w1 & r & _ & Hex). eauto.
Qed.
End Bounds.

(** ** The gateway's handlers *)

(** What [res.status(...).json(...)] can send: one of the three statuses
    the code sets, and a body [JSON.stringify] serializes. *)
Definition response_ok (r : response) : Prop :=
  res_status r ∈ [200; 400; 500] /\ forall fts, exists text, json_stringify fts (res_body r) = Ok (Some text).

Local Ltac response_shape := split; [set_solver|intros fts; eexists; reflexivity].

Lemma get_value_handler_within : returns_within response_ok 1 get_value_handler.
Proof.
  cbn. intros [v|e]; cbn -[decode_get_result]; [destruct (decode_get_result v)|]; response_shape.
Qed.

Lemma post_value_handler_within body : returns_within response_ok 3 (post_value_handler body).
Proof.
  unfold post_value_handler, destructure_value. destruct (js_get body "value") as [v|]; simpl; [|response_shape].
  destruct (is_undefined v); simpl; [response_shape|].
  unfold submit_and_confirm. simpl. unfold EthersV6.set. destruct (encode_uint256 v) as [x|e]; simpl; [|response_shape].
  intros [n|e]; simpl; [|response_shape]. intros [h|e]; simpl; [|response_shape].
  intros [rc|e]; simpl; [|response_shape]. destruct (rc_status rc); simpl; response_shape.
Qed.

Lemma app_route_within req t : app_route req = Some t -> returns_within response_ok 3 t.
Proof.
  unfold app_route. destruct (path_matches _ _); [|done].
  destruct (req_method req); intros Ht; simplify_eq;
    eauto using returns_within_mono, get_value_handler_within, post_value_handler_within.
Qed.

(** C27: what a routed handler sends is well formed: in every run,
    whatever the world answers (any [answer], so any node, network or
    interleaving), the handler returns a response (it never throws out
    of the handler, which would leave the request without an answer),
    its status is one of 200, 400 and 500, and its body is one
    [res.json] can serialize: the contract's [uint256] is sent as the
    string of its digits, never as the BigInt [contract.get()] returns,
    on which [JSON.stringify] throws. *)
Theorem handler_responses_ok {W} (answer : W -> forall X, rpc X -> W -> result X -> Prop) req t w w' o tr :
  app_route req = Some t -> exec answer w t w' o tr ->
  exists r, o = Returned r /\ res_status r ∈ [200; 400; 500] /\ forall fts, exists text, json_stringify fts (res_body r) = Ok (Some text).
Proof. intros Hr%app_route_within Hex. exact (exec_returns_within answer _ _ _ _ _ _ _ Hr Hex). Qed.

Lemma handler_responses_ok_witness :
  app_route (Request GET "/value" JUndefined) = Some get_value_handler
  /\ exec any_answer tt get_value_handler tt (Returned (get_ok_response 7)) []
  /\ exists r, Returned (get_ok_response 7) = Returned r /\ res_status r ∈ [200; 400; 500]
               /\ forall fts, exists text, json_stringify fts (res_body r) = Ok (Some text).
Proof.
  assert (Hr : app_route (Request GET "/value" JUndefined) = Some get_value_handler) by reflexivity.
  assert (Hex : exec any_answer tt get_value_handler tt (Returned (get_ok_response 7)) []).
  { exists tt, (Ok (encode_word 7)). split; [done|]. cbn -[decode_get_result].
    rewrite decode_get_result_word by apply encode_word_length. rewrite decode_encode_word_small by lia. done. }
  split; [exact Hr|split; [exact Hex|exact (handler_responses_ok any_answer _ _ _ _ _ _ Hr Hex)]].
Defined.
