(* ===== verification/Config.v ===== *)
(** * Config: the start of [src/api/src/index.js]

    Module evaluation of the gateway (lines 1-35 and 73-77): read
    [RPC_URL], [PRIVATE_KEY] and [SIMPLE_STORAGE_ADDRESS] from
    [process.env] (after [dotenv] has filled it: [env] is the final
    environment), exit with code 1 when one is falsy, build the provider
    and wallet, start the background wallet report, register the routes
    and listen on [PORT || 3001].  [startup] returns the effects in the
    order the code performs them.  [dotenv_load] is line 1, the
    environment [startup] reads; [listen_line] is the line the [listen]
    callback logs (lines 74-76).

    [new ethers.Wallet(PRIVATE_KEY, provider)] throws on a malformed key,
    an uncaught exception at module level that ends the process.  The
    key check and the address derived from the key belong to the library
    and are Section variables of [startup], so C13 and C26 hold for
    any wallet library; C14 takes the ethers v6 check of Wallet.v
    ([wallet_accepts]).  The address stays a parameter. *)

From S2P Require Import Prelude Js Task Json Wallet Regex Dotenv Rpc.
From Stdlib Require Import Ascii.

Definition env_var (env : gmap string string) (k : string) : jsval :=
  match env !! k with Some s => JString s | None => JUndefined end.

(** [ethers.formatEther(wei)]: the amount in ether with at least one
    fractional digit and no trailing zeros beyond it. *)
Fixpoint zeros (k : nat) : string :=
  match k with O => EmptyString | S k' => String "0"%char (zeros k') end.

(** Left-pad with zeros to [width] characters. *)
Definition pad_zeros (width : nat) (s : string) : string := zeros (width - String.length s) +:+ s.

Fixpoint trim_trailing_zeros (s : string) : string :=
  match s with
  | EmptyString => EmptyString
  | String c r =>
      let r' := trim_trailing_zeros r in
      if bool_decide (r' = "" /\ c = "0"%char) then EmptyString else String c r'
  end.

Definition format_ether (wei : Z) : string :=
  let sign := if wei <? 0 then "-" else "" in
  let a := Z.abs wei in
  let frac := trim_trailing_zeros (pad_zeros 18 (bigint_to_string (a mod 10 ^ 18))) in
  sign +:+ bigint_to_string (a / 10 ^ 18) +:+ "." +:+ (if bool_decide (frac = "") then "0" else frac).

Inductive startup_effect :=
| EffLog (l : console_line)
| EffExit (code : Z)
| EffSpawn (t : task rpc unit)
| EffListen (port : jsval).

Definition missing_env_line : console_line :=
  ConsoleError [JString "Faltando RPC_URL, PRIVATE_KEY ou SIMPLE_STORAGE_ADDRESS no .env"].
Definition up_line : console_line := ConsoleLog [JString "API Web3 up!"].
Definition default_port : jsval := JNumber (number_of_Z 3001).

Section Startup.
(** The wallet library: which private keys [new Wallet] accepts, and
    the address of a key. *)
Variable private_key_valid : string -> bool.
Variable address_of_key : string -> string.

(** Lines 23-28: the wallet report, started without being awaited. *)
Definition wallet_report (key : string) : task rpc unit :=
  TRY
    (bal ← await GetBalance;
     Log (ConsoleLog [JString "Wallet da API:"; JString (address_of_key key)])
     (Log (ConsoleLog [JString "Saldo da wallet:"; JString (format_ether bal); JString "ETH"])
     (Ret tt)))
  CATCH (err) Log (ConsoleError [JErr err]) (Ret tt).

Definition startup (env : gmap string string) : list startup_effect :=
  let rpc_url := env_var env "RPC_URL" in
  let private_key := env_var env "PRIVATE_KEY" in
  let address := env_var env "SIMPLE_STORAGE_ADDRESS" in
  if negb (js_truthy rpc_url) || negb (js_truthy private_key) || negb (js_truthy address)
  then [EffLog missing_env_line; EffExit 1]
  else
    match private_key with
    | JString key =>
        if private_key_valid key then
          [EffSpawn (wallet_report key);
           EffListen (js_or (env_var env "PORT") default_port);
           EffLog up_line]
        else [EffExit 1]
    | _ => [EffExit 1]
    end.
End Startup.

(** ** [require("dotenv").config()], line 1

    dotenv reads [.env] into an object ([parse]: one assignment per
    [KEY=VALUE] line, in file order, so a later line for the same key
    replaces the value and keeps the key's place), then copies it into
    [process.env] ([populate]: a key [process.env] already has is kept,
    with [override] false as here).  [lines] is the list of assignments
    Dotenv.v's [dotenv_lines] reads from the file's text; [dotenv_load]
    composes the two. *)

Definition dotenv_parse (lines : list (string * string)) : list (string * string) :=
  foldl (fun o kv => obj_set o kv.1 kv.2) [] lines.

Definition dotenv_populate (env : gmap string string) (parsed : list (string * string)) : gmap string string :=
  foldl (fun e kv => if decide (is_Some (e !! kv.1)) then e else <[kv.1 := kv.2]> e) env parsed.

Definition dotenv_config (process_env : gmap string string) (lines : list (string * string)) : gmap string string :=
  dotenv_populate process_env (dotenv_parse lines).

(** Line 1 on the text of [.env]. *)
Definition dotenv_load (process_env : gmap string string) (src : string) : gmap string string :=
  dotenv_config process_env (dotenv_lines src).

(** ** The [app.listen] callback, lines 74-76

    The template literal [`...${PORT}`] converts [PORT]: a string is
    itself, an integral number below [10^21] its decimal digits; the
    other values never reach it ([None]). *)
Definition template_text (v : jsval) : option string :=
  match v with
  | JString s => Some s
  | JNumber x =>
      match number_integer_value x with
      | Some z => if Z.abs z <? 10 ^ 21 then Some (bigint_to_string z) else None
      | None => None
      end
  | _ => None
  end.

Definition listen_line (port : jsval) : option console_line :=
  match template_text port with
  | Some s => Some (ConsoleLog [JString ("API Web3 rodando em http://localhost:" +:+ s)])
  | None => None
  end.

(** ** Startup theorems *)

(** A variable is set when it is present and not the empty string: [!x]
    is true for both [undefined] and [""]. *)
Definition configured (env : gmap string string) (k : string) : Prop :=
  exists s, env !! k = Some s /\ s <> "".

Lemma truthy_env_var env k : js_truthy (env_var env k) = true <-> configured env k.
Proof.
  unfold env_var, configured. destruct (env !! k) as [s|]; simpl; [|naive_solver].
  rewrite negb_true_iff, bool_decide_eq_false. naive_solver.
Qed.

Lemma truthy_env_var_false env k : js_truthy (env_var env k) = false <-> ~ configured env k.
Proof. rewrite <- truthy_env_var. destruct (js_truthy _); naive_solver. Qed.

Section StartupTheorems.
Variable private_key_valid : string -> bool.
Variable address_of_key : string -> string.
Local Abbreviation startup := (startup private_key_valid address_of_key).

(** The three ways the start of the module can go. *)
Lemma startup_shape env :
  (~ (configured env "RPC_URL" /\ configured env "PRIVATE_KEY" /\ configured env "SIMPLE_STORAGE_ADDRESS")
   /\ startup env = [EffLog missing_env_line; EffExit 1])
  \/ (configured env "RPC_URL" /\ configured env "SIMPLE_STORAGE_ADDRESS" /\
      exists key, env !! "PRIVATE_KEY" = Some key /\ key <> "" /\
      ((private_key_valid key = true /\
        startup env = [EffSpawn (wallet_report address_of_key key);
                       EffListen (js_or (env_var env "PORT") default_port); EffLog up_line])
       \/ (private_key_valid key = false /\ startup env = [EffExit 1]))).
Proof.
  unfold startup.
  destruct (js_truthy (env_var env "RPC_URL")) eqn:E1,
    (js_truthy (env_var env "PRIVATE_KEY")) eqn:E2,
    (js_truthy (env_var env "SIMPLE_STORAGE_ADDRESS")) eqn:E3; simpl.
  all: repeat match goal with
    | H : js_truthy (env_var _ _) = true |- _ => apply truthy_env_var in H
    | H : js_truthy (env_var _ _) = false |- _ => apply truthy_env_var_false in H
    end; try naive_solver.
  destruct E2 as (key & Hk & Hne). right. split_and!; [done|done|exists key].
  assert (env_var env "PRIVATE_KEY" = JString key) as -> by (unfold env_var; by rewrite Hk).
  destruct (private_key_valid key); naive_solver.
Qed.

Lemma port_value env :
  js_or (env_var env "PORT") default_port =
  match env !! "PORT" with
  | Some s => if decide (s = "") then default_port else JString s
  | None => default_port
  end.
Proof.
  unfold js_or, env_var. destruct (env !! "PORT") as [s|]; [|done]. simpl.
  by destruct (decide (s = "")); [subst|rewrite bool_decide_false].
Qed.

(** C13: the process prints the error and exits with code 1, before
    anything else, exactly when one of the three variables is missing
    or empty. *)
Theorem startup_exit_missing env :
  startup env = [EffLog missing_env_line; EffExit 1] <->
  ~ (configured env "RPC_URL" /\ configured env "PRIVATE_KEY" /\ configured env "SIMPLE_STORAGE_ADDRESS").
Proof.
  destruct (startup_shape env) as [[Hn ->]|(H1 & H3 & key & Hk & Hne & [[_ ->]|[_ ->]])];
    unfold configured in *; naive_solver.
Qed.

(** For any wallet library: the server listens only when the three
    variables are set and the key is one the wallet accepts, and then
    on [PORT] when it is set and non-empty, on the number 3001 otherwise. *)
Lemma startup_listens_any env p :
  EffListen p ∈ startup env <->
  configured env "RPC_URL" /\ configured env "SIMPLE_STORAGE_ADDRESS"
  /\ (exists key, env !! "PRIVATE_KEY" = Some key /\ key <> "" /\ private_key_valid key = true)
  /\ p = match env !! "PORT" with
         | Some s => if decide (s = "") then default_port else JString s
         | None => default_port
         end.
Proof.
  rewrite <- port_value.
  destruct (startup_shape env) as [[Hn ->]|(H1 & H3 & key & Hk & Hne & [[Hv ->]|[Hv ->]])];
    rewrite ?elem_of_cons, ?elem_of_nil; split.
  - by intros [?|[?|[]]].
  - intros (? & ? & (k & ? & ? & _) & _). destruct Hn. unfold configured. eauto 10.
  - naive_solver.
  - naive_solver.
  - by intros [?|[]].
  - intros (_ & _ & (k & Hk' & _ & Hv') & _). congruence.
Qed.
End StartupTheorems.

Section EthersStartup.
Variable address_of_key : string -> string.

(** C14: with the ethers v6 [Wallet], the server listens exactly when
    [RPC_URL] and [SIMPLE_STORAGE_ADDRESS] are set and [PRIVATE_KEY] is
    64 hex digits, with or without [0x], naming a secp256k1 scalar
    between 1 and [n - 1]; it then listens on [PORT] when that is set
    and non-empty, on the number 3001 otherwise.  Any other key (a [0X]
    prefix, 63 or 65 digits, white space, zero) stops the module. *)
Theorem startup_listens env p :
  EffListen p ∈ startup wallet_accepts address_of_key env <->
  configured env "RPC_URL" /\ configured env "SIMPLE_STORAGE_ADDRESS"
  /\ (exists key digits k, env !! "PRIVATE_KEY" = Some key /\ (key = digits \/ key = "0x" +:+ digits)
        /\ String.length digits = 64%nat /\ hex_digits 0 digits = Some k /\ 1 <= k < secp256k1_n)
  /\ p = match env !! "PORT" with
         | Some s => if decide (s = "") then default_port else JString s
         | None => default_port
         end.
Proof.
  rewrite startup_listens_any. unfold wallet_accepts. apply and_iff_compat_l, and_iff_compat_l, and_iff_compat_r.
  split.
  - intros (key & Hk & _ & Hv). destruct (wallet_key key) as [k|] eqn:Hw; [|done].
    apply wallet_key_spec in Hw. naive_solver.
  - intros (key & d & k & Hk & Hd & Hl & Hh & Hb). exists key. split_and!; [done| |].
    + intros ->. destruct Hd as [<-|Hd]; [done|]. by destruct d.
    + rewrite (proj2 (wallet_key_spec key k)); naive_solver.
Qed.
End EthersStartup.

(** ** dotenv *)

Lemma obj_set_map o k v : list_to_map (obj_set o k v) =@{gmap string string} <[k := v]> (list_to_map o).
Proof.
  induction o as [|[k' v'] o IH]; simpl; [reflexivity|]. case_decide as Hk; simpl.
  - subst. by rewrite insert_insert_eq.
  - rewrite IH. by rewrite insert_insert_ne.
Qed.

(** The object dotenv builds holds, for each key, the value of its last line. *)
Lemma dotenv_parse_spec lines :
  list_to_map (dotenv_parse lines) =@{gmap string string} list_to_map (reverse lines)
  /\ NoDup (dotenv_parse lines).*1.
Proof.
  unfold dotenv_parse. induction lines as [|[k v] lines IH] using rev_ind; simpl; [split; [done|constructor]|].
  rewrite foldl_app, reverse_app. simpl. destruct IH as [IH Hnd].
  split; [by rewrite obj_set_map, IH|by apply obj_set_nodup].
Qed.

(** Inserting each key that is absent is a left-biased union. *)
Lemma foldl_insert_absent (env : gmap string string) (o : list (string * string)) :
  NoDup o.*1 ->
  foldl (fun e kv => if decide (is_Some (e !! kv.1)) then e else <[kv.1 := kv.2]> e) env o
  = env ∪ list_to_map o.
Proof.
  revert env. induction o as [|[k v] o IH]; intros env; simpl.
  - by rewrite (right_id_L _ _).
  - rewrite NoDup_cons. intros [Hk Hnd]. rewrite IH by done.
    assert (list_to_map o !! k =@{option string} None) by (apply not_elem_of_list_to_map_1; done).
    apply map_eq. intros j. rewrite !lookup_union. case_decide as He; destruct (decide (j = k)) as [->|Hj].
    + rewrite lookup_insert_eq, H. destruct He as [x ->]. reflexivity.
    + by rewrite lookup_insert_ne.
    + rewrite !lookup_insert_eq, H. destruct (env !! k); [destruct He; eauto|reflexivity].
    + by rewrite !lookup_insert_ne.
Qed.

(** C25: loading [.env] is a left-biased union: a variable the process
    environment has keeps its value, even the empty string, and a
    variable it lacks takes the value of the last line of [.env] that
    sets it. *)
Theorem dotenv_config_union process_env lines :
  dotenv_config process_env lines = process_env ∪ list_to_map (reverse lines).
Proof.
  destruct (dotenv_parse_spec lines) as [Hmap Hnd]. unfold dotenv_config, dotenv_populate.
  by rewrite foldl_insert_absent, Hmap.
Qed.

Lemma dotenv_config_lookup process_env lines k :
  dotenv_config process_env lines !! k =
  match process_env !! k with Some s => Some s | None => (list_to_map (reverse lines) : gmap string string) !! k end.
Proof.
  destruct (dotenv_parse_spec lines) as [Hmap Hnd]. unfold dotenv_config, dotenv_populate.
  rewrite foldl_insert_absent, Hmap by done. rewrite lookup_union. by destruct (process_env !! k), (_ !! k).
Qed.

(** Loading a [.env] of plain [KEY=value] lines: the variables the
    process lacks take the value of the last line that sets them. *)
Lemma dotenv_load_render process_env es :
  Forall plain_entry es -> dotenv_load process_env (render es) = process_env ∪ list_to_map (reverse es).
Proof.
  intros Hes. unfold dotenv_load, render.
  rewrite (dotenv_lines_rendered render_entry id plain_entry plain_step plain_head plain_no_cr es Hes), map_id.
  destruct (dotenv_parse_spec es) as [Hmap Hnd]. unfold dotenv_config, dotenv_populate.
  by rewrite foldl_insert_absent, Hmap.
Qed.

#[export] Instance configured_dec env k : Decision (configured env k).
Proof.
  unfold configured. destruct (env !! k) as [s|]; [destruct (decide (s = ""))|]; [right|left|right]; naive_solver.
Defined.

(** Which variables the loaded environment lacks. *)
Lemma configured_dotenv process_env lines k :
  ~ configured (dotenv_config process_env lines) k <->
  match process_env !! k with Some s => s = "" | None => ~ configured (list_to_map (reverse lines) : gmap string string) k end.
Proof.
  unfold configured at 1. rewrite dotenv_config_lookup. destruct (process_env !! k) as [s|]; [|done].
  destruct (decide (s = "")); naive_solver.
Qed.

Section LoadedStartup.
Variable private_key_valid : string -> bool.
Variable address_of_key : string -> string.
Local Abbreviation startup := (startup private_key_valid address_of_key).

Definition required_vars : list string := ["RPC_URL"; "PRIVATE_KEY"; "SIMPLE_STORAGE_ADDRESS"].

Lemma not_all_configured env :
  ~ (configured env "RPC_URL" /\ configured env "PRIVATE_KEY" /\ configured env "SIMPLE_STORAGE_ADDRESS") <->
  exists k, k ∈ required_vars /\ ~ configured env k.
Proof.
  unfold required_vars. split.
  - intros Hn. destruct (decide (configured env "RPC_URL")); [|exists "RPC_URL"; set_solver].
    destruct (decide (configured env "PRIVATE_KEY")); [|exists "PRIVATE_KEY"; set_solver].
    destruct (decide (configured env "SIMPLE_STORAGE_ADDRESS")); [|exists "SIMPLE_STORAGE_ADDRESS"; set_solver].
    tauto.
  - intros (k & Hk & Hn) (H1 & H2 & H3). rewrite !elem_of_cons, elem_of_nil in Hk. naive_solver.
Qed.

(** C26: with [.env] loaded, the process prints the error and exits
    with code 1 exactly when one of the three variables is set to the
    empty string in the process environment, or is absent from it and
    not set (or set empty) by the last line of [.env] for it.  An empty
    variable of the shell hides the value [.env] gives it. *)
Theorem startup_dotenv_exit process_env lines :
  startup (dotenv_config process_env lines) = [EffLog missing_env_line; EffExit 1] <->
  exists k, k ∈ required_vars /\
    match process_env !! k with Some s => s = "" | None => ~ configured (list_to_map (reverse lines) : gmap string string) k end.
Proof.
  setoid_rewrite <- configured_dotenv. rewrite <- not_all_configured.
  destruct (startup_shape private_key_valid address_of_key (dotenv_config process_env lines))
    as [[Hn ->]|(H1 & H3 & key & Hk & Hne & [[_ ->]|[_ ->]])]; unfold configured in *; naive_solver.
Qed.

End LoadedStartup.

(** The private key of the first account of Hardhat's development network. *)
Definition hardhat_key0 : string := "0xac0974bec39a17e36ba4a6b4d238ff944bacb478cbed5efcae784d7bf4f2ff80".

(** An empty [RPC_URL] exported by the shell: the value [.env] gives it
    is not loaded and the process exits. *)
Lemma startup_dotenv_exit_witness :
  startup wallet_accepts (fun _ => "0x") (dotenv_config {[ "RPC_URL" := "" ]}
    [("RPC_URL", "http://127.0.0.1:8545"); ("PRIVATE_KEY", hardhat_key0);
     ("SIMPLE_STORAGE_ADDRESS", "0x5FbDB2315678afecb367f032d93F642f64180aa3")])
  = [EffLog missing_env_line; EffExit 1].
Proof.
  apply startup_dotenv_exit. exists "RPC_URL". split; [set_solver|]. reflexivity.
Defined.
