(* ===== verification/Deploy.v ===== *)
(** * Deploy: the Hardhat deployment script

    [src/contracts/scripts/deploy-simple-storage.js]: [main] obtains the
    SimpleStorage factory, deploys it, waits for the deployment, reads the
    address and prints it; the top level runs [main()] and, when it
    rejects, prints the error and sets [process.exitCode = 1].

    - [hardhat] lists the calls the script makes through [hre.ethers];
      [main] and [script] are the two functions of the file as tasks.
    - [hh_world] is the Hardhat network the script runs on: compiled
      artifacts, the deployer's nonce and balance, and the code deployed
      at each address.  [hh_reply] answers one call (automine: the
      deployment is mined when it is sent); [hh_respond] adds the fault
      schedule of Chain.v (lost request, lost reply).
    - The theorems give every execution of the script against any world,
      and its runs on the Hardhat network: success, a missing artifact,
      an unfunded deployer and a reply lost after the deployment. *)

From Stdlib Require Import Ascii.
From S2P Require Import Prelude Js Task Contract Rpc Chain.

(** [ContractFactory] for an artifact, and the contract [deploy()]
    returns: its address and the nonce of its deployment transaction. *)
Record factory := Factory { fac_name : string }.
Record deployment := Deployment { dep_address : string; dep_nonce : nat }.

Inductive hardhat : Type -> Type :=
| GetContractFactory (name : string) : hardhat factory
| DeployContract (f : factory) : hardhat deployment
| WaitForDeployment (d : deployment) : hardhat unit
| GetAddress (d : deployment) : hardhat string.

Definition deployed_line (address : string) : console_line :=
  ConsoleLog [JString "SimpleStorage deployed to:"; JString address].

Definition error_line (error : jserror) : console_line := ConsoleError [JErr error].

(** Lines 3-11. *)
Definition main : task hardhat unit :=
  SimpleStorage ← await (GetContractFactory "SimpleStorage");
  simpleStorage ← await (DeployContract SimpleStorage);
  _ ← await (WaitForDeployment simpleStorage);
  address ← await (GetAddress simpleStorage);
  Log (deployed_line address) (Ret tt).

(** Lines 13-16: the value is [process.exitCode] once [main()] has
    settled ([None]: never assigned). *)
Definition script : task hardhat (option Z) :=
  TRY (_ ← main; Ret None)
  CATCH (error) Log (error_line error) (Ret (Some 1)).

(** The status the process exits with: [process.exitCode], 0 when unset. *)
Definition exit_status (code : option Z) : Z := default 0 code.

(** ** The Hardhat network *)

Record hh_world := HardhatNetwork {
  hh_artifacts : list string;
  hh_nonce : nat;
  hh_balance : Z;
  hh_code : gmap string SimpleStorage.state;
}.

(** The address of the contract created by the deployer's transaction
    with nonce [n] (keccak of the RLP of sender and nonce in the chain;
    only its injectivity in [n] matters here). *)
Definition contract_address (n : nat) : string := "0xc" +:+ bigint_to_string (Z.of_nat n).

Definition quote : string := String "034"%char EmptyString.

Definition artifact_not_found (name : string) : jserror :=
  JsError HardhatError ("HH700: Artifact for contract " +:+ quote +:+ name +:+ quote +:+ " not found.").

Definition insufficient_funds : jserror :=
  JsError InsufficientFunds "insufficient funds for intrinsic transaction cost".

Lemma contract_address_inj n m : contract_address n = contract_address m -> n = m.
Proof.
  unfold contract_address. intros E. apply (inj (String.append "0xc")), bigint_to_string_inj in E. lia.
Qed.

Section HardhatNetwork.
(** The fee of the deployment transaction, in wei. *)
Variable deploy_cost : Z.

Definition hh_reply (w : hh_world) {X} (ev : hardhat X) : hh_world * result X :=
  match ev in hardhat X return hh_world * result X with
  | GetContractFactory name =>
      if decide (name ∈ hh_artifacts w) then (w, Ok (Factory name))
      else (w, Err (artifact_not_found name))
  | DeployContract f =>
      if decide (deploy_cost <= hh_balance w) then
        let a := contract_address (hh_nonce w) in
        (HardhatNetwork (hh_artifacts w) (S (hh_nonce w)) (hh_balance w - deploy_cost)
                        (<[a := SimpleStorage.init]> (hh_code w)),
         Ok (Deployment a (hh_nonce w)))
      else (w, Err insufficient_funds)
  | WaitForDeployment d =>
      if decide (is_Some (hh_code w !! dep_address d)) then (w, Ok tt) else (w, Err network_error)
  | GetAddress d => (w, Ok (dep_address d))
  end.

Definition hh_respond (w : hh_world * list delivery) (X : Type) (ev : hardhat X)
    : (hh_world * list delivery) * result X :=
  let '(n, ds) := w in
  let '(d, ds') := match ds with [] => (Delivered, []) | d :: ds' => (d, ds') end in
  match d with
  | RequestLost => ((n, ds'), Err network_error)
  | Delivered => let '(n1, r) := hh_reply n ev in ((n1, ds'), r)
  | ReplyLost => let '(n1, _) := hh_reply n ev in ((n1, ds'), Err network_error)
  end.
End HardhatNetwork.

(** ** Every execution of the script *)

Section ScriptTheorems.
Context {W : Type}.
Variable answer : W -> forall X, hardhat X -> W -> result X -> Prop.
Local Abbreviation exec := (exec answer).

(** [main] writes its one line after all four calls resolved, or
    rejects, having written nothing, at the first call that rejects. *)
Lemma main_exec w w' o tr :
  exec w main w' o tr <->
  (exists w1 f w2 d w3 address,
     answer w _ (GetContractFactory "SimpleStorage") w1 (Ok f) /\
     answer w1 _ (DeployContract f) w2 (Ok d) /\
     answer w2 _ (WaitForDeployment d) w3 (Ok tt) /\
     answer w3 _ (GetAddress d) w' (Ok address) /\
     tr = [deployed_line address] /\ o = Returned tt)
  \/ (exists e, tr = [] /\ o = Threw e /\
      (answer w _ (GetContractFactory "SimpleStorage") w' (Err e)
       \/ exists w1 f, answer w _ (GetContractFactory "SimpleStorage") w1 (Ok f) /\
          (answer w1 _ (DeployContract f) w' (Err e)
           \/ exists w2 d, answer w1 _ (DeployContract f) w2 (Ok d) /\
              (answer w2 _ (WaitForDeployment d) w' (Err e)
               \/ exists w3, answer w2 _ (WaitForDeployment d) w3 (Ok tt) /\
                  answer w3 _ (GetAddress d) w' (Err e))))).
Proof.
  unfold main. rewrite exec_await_bind. setoid_rewrite exec_await_bind.
  setoid_rewrite exec_await_bind. setoid_rewrite exec_await_bind. simpl.
  split; intros; decompose_hyps; repeat match goal with u : unit |- _ => destruct u end;
    eauto 40.
Qed.

(** C15: the script never lets an exception escape.  It prints the
    address, leaving [process.exitCode] unset (exit status 0), exactly
    when the factory, the deployment, the wait and the address all
    resolved, in that order; otherwise it prints the error of the first
    call that rejected and sets [process.exitCode] to 1. *)
Theorem script_spec w w' o tr :
  exec w script w' o tr <->
  (exists w1 f w2 d w3 address,
     answer w _ (GetContractFactory "SimpleStorage") w1 (Ok f) /\
     answer w1 _ (DeployContract f) w2 (Ok d) /\
     answer w2 _ (WaitForDeployment d) w3 (Ok tt) /\
     answer w3 _ (GetAddress d) w' (Ok address) /\
     tr = [deployed_line address] /\ o = Returned None)
  \/ (exists e, tr = [error_line e] /\ o = Returned (Some 1) /\
      (answer w _ (GetContractFactory "SimpleStorage") w' (Err e)
       \/ exists w1 f, answer w _ (GetContractFactory "SimpleStorage") w1 (Ok f) /\
          (answer w1 _ (DeployContract f) w' (Err e)
           \/ exists w2 d, answer w1 _ (DeployContract f) w2 (Ok d) /\
              (answer w2 _ (WaitForDeployment d) w' (Err e)
               \/ exists w3, answer w2 _ (WaitForDeployment d) w3 (Ok tt) /\
                  answer w3 _ (GetAddress d) w' (Err e))))).
Proof.
  unfold script. rewrite exec_catch_log_ret. setoid_rewrite exec_bind.
  setoid_rewrite main_exec. simpl. split.
  - intros; decompose_hyps; [left|right..]; eauto 20.
  - intros; decompose_hyps; [left|right..]; eauto 40.
Qed.
End ScriptTheorems.

(** ** Runs on the Hardhat network *)

Section HardhatRuns.
Variable deploy_cost : Z.
Local Abbreviation respond := (hh_respond deploy_cost).
Local Abbreviation hh_answer := (fun s X (ev : hardhat X) s' r => respond s X ev = (s', r)).

Local Ltac hh_cases s :=
  let n := fresh "n" in let ds := fresh "ds" in let d := fresh "d" in let ds' := fresh "ds'" in
  destruct s as [n ds]; unfold hh_respond;
  destruct (match ds with [] => _ | _ :: _ => _ end) as [d ds'];
  destruct d; simpl; repeat case_decide; intros; simplify_eq/=; try done.

(** A resolved deployment has put a fresh SimpleStorage at its address. *)
Lemma respond_deploy_ok s f s' d :
  respond s _ (DeployContract f) = (s', Ok d) -> hh_code s'.1 !! dep_address d = Some SimpleStorage.init.
Proof. hh_cases s. by rewrite lookup_insert_eq. Qed.

(** Waiting and reading the address change nothing on the network. *)
Lemma respond_wait_world s d s' r :
  respond s _ (WaitForDeployment d) = (s', r) -> s'.1 = s.1.
Proof. hh_cases s. Qed.

Lemma respond_address s d s' r :
  respond s _ (GetAddress d) = (s', r) -> s'.1 = s.1 /\ (forall a, r = Ok a -> a = dep_address d).
Proof. hh_cases s; split; congruence. Qed.
Lemma run_hh_exec {A} (t : task hardhat A) s s' o tr :
  run respond s t = (s', o, tr) -> exec hh_answer s t s' o tr.
Proof.
  intros Hrun. pose proof (run_exec respond hh_answer) as Hex.
  specialize (Hex (fun s X ev => surjective_pairing _) A t s). by rewrite Hrun in Hex.
Qed.

(** Split a run of the script into the answers of its calls, by where
    it stopped. *)
Local Ltac script_cases Hrun :=
  apply run_hh_exec in Hrun; unfold script in Hrun;
  rewrite exec_catch_log_ret in Hrun; setoid_rewrite exec_bind in Hrun;
  setoid_rewrite main_exec in Hrun; cbn [exec] in Hrun; decompose_hyps.

(** C16: under any schedule of lost requests and replies, an address
    the script prints holds a freshly deployed SimpleStorage (stored
    value 0) on the network the script leaves. *)
Theorem script_prints_deployed w ds s' o tr address :
  run respond (w, ds) script = (s', o, tr) -> deployed_line address ∈ tr ->
  hh_code s'.1 !! address = Some SimpleStorage.init.
Proof.
  intros Hrun Hin. script_cases Hrun;
    rewrite ?app_nil_r, ?app_nil_l, ?list_elem_of_singleton in Hin;
    unfold deployed_line, error_line in Hin; simplify_eq.
  match goal with Hd : hh_respond _ _ _ (DeployContract _) = _ |- _ => apply respond_deploy_ok in Hd end.
  match goal with Hw : hh_respond _ _ _ (WaitForDeployment _) = _ |- _ => apply respond_wait_world in Hw end.
  match goal with Ha : hh_respond _ _ _ (GetAddress _) = _ |- _ => apply respond_address in Ha as [Ha1 Ha2] end.
  rewrite Ha1, (Ha2 _ eq_refl). congruence.
Qed.
(** The network after the deployer's transaction with the next nonce
    created a SimpleStorage. *)
Definition after_deploy (w : hh_world) : hh_world :=
  HardhatNetwork (hh_artifacts w) (S (hh_nonce w)) (hh_balance w - deploy_cost)
                 (<[contract_address (hh_nonce w) := SimpleStorage.init]> (hh_code w)).

Local Ltac run_script :=
  unfold script, main; cbn -[contract_address]; repeat (case_decide; cbn -[contract_address]);
  try done; try (exfalso; lia);
  try (exfalso; match goal with H : ¬ is_Some _ |- _ => apply H; rewrite lookup_insert_eq; eauto end).

(** C17: with the artifact compiled and the deployer funded, a run
    without faults deploys a SimpleStorage at the address of the
    deployer's next nonce, prints that address and leaves the exit
    status 0. *)
Theorem deploy_on_hardhat w :
  "SimpleStorage" ∈ hh_artifacts w -> deploy_cost <= hh_balance w ->
  run respond (w, []) script = ((after_deploy w, []), Returned None, [deployed_line (contract_address (hh_nonce w))]).
Proof. intros Ha Hb. run_script. Qed.

(** C18: without a compiled SimpleStorage artifact, [getContractFactory]
    rejects with [HH700]: nothing is deployed, the error is printed and
    the exit status is 1. *)
Theorem deploy_missing_artifact w :
  "SimpleStorage" ∉ hh_artifacts w ->
  run respond (w, []) script = ((w, []), Returned (Some 1), [error_line (artifact_not_found "SimpleStorage")]).
Proof. intros Ha. run_script. Qed.

(** C19: a deployer that cannot pay for the deployment sends nothing:
    the nonce and the code are unchanged, the error is printed and the
    exit status is 1. *)
Theorem deploy_unfunded w :
  "SimpleStorage" ∈ hh_artifacts w -> hh_balance w < deploy_cost ->
  run respond (w, []) script = ((w, []), Returned (Some 1), [error_line insufficient_funds]).
Proof. intros Ha Hb. run_script. Qed.

(** C20: when the reply to [deploy()] is lost after the node accepted
    the transaction, the script reports failure (exit status 1, no
    address printed) although the contract now exists; running it again,
    as the failure suggests, deploys a second contract at another
    address. *)
Theorem deploy_reply_lost w :
  "SimpleStorage" ∈ hh_artifacts w -> 0 <= deploy_cost -> 2 * deploy_cost <= hh_balance w ->
  run respond (w, [Delivered; ReplyLost]) script
    = ((after_deploy w, []), Returned (Some 1), [error_line network_error])
  /\ hh_code (after_deploy w) !! contract_address (hh_nonce w) = Some SimpleStorage.init
  /\ run respond (after_deploy w, []) script
    = ((after_deploy (after_deploy w), []), Returned None,
       [deployed_line (contract_address (S (hh_nonce w)))])
  /\ contract_address (S (hh_nonce w)) <> contract_address (hh_nonce w).
Proof.
  intros Ha Hc Hb. split_and!; [run_script|apply lookup_insert_eq| |intros E%contract_address_inj; lia].
  unfold after_deploy at 2. run_script.
Qed.
End HardhatRuns.

(** ** The script on a local Hardhat node *)

(** A fresh [npx hardhat node] after [npx hardhat compile]: the first
    signer with 10000 ETH and no transaction sent yet. *)
Definition hardhat_local : hh_world := HardhatNetwork ["SimpleStorage"] 0 (10 ^ 22) ∅.
Definition local_cost : Z := 10 ^ 15.

Lemma script_prints_deployed_witness :
  run (hh_respond local_cost) (hardhat_local, []) script
    = ((after_deploy local_cost hardhat_local, []), Returned None, [deployed_line (contract_address 0)])
  /\ deployed_line (contract_address 0) ∈ [deployed_line (contract_address 0)]
  /\ hh_code (after_deploy local_cost hardhat_local) !! contract_address 0 = Some SimpleStorage.init.
Proof.
  assert (Hrun : run (hh_respond local_cost) (hardhat_local, []) script
    = ((after_deploy local_cost hardhat_local, []), Returned None, [deployed_line (contract_address 0)]))
    by (vm_compute; reflexivity).
  assert (Hin : deployed_line (contract_address 0) ∈ [deployed_line (contract_address 0)]) by left.
  split; [exact Hrun|split; [exact Hin|]].
  exact (script_prints_deployed local_cost hardhat_local [] _ _ _ _ Hrun Hin).
Defined.

Lemma deploy_on_hardhat_witness :
  "SimpleStorage" ∈ hh_artifacts hardhat_local /\ local_cost <= hh_balance hardhat_local
  /\ run (hh_respond local_cost) (hardhat_local, []) script
     = ((after_deploy local_cost hardhat_local, []), Returned None, [deployed_line (contract_address 0)]).
Proof.
  assert (Ha : "SimpleStorage" ∈ hh_artifacts hardhat_local) by left.
  assert (Hb : local_cost <= hh_balance hardhat_local) by (vm_compute; discriminate).
  split; [exact Ha|split; [exact Hb|]]. exact (deploy_on_hardhat local_cost hardhat_local Ha Hb).
Defined.

Lemma deploy_missing_artifact_witness :
  ("SimpleStorage" ∉ hh_artifacts (HardhatNetwork [] 0 (10 ^ 22) ∅))
  /\ run (hh_respond local_cost) (HardhatNetwork [] 0 (10 ^ 22) ∅, []) script
     = ((HardhatNetwork [] 0 (10 ^ 22) ∅, []), Returned (Some 1),
        [error_line (artifact_not_found "SimpleStorage")]).
Proof.
  assert (Ha : "SimpleStorage" ∉ hh_artifacts (HardhatNetwork [] 0 (10 ^ 22) ∅)) by apply not_elem_of_nil.
  split; [exact Ha|]. exact (deploy_missing_artifact local_cost _ Ha).
Defined.

Lemma deploy_unfunded_witness :
  "SimpleStorage" ∈ hh_artifacts (HardhatNetwork ["SimpleStorage"] 0 0 ∅)
  /\ hh_balance (HardhatNetwork ["SimpleStorage"] 0 0 ∅) < local_cost
  /\ run (hh_respond local_cost) (HardhatNetwork ["SimpleStorage"] 0 0 ∅, []) script
     = ((HardhatNetwork ["SimpleStorage"] 0 0 ∅, []), Returned (Some 1), [error_line insufficient_funds]).
Proof.
  assert (Ha : "SimpleStorage" ∈ hh_artifacts (HardhatNetwork ["SimpleStorage"] 0 0 ∅)) by left.
  assert (Hb : hh_balance (HardhatNetwork ["SimpleStorage"] 0 0 ∅) < local_cost) by reflexivity.
  split; [exact Ha|split; [exact Hb|]]. exact (deploy_unfunded local_cost _ Ha Hb).
Defined.

Lemma deploy_reply_lost_witness :
  "SimpleStorage" ∈ hh_artifacts hardhat_local /\ 0 <= local_cost /\ 2 * local_cost <= hh_balance hardhat_local
  /\ run (hh_respond local_cost) (hardhat_local, [Delivered; ReplyLost]) script
     = ((after_deploy local_cost hardhat_local, []), Returned (Some 1), [error_line network_error]).
Proof.
  assert (Ha : "SimpleStorage" ∈ hh_artifacts hardhat_local) by left.
  assert (Hc : 0 <= local_cost) by (vm_compute; discriminate).
  assert (Hb : 2 * local_cost <= hh_balance hardhat_local) by (vm_compute; discriminate).
  split; [exact Ha|split; [exact Hc|split; [exact Hb|]]].
  exact (proj1 (deploy_reply_lost local_cost hardhat_local Ha Hc Hb)).
Defined.
